(** * The message pipeline of chatbot-v.js

    A shallow embedding of [handleSendMessage], [sendBotResponse],
    [saveTrainingData] and [getBotResponse] from [src/chatbot-v.js],
    together with the JavaScript string and property-access primitives
    they use.

    Conventions of the embedding.
    - A JavaScript string is a [string]: a sequence of code units,
      restricted here to the code units 0..255.
    - A JavaScript value (what [response.json()] yields, what a property
      access yields) is a [value]; numbers are the integer-valued ones.
    - Firestore and the inference endpoint are external.  Every call
      that reaches them is recorded in a log, and the environment decides
      whether a store call is accepted (a schedule of faults) and what the
      endpoint answers.  What the Firestore client checks before a call
      leaves the program is part of the embedding: [doc] splits the
      document id at the slashes and refuses a path that names no
      document, [addDoc] refuses data it cannot encode.
    - [appId] and the user id are taken to be single path segments, the
      condition under which the client makes the two collection
      references of the component at all.
    - The snapshot listener receives the documents the client passes to
      it, which the environment chooses.
    - An [async] function is a computation in the monad [M]: it threads
      the system state and either returns or throws. *)

From Stdlib Require Import Ascii String List ZArith Lia Bool.
From stdpp Require Import base gmap strings list fin_maps.

Local Open Scope string_scope.
Local Open Scope list_scope.
Local Set Warnings "-register-all".

(** String concatenation computes on a literal first argument. *)
#[local] Arguments String.append !s1 s2.
#[local] Arguments Ascii.eqb : simpl nomatch.

(** ** JavaScript strings *)

Module Js.

(** The double quote, the space and the line feed. *)
Definition dquote : ascii := ascii_of_nat 34.
Definition space : ascii := ascii_of_nat 32.
Definition newline : string := String (ascii_of_nat 10) "".

(** WhiteSpace and LineTerminator code units below 256: TAB, LF, VT, FF,
    CR, SP and NBSP. *)
Definition isWhiteSpace (c : ascii) : bool :=
  let n := nat_of_ascii c in
  (Nat.eqb n 9 || Nat.eqb n 10 || Nat.eqb n 11 || Nat.eqb n 12
   || Nat.eqb n 13 || Nat.eqb n 32 || Nat.eqb n 160)%bool.

Fixpoint trimStart (s : string) : string :=
  match s with
  | String c s' => if isWhiteSpace c then trimStart s' else s
  | EmptyString => EmptyString
  end.

(** [trimEnd]: a white-space character is dropped when everything after
    it has been dropped. *)
Fixpoint trimEnd (s : string) : string :=
  match s with
  | String c s' =>
      match trimEnd s' with
      | EmptyString => if isWhiteSpace c then EmptyString else String c EmptyString
      | t => String c t
      end
  | EmptyString => EmptyString
  end.

(** [s.trim()] *)
Definition trim (s : string) : string := trimEnd (trimStart s).

(** [s.startsWith(p)] *)
Fixpoint startsWith (p s : string) : bool :=
  match p, s with
  | EmptyString, _ => true
  | String a p', String b s' => if Ascii.eqb a b then startsWith p' s' else false
  | String _ _, EmptyString => false
  end.

(** [s.substring(n)] *)
Fixpoint substring (n : nat) (s : string) : string :=
  match n, s with
  | S k, String _ s' => substring k s'
  | _, _ => s
  end.

(** [s.includes(p)] *)
Fixpoint includes (p s : string) : bool :=
  match s with
  | String _ s' => (startsWith p s || includes p s')%bool
  | EmptyString => startsWith p s
  end.

(** [s.split(sep)] for a non-empty separator: the occurrences of [sep] are
    found from left to right without overlap.  [skip] counts the code
    units of a found separator still to be passed over. *)
Fixpoint split_go (sep : string) (skip : nat) (s : string) : list string :=
  match s with
  | EmptyString => [EmptyString]
  | String c s' =>
      match skip with
      | S k => split_go sep k s'
      | O =>
          if startsWith sep s
          then EmptyString :: split_go sep (String.length sep - 1) s'
          else match split_go sep 0 s' with
               | piece :: rest => String c piece :: rest
               | [] => [String c EmptyString]
               end
      end
  end.

Definition split (sep s : string) : list string := split_go sep 0 s.

(** [s.replace(re, '')] where [re] is the global pattern matching one
    double quote: every double quote is removed. *)
Fixpoint removeQuotes (s : string) : string :=
  match s with
  | String c s' =>
      if Ascii.eqb c dquote then removeQuotes s' else String c (removeQuotes s')
  | EmptyString => EmptyString
  end.

(** Lower-casing of one code unit below 256: A..Z and the upper-case
    letters of Latin-1 (0xC0..0xDE except the multiplication sign). *)
Definition lowerChar (c : ascii) : ascii :=
  let n := nat_of_ascii c in
  if ((Nat.leb 65 n && Nat.leb n 90)
      || (Nat.leb 192 n && Nat.leb n 222 && negb (Nat.eqb n 215)))%bool
  then ascii_of_nat (n + 32) else c.

(** [s.toLowerCase()] *)
Fixpoint toLowerCase (s : string) : string :=
  match s with
  | String c s' => String (lowerChar c) (toLowerCase s')
  | EmptyString => EmptyString
  end.

(** [l.join(sep)] *)
Fixpoint join (sep : string) (l : list string) : string :=
  match l with
  | [] => EmptyString
  | [x] => x
  | x :: rest => x +:+ sep +:+ join sep rest
  end.

(** [c] occurs in [s]. *)
Fixpoint occurs (c : ascii) (s : string) : bool :=
  match s with
  | String d s' => (Ascii.eqb c d || occurs c s')%bool
  | EmptyString => false
  end.

(** Truthiness of a string: [!s] holds exactly for the empty string. *)
Definition nonEmpty (s : string) : bool :=
  match s with EmptyString => false | String _ _ => true end.

End Js.

(** ** JavaScript values and property access *)

(** What [JSON.parse] produces, plus [undefined]. *)
Inductive value : Type :=
| VUndefined
| VNull
| VBool (b : bool)
| VNum (z : Z)
| VStr (s : string)
| VArr (items : list value)
| VObj (fields : list (string * value)).

(** What a rejected promise or a [throw] carries. *)
Inductive exn : Type :=
| TypeError
| InvalidArgument
| StoreError
| NetworkError
| SyntaxError.

(** The outcome of evaluating an expression or awaiting a promise. *)
Inductive res (A : Type) : Type :=
| Ok (a : A)
| Throw (e : exn).
Arguments Ok {A} a.
Arguments Throw {A} e.

Module Num.

Definition isDigit (c : ascii) : bool :=
  let n := nat_of_ascii c in (Nat.leb 48 n && Nat.leb n 57)%bool.

Definition digitVal (c : ascii) : Z := Z.of_nat (nat_of_ascii c - 48).

(** Value of a hexadecimal digit, if [c] is one. *)
Definition hexVal (c : ascii) : option Z :=
  let n := nat_of_ascii c in
  if (Nat.leb 48 n && Nat.leb n 57)%bool then Some (Z.of_nat (n - 48))
  else if (Nat.leb 97 n && Nat.leb n 102)%bool then Some (Z.of_nat (n - 87))
  else if (Nat.leb 65 n && Nat.leb n 70)%bool then Some (Z.of_nat (n - 55))
  else None.

(** The longest prefix of decimal digits, and what follows it. *)
Fixpoint spanDigits (s : string) : string * string :=
  match s with
  | String c s' =>
      if isDigit c
      then let '(d, r) := spanDigits s' in (String c d, r)
      else (EmptyString, s)
  | EmptyString => (EmptyString, EmptyString)
  end.

Fixpoint digitsValue (acc : Z) (s : string) : Z :=
  match s with
  | String c s' => digitsValue (10 * acc + digitVal c) s'
  | EmptyString => acc
  end.

(** A non-empty run of digits of radix [radix] up to the end of the string:
    is its value positive? *)
Fixpoint radixPositive (radix : Z) (seen nonzero : bool) (s : string) : bool :=
  match s with
  | String c s' =>
      match hexVal c with
      | Some d =>
          if (d <? radix)%Z
          then radixPositive radix true (nonzero || negb (d =? 0)%Z) s'
          else false
      | None => false
      end
  | EmptyString => (seen && nonzero)%bool
  end.

(** ExponentPart, which may be absent: [e] or [E], an optional sign,
    digits. *)
Definition exponent (s : string) : option Z :=
  match s with
  | EmptyString => Some 0%Z
  | String c s' =>
      if (Ascii.eqb c "e" || Ascii.eqb c "E")%bool then
        let '(neg, ds) :=
          match s' with
          | String sg s'' =>
              if Ascii.eqb sg "-" then (true, s'')
              else if Ascii.eqb sg "+" then (false, s'')
              else (false, s')
          | EmptyString => (false, s')
          end in
        match spanDigits ds with
        | (String d0 d, EmptyString) =>
            let v := digitsValue 0 (String d0 d) in
            Some (if neg then (- v)%Z else v)
        | _ => None
        end
      else None
  end.

(** StrUnsignedDecimalLiteral other than [Infinity]: the mathematical
    value is [m * 10^e]; it rounds to a positive double exactly when it
    exceeds half of the least positive double, [2^-1075]. *)
Definition decimalPositive (s : string) : bool :=
  let '(d1, r1) := spanDigits s in
  let '(d2, r2) :=
    match r1 with
    | String c r => if Ascii.eqb c "." then spanDigits r else (EmptyString, r1)
    | EmptyString => (EmptyString, r1)
    end in
  if (Js.nonEmpty d1 || Js.nonEmpty d2)%bool then
    match exponent r2 with
    | Some ex =>
        let m := digitsValue 0 (d1 +:+ d2) in
        let e := (ex - Z.of_nat (String.length d2))%Z in
        ((0 <? m)%Z && ((0 <=? e)%Z || (10 ^ (- e) <? m * 2 ^ 1075)%Z))%bool
    | None => false
    end
  else false.

(** [StringToNumber(s) > 0] *)
Definition strPositive (s : string) : bool :=
  match Js.trim s with
  | EmptyString => false
  | String c r as t =>
      if Ascii.eqb c "-" then false
      else if Ascii.eqb c "+" then
        (String.eqb r "Infinity" || decimalPositive r)%bool
      else if String.eqb t "Infinity" then true
      else if (Js.startsWith "0x" t || Js.startsWith "0X" t)%bool
      then radixPositive 16 false false (Js.substring 2 t)
      else if (Js.startsWith "0o" t || Js.startsWith "0O" t)%bool
      then radixPositive 8 false false (Js.substring 2 t)
      else if (Js.startsWith "0b" t || Js.startsWith "0B" t)%bool
      then radixPositive 2 false false (Js.substring 2 t)
      else decimalPositive t
  end.

(** The array index a property key denotes: a decimal numeral without a
    superfluous leading zero. *)
Definition arrayIndex (k : string) : option nat :=
  match k with
  | EmptyString => None
  | String c r =>
      if Ascii.eqb c "0" then (if Js.nonEmpty r then None else Some 0)
      else match spanDigits k with
           | (_, EmptyString) => Some (Z.to_nat (digitsValue 0 k))
           | _ => None
           end
  end.

End Num.

(** The object has an own property [k]. *)
Definition hasOwn (k : string) (fields : list (string * value)) : bool :=
  existsb (fun kv => String.eqb k (fst kv)) fields.

(** ToPrimitive throws a TypeError.  A parsed object converts through
    [Object.prototype.valueOf], which gives the object itself, and then
    through its [toString]: an own member of that name is no function and
    hides the inherited one, so nothing yields a primitive.  An array
    converts through [join], which converts every element other than
    [null] and [undefined] to a string in the same way. *)
Fixpoint toPrimitiveThrows (v : value) : bool :=
  match v with
  | VObj fields => hasOwn "toString" fields
  | VArr items => existsb toPrimitiveThrows items
  | VUndefined | VNull | VBool _ | VNum _ | VStr _ => false
  end.

(** [ToNumber(v) > 0] for a value that converts.  An array converts
    through its string form: the join of its elements, where [null] and
    [undefined] give the empty string; so only an array of one element
    can be a number. *)
Fixpoint positive (v : value) : bool :=
  match v with
  | VUndefined | VNull => false
  | VBool b => b
  | VNum z => (0 <? z)%Z
  | VStr s => Num.strPositive s
  | VArr [x] =>
      match x with
      | VNum z => (0 <? z)%Z
      | VStr s => Num.strPositive s
      | VArr _ => positive x
      | VUndefined | VNull | VBool _ | VObj _ => false
      end
  | VArr _ => false
  | VObj _ => false
  end.

(** The test [v > 0]. *)
Definition gtZero (v : value) : res bool :=
  if toPrimitiveThrows v then Throw TypeError else Ok (positive v).

(** ToBoolean *)
Definition truthy (v : value) : bool :=
  match v with
  | VUndefined | VNull => false
  | VBool b => b
  | VNum z => negb (z =? 0)%Z
  | VStr s => Js.nonEmpty s
  | VArr _ | VObj _ => true
  end.

(** The first binding of [k] among the own properties of an object. *)
Fixpoint field (k : string) (fields : list (string * value)) : value :=
  match fields with
  | (k', v) :: rest => if String.eqb k k' then v else field k rest
  | [] => VUndefined
  end.

(** [v.k] and [v[k]] for the property names the source uses ([candidates],
    [content], [parts], [text], [length] and the index 0): reading a
    property of [null] or [undefined] throws a TypeError; strings and
    arrays have a [length] and indexed elements; a missing property is
    [undefined]. *)
Definition getProp (v : value) (k : string) : res value :=
  match v with
  | VUndefined | VNull => Throw TypeError
  | VBool _ | VNum _ => Ok VUndefined
  | VStr s =>
      if String.eqb k "length" then Ok (VNum (Z.of_nat (String.length s)))
      else match Num.arrayIndex k with
           | Some i =>
               match String.get i s with
               | Some c => Ok (VStr (String c EmptyString))
               | None => Ok VUndefined
               end
           | None => Ok VUndefined
           end
  | VArr items =>
      if String.eqb k "length" then Ok (VNum (Z.of_nat (List.length items)))
      else match Num.arrayIndex k with
           | Some i => Ok (nth i items VUndefined)
           | None => Ok VUndefined
           end
  | VObj fields => Ok (field k fields)
  end.

(** ** Documents, the store and the environment *)

(** A document of the [chat_history] collection as the transcript holds
    it: its id and its data.  The timestamp is [null] as long as the
    server has not set it. *)
Record ChatMessage : Type := mkChatMessage {
  docId : nat;
  sender : string;
  text : value;
  timestamp : option nat
}.

(** The data of a document of the [training_data] collection. *)
Record TrainingPair : Type := mkTrainingPair {
  question : string;
  answer : string;
  taughtAt : nat
}.

(** One element of [contents]: a role and one part holding a text. *)
Record Turn : Type := mkTurn {
  role : string;
  parts : list value
}.

(** Firestore: the collections by path, and the server clock that gives
    ids and timestamps. *)
Record Firestore : Type := mkFirestore {
  chat_history : gmap string (list ChatMessage);
  training_data : gmap string (gmap string TrainingPair);
  clock : nat
}.

(** What [fetch] followed by [response.json()] can come to. *)
Inductive fetched : Type :=
| FetchRejected
| BodyNotJson
| Body (result : value).

(** A call that leaves the program. *)
Inductive call : Type :=
| CallAddDoc (path sender : string) (text : value)
| CallSetDoc (path key question answer : string)
| CallGetDocs (path : string)
| CallFetch (contents : list Turn).

Inductive handle : Type := FirestoreHandle.

(** The state of the component. *)
Record App : Type := mkApp {
  db : option handle;
  userId : option string;
  messages : list ChatMessage;
  newMessage : string;
  isLoading : bool
}.

(** The whole system: the component, the store, the faults the store will
    answer its next calls with ([true]: the call is rejected; none left:
    accepted), the endpoint, and the calls made so far. *)
Record Sys : Type := mkSys {
  ui : App;
  fs : Firestore;
  faults : list bool;
  endpoint : list Turn -> fetched;
  calls : list call
}.

Definition chatAt (path : string) (f : Firestore) : list ChatMessage :=
  default [] (chat_history f !! path).

Definition trainingAt (path : string) (f : Firestore) : gmap string TrainingPair :=
  default ∅ (training_data f !! path).

(** A reference to a document: the path of its collection and its id. *)
Record DocumentReference : Type := mkDocumentReference {
  refPath : string;
  refId : string
}.

(** The store accepts [addDoc]: the document is appended with a fresh id
    and the server time. *)
Definition appendChat (path sndr : string) (txt : value) (f : Firestore) : Firestore :=
  mkFirestore
    (<[path := chatAt path f ++ [mkChatMessage (clock f) sndr txt (Some (clock f))]]> (chat_history f))
    (training_data f)
    (S (clock f)).

(** The store accepts [setDoc] with [merge]: the three fields written
    replace those of the document under [key], which is created if
    absent. *)
Definition upsertTraining (path key qu an : string) (f : Firestore) : Firestore :=
  mkFirestore
    (chat_history f)
    (<[path := <[key := mkTrainingPair qu an (clock f)]> (trainingAt path f)]> (training_data f))
    (S (clock f)).

(** ** The monad of asynchronous functions *)

Definition M (A : Type) : Type := Sys -> res A * Sys.

Definition ret {A} (a : A) : M A := fun s => (Ok a, s).

Definition bind {A B} (m : M A) (k : A -> M B) : M B :=
  fun s => match m s with
           | (Ok a, s') => k a s'
           | (Throw e, s') => (Throw e, s')
           end.

Notation "'await' x <- m ; k" := (bind m (fun x => k))
  (at level 10, x name, m at level 100, k at level 200).
Notation "'await_' m ; k" := (bind m (fun _ => k))
  (at level 10, m at level 100, k at level 200).

(** [try { m } catch (error) { h }] *)
Definition tryCatch {A} (m : M A) (h : exn -> M A) : M A :=
  fun s => match m s with
           | (Ok a, s') => (Ok a, s')
           | (Throw e, s') => h e s'
           end.

(** [try { m } finally { f }] *)
Definition tryFinally {A} (m : M A) (f : M unit) : M A :=
  fun s => match m s with
           | (r, s') =>
               match f s' with
               | (Ok _, s'') => (r, s'')
               | (Throw e, s'') => (Throw e, s'')
               end
           end.

Definition liftRes {A} (r : res A) : M A := fun s => (r, s).

(** State setters of the component. *)
Definition setIsLoading (b : bool) : M unit :=
  fun s => (Ok tt, mkSys (mkApp (db (ui s)) (userId (ui s)) (messages (ui s)) (newMessage (ui s)) b)
                         (fs s) (faults s) (endpoint s) (calls s)).

Definition setNewMessage (t : string) : M unit :=
  fun s => (Ok tt, mkSys (mkApp (db (ui s)) (userId (ui s)) (messages (ui s)) t (isLoading (ui s)))
                         (fs s) (faults s) (endpoint s) (calls s)).

Definition setMessages (l : list ChatMessage) : M unit :=
  fun s => (Ok tt, mkSys (mkApp (db (ui s)) (userId (ui s)) l (newMessage (ui s)) (isLoading (ui s)))
                         (fs s) (faults s) (endpoint s) (calls s)).

(** A call to the store: it is logged, the next fault is consumed, and the
    store changes by [accept] unless the call is rejected. *)
Definition storeCall {A} (c : call) (accept : Firestore -> A * Firestore) : M A :=
  fun s =>
    let logged := calls s ++ [c] in
    if hd false (faults s)
    then (Throw StoreError, mkSys (ui s) (fs s) (tl (faults s)) (endpoint s) logged)
    else let '(a, f) := accept (fs s) in
         (Ok a, mkSys (ui s) f (tl (faults s)) (endpoint s) logged).

(** A field name the client refuses in a write: the empty name, and a
    name that begins and ends with two underscores, with no line
    terminator in between. *)
Fixpoint endsReserved (s : string) : bool :=
  match s with
  | EmptyString => false
  | String c s' =>
      if (Ascii.eqb c (ascii_of_nat 10) || Ascii.eqb c (ascii_of_nat 13))%bool then false
      else (String.eqb s "__" || endsReserved s')%bool
  end.

Definition refusedField (k : string) : bool :=
  (negb (Js.nonEmpty k) || (Js.startsWith "__" k && endsReserved (Js.substring 2 k)))%bool.

(** The client can encode [v] as the value of a field: [undefined] has no
    encoding, an array may not hold an array, and the names of the fields
    of a map may not be refused ones. *)
Fixpoint storable (v : value) : bool :=
  match v with
  | VUndefined => false
  | VNull | VBool _ | VNum _ | VStr _ => true
  | VArr items =>
      forallb (fun x => match x with VArr _ => false | _ => storable x end) items
  | VObj fields =>
      forallb (fun kv => let '(k, x) := kv in (negb (refusedField k) && storable x)%bool) fields
  end.

(** [addDoc(ref, {sender, text, timestamp: serverTimestamp()})]: data the
    client cannot encode make it throw before anything reaches the
    store. *)
Definition addDoc (path sndr : string) (txt : value) : M unit :=
  if storable txt
  then storeCall (CallAddDoc path sndr txt) (fun f => (tt, appendChat path sndr txt f))
  else liftRes (Throw InvalidArgument).

Definition setDoc (path key qu an : string) : M unit :=
  storeCall (CallSetDoc path key qu an) (fun f => (tt, upsertTraining path key qu an f)).

(** [getDocs(ref)] then [docs.map(doc => doc.data())]: the documents of the
    collection, in the order the store lists them. *)
Definition getDocs (path : string) : M (list TrainingPair) :=
  storeCall (CallGetDocs path) (fun f => (snd <$> map_to_list (trainingAt path f), f)).

(** [fetch(apiUrl, ...)] then [response.json()] *)
Definition fetchJson (contents : list Turn) : M value :=
  fun s =>
    let s' := mkSys (ui s) (fs s) (faults s) (endpoint s) (calls s ++ [CallFetch contents]) in
    match endpoint s contents with
    | FetchRejected => (Throw NetworkError, s')
    | BodyNotJson => (Throw SyntaxError, s')
    | Body result => (Ok result, s')
    end.

(** ** The texts of the source *)

Definition dq : string := String Js.dquote EmptyString.

(** The separator the teach command is split at: a double quote, a space,
    a double quote. *)
Definition teachSep : string := dq +:+ " " +:+ dq.

Definition teachPrefix : string := "/teach ".
Definition clearPrefix : string := "/clear".

Definition ackText : string :=
  "Acknowledged. I've noted that for future reference.".
Definition usageText : string :=
  "Invalid /teach command. Use: /teach " +:+ dq +:+ "question" +:+ dq +:+ " "
  +:+ dq +:+ "answer" +:+ dq.
Definition clearedText : string := "Chat history cleared.".
Definition oopsText : string := "Oops! Something went wrong. Please try again.".
Definition rephraseText : string :=
  "I'm not sure how to respond to that. Can you rephrase?".
Definition troubleText : string :=
  "I'm sorry, I'm having trouble connecting right now. Please try again later.".

Definition preamble : string :=
  "You are a blank chatbot being trained. Here's some training data I've provided you:"
  +:+ Js.newline.
Definition bridge : string :=
  Js.newline +:+ Js.newline
  +:+ "Based on our conversation history and the training data, please respond to the following:"
  +:+ Js.newline.

(** ** The functions of the component *)

Section Component.

(** [appId], fixed when the module is loaded. *)
Variable appId : string.

(** How a template literal renders [userId]. *)
Definition userIdText (u : option string) : string :=
  match u with Some s => s | None => "null" end.

(** [!userId] is false. *)
Definition hasUserId (u : option string) : bool :=
  match u with Some s => Js.nonEmpty s | None => false end.

Definition hasDb (d : option handle) : bool :=
  match d with Some _ => true | None => false end.

Definition chatPath (c : App) : string :=
  "artifacts/" +:+ appId +:+ "/users/" +:+ userIdText (userId c) +:+ "/chat_history".

Definition trainingPath (c : App) : string :=
  "artifacts/" +:+ appId +:+ "/users/" +:+ userIdText (userId c) +:+ "/training_data".

(** [collection(db, path)]: a reference can only be made from a
    handle. *)
Definition collection (c : App) (path : string) : M string :=
  if hasDb (db c) then ret path else liftRes (Throw TypeError).

(** The segments of a path: its pieces between slashes, the empty ones
    dropped. *)
Definition segments (path : string) : list string :=
  List.filter Js.nonEmpty (Js.split "/" path).

(** The reference [doc(db, path, id)] makes from the path of a collection
    and an id.  The id is itself read as a path: it may not hold two
    slashes in a row, and the number of its segments must be odd, so that
    the whole path names a document; the last segment is then the id of
    the document and the others lead to a collection below [path].  The
    path of the collection passes the same checks as the one
    [collection] was given just before, from which it differs in its
    last segment only. *)
Definition docRef (path id : string) : option DocumentReference :=
  if Js.includes "//" id then None
  else
    let segs := segments id in
    if Nat.odd (List.length segs)
    then Some (mkDocumentReference (Js.join "/" (path :: removelast segs))
                                   (List.last segs EmptyString))
    else None.

(** [doc(db, path, id)] *)
Definition doc (c : App) (path id : string) : M DocumentReference :=
  if hasDb (db c) then
    match docRef path id with
    | Some ref => ret ref
    | None => liftRes (Throw InvalidArgument)
    end
  else liftRes (Throw TypeError).

(** [sendBotResponse]; [c] holds the values of the render the function
    closes over. *)
Definition sendBotResponse (c : App) (txt : value) (sndr : string) : M unit :=
  if (negb (hasDb (db c)) || negb (hasUserId (userId c)))%bool then ret tt
  else await path <- collection c (chatPath c);
       addDoc path sndr txt.

(** [saveTrainingData] *)
Definition saveTrainingData (c : App) (qu an : string) : M unit :=
  if (negb (hasDb (db c)) || negb (hasUserId (userId c)))%bool then ret tt
  else await trainingDataRef <- doc c (trainingPath c) (Js.toLowerCase qu);
       setDoc (refPath trainingDataRef) (refId trainingDataRef) qu an.

(** The turn a transcript message becomes. *)
Definition toTurn (msg : ChatMessage) : Turn :=
  mkTurn (if String.eqb (sender msg) "user" then "user" else "model")
         [VObj [("text", text msg)]].

(** The line a training pair is rendered as. *)
Definition trainingLine (data : TrainingPair) : string :=
  "User asked " +:+ dq +:+ question data +:+ dq +:+ ", I responded " +:+ dq
  +:+ answer data +:+ dq +:+ ".".

Definition trainingContext (trainingData : list TrainingPair) : string :=
  Js.join Js.newline (trainingLine <$> trainingData).

Definition prompt (trainingData : list TrainingPair) (userMessage : string) : string :=
  preamble +:+ trainingContext trainingData +:+ bridge +:+ userMessage.

(** [chatHistoryForLLM] once the prompt has been pushed. *)
Definition chatHistoryForLLM (msgs : list ChatMessage) (trainingData : list TrainingPair)
    (userMessage : string) : list Turn :=
  (toTurn <$> msgs) ++ [mkTurn "user" [VObj [("text", VStr (prompt trainingData userMessage))]]].

(** [v.k1.k2...] *)
Fixpoint getPath (v : value) (ks : list string) : res value :=
  match ks with
  | [] => Ok v
  | k :: rest =>
      match getProp v k with
      | Ok v' => getPath v' rest
      | Throw e => Throw e
      end
  end.

(** One operand of the condition: [test] applied to the value at [ks]. *)
Definition operand (test : value -> res bool) (result : value) (ks : list string) : res bool :=
  match getPath result ks with
  | Ok v => test v
  | Throw e => Throw e
  end.

(** The operand [v] alone: its truthiness. *)
Definition isTruthy (v : value) : res bool := Ok (truthy v).

(** [a && b] in a condition: [b] is evaluated only when [a] holds. *)
Definition andAlso (a b : res bool) : res bool :=
  match a with
  | Ok true => b
  | Ok false => Ok false
  | Throw e => Throw e
  end.

(** The condition on [result] in [getBotResponse]. *)
Definition hasCandidateText (result : value) : res bool :=
  andAlso (operand isTruthy result ["candidates"])
  (andAlso (operand gtZero result ["candidates"; "length"])
  (andAlso (operand isTruthy result ["candidates"; "0"; "content"])
  (andAlso (operand isTruthy result ["candidates"; "0"; "content"; "parts"])
           (operand gtZero result ["candidates"; "0"; "content"; "parts"; "length"])))).

(** [getBotResponse] *)
Definition getBotResponse (c : App) (userMessage : string) : M unit :=
  tryCatch
    (await trainingDataCollectionRef <- collection c (trainingPath c);
     await trainingData <- getDocs trainingDataCollectionRef;
     await result <- fetchJson (chatHistoryForLLM (messages c) trainingData userMessage);
     await shaped <- liftRes (hasCandidateText result);
     if shaped : bool then
       await botText <- liftRes (getPath result ["candidates"; "0"; "content"; "parts"; "0"; "text"]);
       sendBotResponse c botText "bot"
     else
       sendBotResponse c (VStr rephraseText) "bot")
    (fun _ => sendBotResponse c (VStr troubleText) "bot").

(** The three branches of [handleSendMessage] after the user message has
    been added. *)
Definition dispatch (c : App) (userMessage : string) : M unit :=
  if Js.startsWith teachPrefix userMessage then
    match Js.split teachSep (Js.substring (String.length teachPrefix) userMessage) with
    | [part0; part1] =>
        let qu := Js.removeQuotes part0 in
        let an := Js.removeQuotes part1 in
        await_ saveTrainingData c qu an;
        sendBotResponse c (VStr ackText) "bot"
    | _ => sendBotResponse c (VStr usageText) "bot"
    end
  else if Js.startsWith clearPrefix userMessage then
    await_ setMessages [];
    sendBotResponse c (VStr clearedText) "bot"
  else getBotResponse c userMessage.

(** The body of the [try] block of [handleSendMessage]. *)
Definition sendAndProcess (c : App) (userMessage : string) : M unit :=
  await path <- collection c (chatPath c);
  await_ addDoc path "user" (VStr userMessage);
  dispatch c userMessage.

(** [handleSendMessage]; the event's [preventDefault] has no part in the
    state. *)
Definition handleSendMessage (c : App) : M unit :=
  if (negb (Js.nonEmpty (Js.trim (newMessage c))) || negb (hasDb (db c))
      || negb (hasUserId (userId c)))%bool
  then ret tt
  else
    await_ setIsLoading true;
    let userMessage := Js.trim (newMessage c) in
    await_ setNewMessage "";
    tryFinally
      (tryCatch
         (sendAndProcess c userMessage)
         (fun _ => sendBotResponse c (VStr oopsText) "bot"))
      (setIsLoading false).

(** The form is submitted: the handler of the current render runs. *)
Definition submit : M unit := fun s => handleSendMessage (ui s) s.

(** [getBotResponse] of the current render. *)
Definition infer (userMessage : string) : M unit :=
  fun s => getBotResponse (ui s) userMessage s.

(** The snapshot listener is called with the documents of a snapshot,
    each as its id and data: they become the transcript. *)
Definition onSnapshot (fetchedMessages : list ChatMessage) : M unit :=
  setMessages fetchedMessages.

(** The documents of the snapshot the listener gets when no write is
    pending and nobody else writes: the conversation as the store holds
    it. *)
Definition settledSnapshot (s : Sys) : list ChatMessage :=
  chatAt (chatPath (ui s)) (fs s).

End Component.

(** ** Notions the properties are stated with *)

(** No fault is scheduled: the store accepts every call. *)
Definition accepting (fl : list bool) : bool := forallb negb fl.

(** The call adds a document whose sender is the user. *)
Definition isUserAdd (k : call) : bool :=
  match k with
  | CallAddDoc _ sndr _ => String.eqb sndr "user"
  | _ => false
  end.

(** The state after the user has typed [t] into the message box. *)
Definition typed (t : string) (s : Sys) : Sys := snd (setNewMessage t s).

(** [/teach "A" "B"] *)
Definition teachCommand (A B : string) : string :=
  teachPrefix +:+ dq +:+ A +:+ teachSep +:+ B +:+ dq.

(** The grammar of the specification for what follows the teach prefix:
    two double-quoted segments separated by a single space. *)
Definition TwoQuoted (rest : string) : Prop :=
  exists A B : string, rest = dq +:+ A +:+ teachSep +:+ B +:+ dq.

(** No training pair of the store holds a double quote. *)
Definition quoteFree (f : Firestore) : Prop :=
  forall path key data,
    trainingAt path f !! key = Some data ->
    Js.occurs Js.dquote (question data) = false /\ Js.occurs Js.dquote (answer data) = false.

(** From [s] to [s'] the program made no user append and the store got
    bot messages only. *)
Definition botOnly (s s' : Sys) : Prop :=
  (exists later, calls s' = calls s ++ later /\ Forall (fun k => isUserAdd k = false) later)
  /\ forall path, exists bots,
       chatAt path (fs s') = chatAt path (fs s) ++ bots
       /\ Forall (fun m => sender m = "bot") bots.

(** A store without double quotes in its training pairs stays so. *)
Definition keepsQuoteFree (s s' : Sys) : Prop :=
  quoteFree (fs s) -> quoteFree (fs s').

(** From [s] to [s'] every training pair that was written carries the
    question [qu] and the answer [an]. *)
Definition writesOnly (qu an : string) (s s' : Sys) : Prop :=
  forall path key data,
    trainingAt path (fs s') !! key = Some data ->
    trainingAt path (fs s) !! key = Some data \/ (question data = qu /\ answer data = an).

(** The usage the bot answers a malformed teach command with. *)
Definition usageGuidance : string :=
  "Use: /teach " +:+ dq +:+ "question" +:+ dq +:+ " " +:+ dq +:+ "answer" +:+ dq.

(** The malformed command that is accepted nonetheless: neither segment
    is enclosed in double quotes. *)
Definition unquotedTeach : string := "/teach a" +:+ teachSep +:+ "b".

(** Every run of [m] relates the state before to the state after. *)
Definition stepwise {A} (R : Sys -> Sys -> Prop) (m : M A) : Prop :=
  forall s, R s (snd (m s)).

(** The state in which the [try] block of [handleSendMessage] starts: the
    busy flag is set and the message box is emptied. *)
Definition started (s : Sys) : Sys :=
  snd ((await_ setIsLoading true; setNewMessage "") s).

(** The state after the component's state has been set to [a]. *)
Definition withUi (a : App) (s : Sys) : Sys :=
  mkSys a (fs s) (faults s) (endpoint s) (calls s).

(** The state after an accepted or rejected store call [k] that left the
    store as [f]. *)
Definition afterCall (k : call) (f : Firestore) (s : Sys) : Sys :=
  mkSys (ui s) f (tl (faults s)) (endpoint s) (calls s ++ [k]).

(** The state a submission ends in when the store accepted the user
    message, then the call [k] that left the store as [f], then the bot
    message [reply]. *)
Definition settled (appId : string) (t : string) (k : option (call * (Firestore -> Firestore)))
    (reply : value) (s : Sys) : Sys :=
  let c := ui s in
  let s1 := afterCall (CallAddDoc (chatPath appId c) "user" (VStr t))
                      (appendChat (chatPath appId c) "user" (VStr t) (fs s)) (started s) in
  let s2 := match k with
            | Some (k, change) => afterCall k (change (fs s1)) s1
            | None => s1
            end in
  let s3 := afterCall (CallAddDoc (chatPath appId c) "bot" reply)
                      (appendChat (chatPath appId c) "bot" reply (fs s2)) s2 in
  snd (setIsLoading false s3).

(** The path of the text the bot answers with. *)
Definition candidateText : list string :=
  ["candidates"; "0"; "content"; "parts"; "0"; "text"].

(** The text of the bot message [getBotResponse] ends with, by what the
    endpoint did. *)
Definition replyTo (r : fetched) : value :=
  match r with
  | Body result =>
      match hasCandidateText result with
      | Ok true =>
          match getPath result candidateText with
          | Ok botText => if storable botText then botText else VStr troubleText
          | Throw _ => VStr troubleText
          end
      | Ok false => VStr rephraseText
      | Throw _ => VStr troubleText
      end
  | FetchRejected | BodyNotJson => VStr troubleText
  end.

(** What [getBotResponse] reads from the store, and what it sends. *)
Definition docsRead (appId : string) (c : App) (s : Sys) : list TrainingPair :=
  snd <$> map_to_list (trainingAt (trainingPath appId c) (fs s)).

Definition contentsSent (appId : string) (c : App) (userMessage : string) (s : Sys) : list Turn :=
  chatHistoryForLLM (messages c) (docsRead appId c s) userMessage.

(** The state [getBotResponse] ends in when the store accepted its two
    calls. *)
Definition inferred (appId : string) (c : App) (userMessage : string) (s : Sys) : Sys :=
  let contents := contentsSent appId c userMessage s in
  let reply := replyTo (endpoint s contents) in
  let s1 := afterCall (CallGetDocs (trainingPath appId c)) (fs s) s in
  let s2 := mkSys (ui s1) (fs s1) (faults s1) (endpoint s1) (calls s1 ++ [CallFetch contents]) in
  afterCall (CallAddDoc (chatPath appId c) "bot" reply)
            (appendChat (chatPath appId c) "bot" reply (fs s2)) s2.

(** Responses that are objects and miss the expected shape at a member
    that is absent, falsy or an empty list. *)
Inductive SoftMiss : value -> Prop :=
| miss_candidates fields :
    truthy (field "candidates" fields) = false ->
    SoftMiss (VObj fields)
| miss_candidates_empty fields :
    field "candidates" fields = VArr [] ->
    SoftMiss (VObj fields)
| miss_content fields first rest :
    field "candidates" fields = VArr (VObj first :: rest) ->
    truthy (field "content" first) = false ->
    SoftMiss (VObj fields)
| miss_parts fields first rest content :
    field "candidates" fields = VArr (VObj first :: rest) ->
    field "content" first = VObj content ->
    truthy (field "parts" content) = false ->
    SoftMiss (VObj fields)
| miss_parts_empty fields first rest content :
    field "candidates" fields = VArr (VObj first :: rest) ->
    field "content" first = VObj content ->
    field "parts" content = VArr [] ->
    SoftMiss (VObj fields).

(** A response of the expected shape whose first part holds no text. *)
Definition textlessResponse : value :=
  VObj [("candidates", VArr [VObj [("content", VObj [("parts", VArr [VObj []])])]])].

(** A response whose first candidate is [null]. *)
Definition nullCandidate : value := VObj [("candidates", VArr [VNull])].

(** Concrete systems for the examples. *)
Definition app0 (typedText : string) : App :=
  mkApp (Some FirestoreHandle) (Some "u1") [] typedText false.

Definition sys0 (typedText : string) (ep : list Turn -> fetched) (fl : list bool) : Sys :=
  mkSys (app0 typedText) (mkFirestore ∅ ∅ 0) fl ep [].

Definition answering (result : value) : list Turn -> fetched := fun _ => Body result.

Definition helloResponse : value :=
  VObj [("candidates",
         VArr [VObj [("content", VObj [("parts", VArr [VObj [("text", VStr "hello")]])])]])].

Definition chat0 : string := "artifacts/app/users/u1/chat_history".
Definition training0 : string := "artifacts/app/users/u1/training_data".

(** A system with a transcript of two messages and one training pair. *)
Definition oldMessages : list ChatMessage :=
  [mkChatMessage 0 "user" (VStr "old") (Some 0); mkChatMessage 1 "bot" (VStr "reply") (Some 1)].

Definition sysOld (typedText : string) (ep : list Turn -> fetched) (fl : list bool) : Sys :=
  mkSys (mkApp (Some FirestoreHandle) (Some "u1") oldMessages typedText false)
        (mkFirestore {[chat0 := oldMessages]}
                     {[training0 := {["sky" := mkTrainingPair "Sky" "blue" 2]}]} 3)
        fl ep [].

(** A question that holds double quotes of its own. *)
Definition quotedQuestion : string := "say " +:+ dq +:+ "hi" +:+ dq.

(** ** The life of the component *)

(** A call to the sign-in service. *)
Inductive signIn : Type :=
| SignInWithCustomToken (token : string)
| SignInAnonymously.

(** The component with the state the message pipeline does not read:
    the authentication handle, whether the listener of the
    authentication state is registered, readiness, the visibility of the
    information panel, and the sign-in calls made so far. *)
Inductive authHandle : Type := AuthHandle.

Record Page : Type := mkPage {
  sys : Sys;
  auth : option authHandle;
  listening : bool;
  isAuthReady : bool;
  showInfo : bool;
  signIns : list signIn
}.

(** How the first effect ends: an exception before any state is set
    ([initializeApp], [getFirestore], [getAuth]), an exception when the
    listener is registered, or no exception. *)
Inductive setup : Type :=
| SetupThrows
| ListenerThrows
| SetupDone.

(** What happens to the component once it is mounted. *)
Inductive event : Type :=
| AuthStateChanged (user : option string) (signInFails : bool)
| Snapshot (fetchedMessages : list ChatMessage)
| Change (typedText : string)
| SubmitForm
| ToggleInfo.

Definition withSys (s : Sys) (p : Page) : Page :=
  mkPage s (auth p) (listening p) (isAuthReady p) (showInfo p) (signIns p).

Definition setIsAuthReady (b : bool) (p : Page) : Page :=
  mkPage (sys p) (auth p) (listening p) b (showInfo p) (signIns p).

Definition setUserId (uid : string) (p : Page) : Page :=
  withSys (withUi (mkApp (db (ui (sys p))) (Some uid) (messages (ui (sys p)))
                         (newMessage (ui (sys p))) (isLoading (ui (sys p)))) (sys p)) p.

(** [setDb(firestore)] and [setAuth(authentication)] *)
Definition setDbAndAuth (p : Page) : Page :=
  mkPage (withUi (mkApp (Some FirestoreHandle) (userId (ui (sys p))) (messages (ui (sys p)))
                        (newMessage (ui (sys p))) (isLoading (ui (sys p)))) (sys p))
         (Some AuthHandle) (listening p) (isAuthReady p) (showInfo p) (signIns p).

(** The component as [useState] creates it, in a given environment. *)
Definition mounted (f : Firestore) (fl : list bool) (ep : list Turn -> fetched) : Page :=
  mkPage (mkSys (mkApp None None [] "" false) f fl ep []) None false false true [].

Section Life.

Variable appId : string.

(** [initialAuthToken], fixed when the module is loaded; [None] is
    [null]. *)
Variable initialAuthToken : option string.

(** The first effect. *)
Definition initialize (o : setup) (p : Page) : Page :=
  match o with
  | SetupThrows => setIsAuthReady true p
  | ListenerThrows => setIsAuthReady true (setDbAndAuth p)
  | SetupDone =>
      let p' := setDbAndAuth p in
      mkPage (sys p') (auth p') true (isAuthReady p') (showInfo p') (signIns p')
  end.

(** The sign-in the listener attempts when there is no user. *)
Definition signInCall : signIn :=
  match initialAuthToken with
  | Some token => if Js.nonEmpty token then SignInWithCustomToken token else SignInAnonymously
  | None => SignInAnonymously
  end.

(** The listener of the authentication state. *)
Definition authStateChanged (user : option string) (signInFails : bool) (p : Page) : Page :=
  match user with
  | Some uid => setIsAuthReady true (setUserId uid p)
  | None =>
      let p' := mkPage (sys p) (auth p) (listening p) (isAuthReady p) (showInfo p)
                       (signIns p ++ [signInCall]) in
      if signInFails then setIsAuthReady true p' else p'
  end.

(** The second effect subscribes only with a handle, a user id and
    readiness. *)
Definition subscribed (p : Page) : bool :=
  (hasDb (db (ui (sys p))) && hasUserId (userId (ui (sys p))) && isAuthReady p)%bool.

(** [toggleInfo] *)
Definition toggleInfo (p : Page) : Page :=
  mkPage (sys p) (auth p) (listening p) (isAuthReady p) (negb (showInfo p)) (signIns p).

(** The form is rendered once the component is ready, and its controls
    are disabled while a submission is in flight. *)
Definition formEnabled (p : Page) : bool :=
  (isAuthReady p && negb (isLoading (ui (sys p))))%bool.

(** One event.  An event that cannot occur in the state (a callback that
    is not registered, a control that is not rendered or is disabled)
    leaves it as it is. *)
Definition react (e : event) (p : Page) : Page :=
  match e with
  | AuthStateChanged user signInFails =>
      if listening p then authStateChanged user signInFails p else p
  | Snapshot fetchedMessages =>
      if subscribed p then withSys (snd (onSnapshot fetchedMessages (sys p))) p else p
  | Change t =>
      if formEnabled p then withSys (typed t (sys p)) p else p
  | SubmitForm =>
      if formEnabled p then withSys (snd (submit appId (sys p))) p else p
  | ToggleInfo =>
      if isAuthReady p then toggleInfo p else p
  end.

(** The component after the first effect and then the events, in order. *)
Definition run (o : setup) (evs : list event) (p : Page) : Page :=
  fold_left (fun q e => react e q) evs (initialize o p).

End Life.

(** What holds of every state of the component: the listener is only
    registered with a store handle; a user id is only known once the
    listener is registered, and then the component is ready; the busy flag
    is clear. *)
Definition sound (p : Page) : Prop :=
  (listening p = true -> db (ui (sys p)) = Some FirestoreHandle)
  /\ (userId (ui (sys p)) <> None ->
      isAuthReady p = true /\ listening p = true)
  /\ isLoading (ui (sys p)) = false.

(** The listener is called with a user. *)
Definition bringsUser (e : event) : bool :=
  match e with
  | AuthStateChanged (Some _) _ => true
  | _ => false
  end.

(** The listener is called with a user, or the sign-in it attempts
    fails. *)
Definition settlesAuth (e : event) : bool :=
  match e with
  | AuthStateChanged (Some _) _ => true
  | AuthStateChanged None signInFails => signInFails
  | _ => false
  end.

(** ** Notions for the further properties *)

(** The transcript [msgs] is empty or holds the documents of one of the
    snapshots among the events. *)
Definition delivered (evs : list event) (msgs : list ChatMessage) : Prop :=
  msgs = [] \/ In (Snapshot msgs) evs.

(** Every code unit of [s] is white space. *)
Fixpoint allWhiteSpace (s : string) : bool :=
  match s with
  | String c s' => (Js.isWhiteSpace c && allWhiteSpace s')%bool
  | EmptyString => true
  end.

(** [s] starts, ends, with a white-space code unit. *)
Definition startsWithSpace (s : string) : bool :=
  match s with
  | String c _ => Js.isWhiteSpace c
  | EmptyString => false
  end.

Fixpoint endsWithSpace (s : string) : bool :=
  match s with
  | EmptyString => false
  | String c EmptyString => Js.isWhiteSpace c
  | String _ s' => endsWithSpace s'
  end.

(** A call that adds a user message adds a text that is not empty and has
    no white space at either end. *)
Definition userTextTrimmed (k : call) : bool :=
  match k with
  | CallAddDoc _ sndr txt =>
      if String.eqb sndr "user" then
        match txt with
        | VStr t => (Js.nonEmpty t && negb (startsWithSpace t) && negb (endsWithSpace t))%bool
        | _ => false
        end
      else true
  | _ => true
  end.

(** The conversations are as they were. *)
Definition chatKept (s s' : Sys) : Prop :=
  forall path, chatAt path (fs s') = chatAt path (fs s).

(** The conversation at [path] gained [added], the others are as they
    were. *)
Definition addedTo (path : string) (added : list ChatMessage) (s s' : Sys) : Prop :=
  chatAt path (fs s') = chatAt path (fs s) ++ added
  /\ forall other, other <> path -> chatAt other (fs s') = chatAt other (fs s).

(** A computation that answers at most once: either it leaves the
    conversations as they were, or it returns and the conversation at
    [path] has gained one bot message. *)
Definition answersOnce {A} (path : string) (m : M A) : Prop :=
  forall s,
    chatKept s (snd (m s))
    \/ exists a msg,
         fst (m s) = Ok a /\ sender msg = "bot" /\ addedTo path [msg] s (snd (m s)).

(** The training data are as they were. *)
Definition trainingKept (s s' : Sys) : Prop :=
  training_data (fs s') = training_data (fs s).

(** The handle, the user id and the message box are as they were. *)
Definition shellKept (s s' : Sys) : Prop :=
  db (ui s') = db (ui s) /\ userId (ui s') = userId (ui s)
  /\ newMessage (ui s') = newMessage (ui s).

(** The transcript is as it was; is as it was or empty. *)
Definition viewKept (s s' : Sys) : Prop := messages (ui s') = messages (ui s).

Definition viewKeptOrEmptied (s s' : Sys) : Prop :=
  messages (ui s') = messages (ui s) \/ messages (ui s') = [].

(** The requests to the endpoint among some calls. *)
Definition isFetch (k : call) : bool :=
  match k with CallFetch _ => true | _ => false end.

Definition fetches (l : list call) : nat := List.length (List.filter isFetch l).

(** From [s] to [s'] calls were added, at most [n] of them requests to
    the endpoint. *)
Definition fetchesWithin (n : nat) (s s' : Sys) : Prop :=
  exists later, calls s' = calls s ++ later /\ fetches later <= n.

(** Every training pair lies where [doc] points for its lower-cased
    question, from the path of some collection. *)
Definition keyedByQuestion (f : Firestore) : Prop :=
  forall path key data,
    trainingAt path f !! key = Some data ->
    exists base,
      docRef base (Js.toLowerCase (question data)) = Some (mkDocumentReference path key).

Definition keepsKeyed (s s' : Sys) : Prop :=
  keyedByQuestion (fs s) -> keyedByQuestion (fs s').

(** [null] or [undefined]. *)
Definition isNullish (v : value) : bool :=
  match v with
  | VNull | VUndefined => true
  | _ => false
  end.

(** The responses on which the condition of [getBotResponse] throws: the
    response is [null] or [undefined]; or [candidates] is truthy and its
    [length] does not convert to a primitive; or that length is positive
    and the element 0 of [candidates] is [null] or [undefined]; or the
    condition gets as far as the length of [parts], which does not
    convert to a primitive. *)
Inductive ShapeThrows (result : value) : Prop :=
| throws_result :
    isNullish result = true ->
    ShapeThrows result
| throws_length cands len :
    getProp result "candidates" = Ok cands -> truthy cands = true ->
    getProp cands "length" = Ok len -> toPrimitiveThrows len = true ->
    ShapeThrows result
| throws_candidate cands len first :
    getProp result "candidates" = Ok cands -> truthy cands = true ->
    getProp cands "length" = Ok len -> toPrimitiveThrows len = false -> positive len = true ->
    getProp cands "0" = Ok first -> isNullish first = true ->
    ShapeThrows result
| throws_parts_length cands len first content prts plen :
    getProp result "candidates" = Ok cands -> truthy cands = true ->
    getProp cands "length" = Ok len -> toPrimitiveThrows len = false -> positive len = true ->
    getProp cands "0" = Ok first ->
    getProp first "content" = Ok content -> truthy content = true ->
    getProp content "parts" = Ok prts -> truthy prts = true ->
    getProp prts "length" = Ok plen -> toPrimitiveThrows plen = true ->
    ShapeThrows result.

(** A response whose list of candidates has a length that does not
    convert. *)
Definition oddLength : value :=
  VObj [("candidates", VObj [("length", VObj [("toString", VNum 0)])])].

(** The path of the first part of the first candidate. *)
Definition firstPart : list string := ["candidates"; "0"; "content"; "parts"; "0"].

(** ** The primitives on examples *)

Example split_two : Js.split teachSep (dq +:+ "A" +:+ teachSep +:+ "B" +:+ dq) = [dq +:+ "A"; "B" +:+ dq].
Proof. reflexivity. Qed.
Example split_overlap :
  Js.split teachSep ("x" +:+ dq +:+ " " +:+ dq +:+ " " +:+ dq +:+ "y") = ["x"; " " +:+ dq +:+ "y"].
Proof. reflexivity. Qed.
Example split_space :
  Js.split teachSep (dq +:+ " " +:+ teachSep +:+ "B" +:+ dq) = [""; " " +:+ dq +:+ "B" +:+ dq].
Proof. reflexivity. Qed.
Example split_end : Js.split teachSep ("a" +:+ teachSep) = ["a"; ""].
Proof. reflexivity. Qed.
Example split_empty : Js.split teachSep "" = [""].
Proof. reflexivity. Qed.
Example trim_ex : Js.trim "  a b  " = "a b".
Proof. reflexivity. Qed.
Example lower_ex : Js.toLowerCase "What IS it?" = "what is it?".
Proof. reflexivity. Qed.

Example strPositive_ex :
  map Num.strPositive ["5"; "0"; " 12 "; "-3"; "+.5e1"; "."; "1e"; "0x10"; "+0x10"; "0x";
                       "Infinity"; "+Infinity"; "1e-400"; "3e-324"; "2e-324"; "5."; "1,2"; "0.000"; "1e+2"; "12px"]
  = [true; false; true; false; true; false; false; true; false; false;
     true; true; false; true; false; true; false; false; true; false].
Proof. vm_compute. reflexivity. Qed.
Example gtZero_ex :
  map gtZero [VArr [VArr [VNum 5]]; VArr []; VArr [VNum 1; VNum 2]; VObj []; VBool true;
              VArr [VStr "7"]; VObj [("toString", VNum 0)]; VArr [VNull; VObj [("toString", VNull)]];
              VObj [("valueOf", VNum 0)]]
  = [Ok true; Ok false; Ok false; Ok false; Ok true;
     Ok true; Throw TypeError; Throw TypeError; Ok false].
Proof. vm_compute. reflexivity. Qed.
Example storable_ex :
  map storable [VStr "hello"; VUndefined; VNull; VArr [VNum 1; VObj [("a", VArr [])]];
                VArr [VArr []]; VObj [("", VNum 1)]; VObj [("__x__", VNum 1)];
                VObj [("____", VNum 1)]; VObj [("___", VNum 1)]; VObj [("a", VUndefined)]]
  = [true; false; true; true; false; false; false; false; true; false].
Proof. vm_compute. reflexivity. Qed.
Example docRef_ex :
  map (docRef "c") ["sky"; ""; "a/b"; "a/b/c"; "/a"; "a/"; "a//b"; "/"]
  = [Some (mkDocumentReference "c" "sky"); None; None;
     Some (mkDocumentReference "c/a/b" "c"); Some (mkDocumentReference "c" "a");
     Some (mkDocumentReference "c" "a"); None; None].
Proof. vm_compute. reflexivity. Qed.
Example getProp_ex :
  (getProp (VArr [VNull]) "0", getProp (VArr [VNull]) "length", getProp (VStr "ab") "1",
   getProp (VArr [VNull]) "00", getProp VNull "x", getProp (VObj [("a", VNum 1)]) "a")
  = (Ok VNull, Ok (VNum 1), Ok (VStr "b"), Ok VUndefined, Throw TypeError, Ok (VNum 1)).
Proof. vm_compute. reflexivity. Qed.

(** ** Facts about the string primitives *)

Lemma append_empty_r (s : string) : s +:+ "" = s.
Proof. induction s as [|c s IH]; cbn; [reflexivity | now f_equal]. Qed.

Lemma occurs_removeQuotes (s : string) :
  Js.occurs Js.dquote (Js.removeQuotes s) = false.
Proof.
  induction s as [|c s IH]; cbn; [reflexivity |].
  destruct (Ascii.eqb c Js.dquote) eqn:E; [exact IH |].
  cbn. rewrite IH, orb_false_r.
  rewrite Ascii.eqb_sym. exact E.
Qed.



(** No separator starts inside a run without double quotes. *)
Lemma split_go_quoteless (A rest piece : string) (pieces : list string) :
  Js.occurs Js.dquote A = false ->
  Js.split_go teachSep 0 rest = piece :: pieces ->
  Js.split_go teachSep 0 (A +:+ rest) = (A +:+ piece) :: pieces.
Proof.
  intros HA Hrest. induction A as [|c A IH]; [exact Hrest |].
  cbn in HA. apply orb_false_elim in HA as [Hc HA].
  cbn [String.append Js.split_go].
  replace (Js.startsWith teachSep (String c (A +:+ rest))) with false.
  - now rewrite (IH HA).
  - cbn. now rewrite Hc.
Qed.



(** A clear command is not a teach command. *)
Lemma clear_not_teach (t : string) :
  Js.startsWith clearPrefix t = true -> Js.startsWith teachPrefix t = false.
Proof.
  destruct t as [|a [|b t]]; cbn; try discriminate.
  - destruct (Ascii.eqb "/" a); discriminate.
  - destruct (Ascii.eqb "/" a); [| discriminate].
    destruct (Ascii.eqb "c" b) eqn:E; [| discriminate].
    apply Ascii.eqb_eq in E. subst b. reflexivity.
Qed.


(** ** Facts about document references *)

Lemma lowerChar_slash (c : ascii) : Ascii.eqb "/" (Js.lowerChar c) = Ascii.eqb "/" c.
Proof. destruct c as [[] [] [] [] [] [] [] []]; reflexivity. Qed.

Lemma occurs_toLowerCase_slash (s : string) :
  Js.occurs "/" (Js.toLowerCase s) = Js.occurs "/" s.
Proof.
  induction s as [|c s IH]; [reflexivity |].
  cbn [Js.occurs Js.toLowerCase]. now rewrite lowerChar_slash, IH.
Qed.

Lemma nonEmpty_toLowerCase (s : string) : Js.nonEmpty (Js.toLowerCase s) = Js.nonEmpty s.
Proof. now destruct s. Qed.

(** A string without a slash is one piece. *)
Lemma split_go_slashless (s : string) :
  Js.occurs "/" s = false -> Js.split_go "/" 0 s = [s].
Proof.
  induction s as [|c s IH]; [reflexivity |].
  cbn [Js.occurs]. intros H. apply orb_false_elim in H as [Hc Hs].
  cbn [Js.split_go Js.startsWith]. rewrite Hc. now rewrite (IH Hs).
Qed.

Lemma includes_slashless (s : string) :
  Js.occurs "/" s = false -> Js.includes "//" s = false.
Proof.
  induction s as [|c s IH]; [reflexivity |].
  cbn [Js.occurs]. intros H. apply orb_false_elim in H as [Hc Hs].
  cbn [Js.includes Js.startsWith]. rewrite Hc. now apply IH.
Qed.

(** An id that is not empty and holds no slash is the id of a document
    of the collection itself. *)
Lemma docRef_plain (path id : string) :
  id <> "" -> Js.occurs "/" id = false ->
  docRef path id = Some (mkDocumentReference path id).
Proof.
  intros Hne Hs. unfold docRef, segments, Js.split.
  rewrite (includes_slashless _ Hs), (split_go_slashless _ Hs).
  destruct id as [|a id]; [now contradiction Hne | reflexivity].
Qed.


(** A reference made from an id without a slash lies in the collection
    itself, under that id. *)
Lemma docRef_slashless (path id : string) (ref : DocumentReference) :
  Js.occurs "/" id = false -> docRef path id = Some ref ->
  ref = mkDocumentReference path id.
Proof.
  intros Hs H. destruct id as [|a id]; [discriminate H |].
  rewrite docRef_plain in H by (discriminate || exact Hs). now injection H as <-.
Qed.

(** ** Facts about the store *)

Lemma chatAt_appendChat (path sndr : string) (txt : value) (f : Firestore) :
  chatAt path (appendChat path sndr txt f)
  = chatAt path f ++ [mkChatMessage (clock f) sndr txt (Some (clock f))].
Proof. unfold chatAt, appendChat. cbn. now rewrite lookup_insert_eq. Qed.

Lemma chatAt_appendChat_ne (path path' sndr : string) (txt : value) (f : Firestore) :
  path <> path' ->
  chatAt path' (appendChat path sndr txt f) = chatAt path' f.
Proof. intros H. unfold chatAt, appendChat. cbn. now rewrite lookup_insert_ne. Qed.

Lemma trainingAt_appendChat (path path' sndr : string) (txt : value) (f : Firestore) :
  trainingAt path' (appendChat path sndr txt f) = trainingAt path' f.
Proof. reflexivity. Qed.


Lemma trainingAt_upsertTraining (path key qu an : string) (f : Firestore) :
  trainingAt path (upsertTraining path key qu an f)
  = <[key := mkTrainingPair qu an (clock f)]> (trainingAt path f).
Proof. unfold trainingAt at 1, upsertTraining. cbn. now rewrite lookup_insert_eq. Qed.

Lemma trainingAt_upsertTraining_ne (path path' key qu an : string) (f : Firestore) :
  path <> path' ->
  trainingAt path' (upsertTraining path key qu an f) = trainingAt path' f.
Proof. intros H. unfold trainingAt, upsertTraining. cbn. now rewrite lookup_insert_ne. Qed.

Lemma accepting_hd (fl : list bool) : accepting fl = true -> hd false fl = false.
Proof. destruct fl as [|[] fl]; cbn; [reflexivity | discriminate | reflexivity]. Qed.

Lemma accepting_tl (fl : list bool) : accepting fl = true -> accepting (tl fl) = true.
Proof. destruct fl as [|[] fl]; cbn; [reflexivity | discriminate | trivial]. Qed.

Lemma clock_appendChat (path sndr : string) (txt : value) (f : Firestore) :
  clock (appendChat path sndr txt f) = S (clock f).
Proof. reflexivity. Qed.

Lemma clock_upsertTraining (path key qu an : string) (f : Firestore) :
  clock (upsertTraining path key qu an f) = S (clock f).
Proof. reflexivity. Qed.

(** Exposes the fields of a state built by the steps of a submission, the
    store being left folded. *)
Ltac settle :=
  cbn [settled snd fst setIsLoading setMessages afterCall withUi fs ui started bind
       setNewMessage typed db userId messages newMessage isLoading faults endpoint calls];
  rewrite ?clock_appendChat, ?clock_upsertTraining.

(** ** Running the primitives *)

Lemma storeCall_accepted {A} (k : call) (accept : Firestore -> A * Firestore) (s : Sys) :
  hd false (faults s) = false ->
  storeCall k accept s = (Ok (fst (accept (fs s))), afterCall k (snd (accept (fs s))) s).
Proof. intros H. unfold storeCall. rewrite H. now destruct (accept (fs s)). Qed.

Lemma storeCall_rejected {A} (k : call) (accept : Firestore -> A * Firestore) (s : Sys) :
  hd false (faults s) = true ->
  storeCall k accept s = (Throw StoreError, afterCall k (fs s) s).
Proof. intros H. unfold storeCall. now rewrite H. Qed.

Section Running.

Variable appId : string.
Variable c : App.
Hypothesis c_db : hasDb (db c) = true.
Hypothesis c_user : hasUserId (userId c) = true.

Lemma sendBotResponse_run (txt : value) (sndr : string) (s : Sys) :
  sendBotResponse appId c txt sndr s = addDoc (chatPath appId c) sndr txt s.
Proof. unfold sendBotResponse, collection, bind, ret. now rewrite c_db, c_user. Qed.

Lemma saveTrainingData_run (qu an : string) (ref : DocumentReference) (s : Sys) :
  docRef (trainingPath appId c) (Js.toLowerCase qu) = Some ref ->
  saveTrainingData appId c qu an s = setDoc (refPath ref) (refId ref) qu an s.
Proof.
  intros H. unfold saveTrainingData, doc, bind, ret. now rewrite c_db, c_user, H.
Qed.

Lemma saveTrainingData_refused (qu an : string) (s : Sys) :
  docRef (trainingPath appId c) (Js.toLowerCase qu) = None ->
  saveTrainingData appId c qu an s = (Throw InvalidArgument, s).
Proof.
  intros H. unfold saveTrainingData, doc, bind, ret. now rewrite c_db, c_user, H.
Qed.

Lemma sendBotResponse_stored (txt : value) (sndr : string) (s : Sys) :
  storable txt = true ->
  hd false (faults s) = false ->
  sendBotResponse appId c txt sndr s
  = (Ok tt, afterCall (CallAddDoc (chatPath appId c) sndr txt)
                      (appendChat (chatPath appId c) sndr txt (fs s)) s).
Proof.
  intros Hv H. rewrite sendBotResponse_run. unfold addDoc. rewrite Hv.
  now rewrite storeCall_accepted.
Qed.

Lemma sendBotResponse_accepted (txt sndr : string) (s : Sys) :
  hd false (faults s) = false ->
  sendBotResponse appId c (VStr txt) sndr s
  = (Ok tt, afterCall (CallAddDoc (chatPath appId c) sndr (VStr txt))
                      (appendChat (chatPath appId c) sndr (VStr txt) (fs s)) s).
Proof. now apply sendBotResponse_stored. Qed.

Lemma sendBotResponse_refused (txt : value) (sndr : string) (s : Sys) :
  storable txt = false ->
  sendBotResponse appId c txt sndr s = (Throw InvalidArgument, s).
Proof. intros Hv. rewrite sendBotResponse_run. unfold addDoc. now rewrite Hv. Qed.

Lemma handleSendMessage_guarded (s : Sys) :
  Js.nonEmpty (Js.trim (newMessage c)) = true ->
  handleSendMessage appId c s
  = tryFinally
      (tryCatch (sendAndProcess appId c (Js.trim (newMessage c)))
                (fun _ => sendBotResponse appId c (VStr oopsText) "bot"))
      (setIsLoading false) (started s).
Proof.
  intros H. unfold handleSendMessage. now rewrite H, c_db, c_user.
Qed.

Lemma sendAndProcess_accepted (t : string) (s : Sys) :
  hd false (faults s) = false ->
  sendAndProcess appId c t s
  = dispatch appId c t
      (afterCall (CallAddDoc (chatPath appId c) "user" (VStr t))
                 (appendChat (chatPath appId c) "user" (VStr t) (fs s)) s).
Proof.
  intros H. unfold sendAndProcess, collection, bind, ret, addDoc.
  rewrite c_db. cbn [storable]. now rewrite storeCall_accepted.
Qed.

Lemma sendAndProcess_rejected (t : string) (s : Sys) :
  hd false (faults s) = true ->
  sendAndProcess appId c t s
  = (Throw StoreError, afterCall (CallAddDoc (chatPath appId c) "user" (VStr t)) (fs s) s).
Proof.
  intros H. unfold sendAndProcess, collection, bind, ret, addDoc.
  rewrite c_db. cbn [storable]. now rewrite storeCall_rejected.
Qed.

End Running.

(** ** Relations kept by every step *)

Section Stepwise.

Context (R : Sys -> Sys -> Prop).
Hypothesis R_refl : forall s, R s s.
Hypothesis R_trans : forall s1 s2 s3, R s1 s2 -> R s2 s3 -> R s1 s3.

Lemma stepwise_ret {A} (a : A) : stepwise R (ret a).
Proof. intros s. apply R_refl. Qed.

Lemma stepwise_liftRes {A} (r : res A) : stepwise R (liftRes r).
Proof. intros s. apply R_refl. Qed.

Lemma stepwise_bind {A B} (m : M A) (k : A -> M B) :
  stepwise R m -> (forall a, stepwise R (k a)) -> stepwise R (bind m k).
Proof.
  intros Hm Hk s. unfold bind. specialize (Hm s).
  destruct (m s) as [[a|e] s1]; cbn in Hm; [| exact Hm].
  apply (R_trans _ _ _ Hm). apply Hk.
Qed.

Lemma stepwise_tryCatch {A} (m : M A) (h : exn -> M A) :
  stepwise R m -> (forall e, stepwise R (h e)) -> stepwise R (tryCatch m h).
Proof.
  intros Hm Hh s. unfold tryCatch. specialize (Hm s).
  destruct (m s) as [[a|e] s1]; cbn in Hm; [exact Hm |].
  apply (R_trans _ _ _ Hm). apply Hh.
Qed.

Lemma stepwise_tryFinally {A} (m : M A) (f : M unit) :
  stepwise R m -> stepwise R f -> stepwise R (tryFinally m f).
Proof.
  intros Hm Hf s. unfold tryFinally. specialize (Hm s).
  destruct (m s) as [r s1]; cbn in Hm. specialize (Hf s1).
  destruct (f s1) as [[u|e] s2]; cbn in Hf |- *; apply (R_trans _ _ _ Hm Hf).
Qed.

End Stepwise.

Lemma botOnly_refl (s : Sys) : botOnly s s.
Proof.
  split.
  - exists []. split; [now rewrite app_nil_r | constructor].
  - intros path. exists []. split; [now rewrite app_nil_r | constructor].
Qed.

Lemma botOnly_trans (s1 s2 s3 : Sys) : botOnly s1 s2 -> botOnly s2 s3 -> botOnly s1 s3.
Proof.
  intros [[l1 [E1 F1]] C1] [[l2 [E2 F2]] C2]. split.
  - exists (l1 ++ l2). split.
    + rewrite E2, E1. now rewrite <- app_assoc.
    + apply Forall_app. now split.
  - intros path. destruct (C1 path) as [b1 [P1 Q1]]. destruct (C2 path) as [b2 [P2 Q2]].
    exists (b1 ++ b2). split.
    + rewrite P2, P1. now rewrite <- app_assoc.
    + apply Forall_app. now split.
Qed.

(** A change of the component's state alone. *)
Lemma botOnly_withUi (a : App) (s : Sys) : botOnly s (withUi a s).
Proof.
  split.
  - exists []. split; [cbn; now rewrite app_nil_r | constructor].
  - intros path. exists []. split; [cbn; now rewrite app_nil_r | constructor].
Qed.

Lemma botOnly_storeCall {A} (k : call) (accept : Firestore -> A * Firestore) :
  isUserAdd k = false ->
  (forall f path, exists bots,
      chatAt path (snd (accept f)) = chatAt path f ++ bots
      /\ Forall (fun m => sender m = "bot") bots) ->
  stepwise botOnly (storeCall k accept).
Proof.
  intros Hk Hacc s. unfold storeCall.
  destruct (hd false (faults s)).
  - cbn. split.
    + exists [k]. split; [reflexivity | now constructor].
    + intros path. exists []. split; [now rewrite app_nil_r | constructor].
  - specialize (Hacc (fs s)). destruct (accept (fs s)) as [a f]. cbn in *. split.
    + exists [k]. split; [reflexivity | now constructor].
    + exact Hacc.
Qed.

(** A step that is [addDoc]: either the data are refused and nothing
    happens, or the call is made. *)
Ltac addDoc_step refl :=
  unfold addDoc;
  match goal with
  | |- stepwise _ (if storable ?v then _ else _) =>
      destruct (storable v); [| apply stepwise_liftRes; exact refl]
  end.

Lemma botOnly_addDoc_bot (path : string) (txt : value) :
  stepwise botOnly (addDoc path "bot" txt).
Proof.
  addDoc_step botOnly_refl.
  apply botOnly_storeCall; [reflexivity |].
  intros f path'. cbn [snd].
  destruct (decide (path = path')) as [<-|Hne].
  - eexists. split; [apply chatAt_appendChat | now repeat constructor].
  - exists []. rewrite app_nil_r. split; [now apply chatAt_appendChat_ne | constructor].
Qed.

Lemma botOnly_setDoc (path key qu an : string) :
  stepwise botOnly (setDoc path key qu an).
Proof.
  apply botOnly_storeCall; [reflexivity |].
  intros f path'. exists []. rewrite app_nil_r. split; [reflexivity | constructor].
Qed.

Lemma botOnly_getDocs (path : string) : stepwise botOnly (getDocs path).
Proof.
  apply botOnly_storeCall; [reflexivity |].
  intros f path'. exists []. rewrite app_nil_r. split; [reflexivity | constructor].
Qed.

Lemma botOnly_fetchJson (contents : list Turn) : stepwise botOnly (fetchJson contents).
Proof.
  intros s. unfold fetchJson.
  assert (H : botOnly s (mkSys (ui s) (fs s) (faults s) (endpoint s)
                               (calls s ++ [CallFetch contents]))).
  { split.
    - exists [CallFetch contents]. split; [reflexivity | now constructor].
    - intros path. exists []. split; [cbn; now rewrite app_nil_r | constructor]. }
  now destruct (endpoint s contents).
Qed.

Lemma botOnly_setMessages (l : list ChatMessage) : stepwise botOnly (setMessages l).
Proof. intros s. apply (botOnly_withUi _ s). Qed.

Lemma botOnly_setIsLoading (b : bool) : stepwise botOnly (setIsLoading b).
Proof. intros s. apply (botOnly_withUi _ s). Qed.

Lemma botOnly_setNewMessage (t : string) : stepwise botOnly (setNewMessage t).
Proof. intros s. apply (botOnly_withUi _ s). Qed.

Create HintDb steps.
#[local] Hint Resolve botOnly_addDoc_bot botOnly_setDoc botOnly_getDocs botOnly_fetchJson
  botOnly_setMessages botOnly_setIsLoading botOnly_setNewMessage : steps.

(** Breaks a computation into its steps, for a relation that is reflexive
    by [refl] and transitive by [trans]; the steps themselves are closed
    with the hints of [steps]. *)
Ltac stepwise_tac refl trans :=
  repeat first
    [ exact refl
    | exact trans
    | solve [auto with steps]
    | apply stepwise_ret
    | apply stepwise_liftRes
    | apply stepwise_bind
    | apply stepwise_tryCatch
    | apply stepwise_tryFinally
    | match goal with
      | |- forall _, stepwise _ _ => intros ?
      | |- stepwise _ (if ?b then _ else _) => destruct b
      | |- stepwise _ (match ?l with _ => _ end) => destruct l
      end ].

Section BotOnly.

Variable appId : string.
Variable c : App.

Lemma botOnly_sendBotResponse (txt : value) :
  stepwise botOnly (sendBotResponse appId c txt "bot").
Proof. unfold sendBotResponse, collection. stepwise_tac botOnly_refl botOnly_trans. Qed.

Lemma botOnly_saveTrainingData (qu an : string) :
  stepwise botOnly (saveTrainingData appId c qu an).
Proof. unfold saveTrainingData, doc. stepwise_tac botOnly_refl botOnly_trans. Qed.

Lemma botOnly_getBotResponse (userMessage : string) :
  stepwise botOnly (getBotResponse appId c userMessage).
Proof.
  pose proof botOnly_sendBotResponse.
  unfold getBotResponse, collection. stepwise_tac botOnly_refl botOnly_trans.
Qed.

Lemma botOnly_dispatch (userMessage : string) :
  stepwise botOnly (dispatch appId c userMessage).
Proof.
  pose proof botOnly_sendBotResponse. pose proof botOnly_saveTrainingData.
  pose proof botOnly_getBotResponse.
  unfold dispatch. stepwise_tac botOnly_refl botOnly_trans.
Qed.

End BotOnly.

(** ** The training data, whatever the store and the endpoint do *)

Lemma trainingKept_refl (s : Sys) : trainingKept s s.
Proof. reflexivity. Qed.

Lemma trainingKept_trans (s1 s2 s3 : Sys) :
  trainingKept s1 s2 -> trainingKept s2 s3 -> trainingKept s1 s3.
Proof. unfold trainingKept. congruence. Qed.

Lemma trainingKept_addDoc (path sndr : string) (txt : value) :
  stepwise trainingKept (addDoc path sndr txt).
Proof.
  addDoc_step trainingKept_refl.
  intros s. unfold storeCall. now destruct (hd false (faults s)).
Qed.

Lemma trainingKept_getDocs (path : string) : stepwise trainingKept (getDocs path).
Proof. intros s. unfold getDocs, storeCall. now destruct (hd false (faults s)). Qed.

Lemma trainingKept_fetchJson (contents : list Turn) : stepwise trainingKept (fetchJson contents).
Proof. intros s. unfold fetchJson. now destruct (endpoint s contents). Qed.

Lemma trainingKept_setMessages (l : list ChatMessage) : stepwise trainingKept (setMessages l).
Proof. intros s. reflexivity. Qed.

Lemma trainingKept_setIsLoading (b : bool) : stepwise trainingKept (setIsLoading b).
Proof. intros s. reflexivity. Qed.

Lemma trainingKept_setNewMessage (t : string) : stepwise trainingKept (setNewMessage t).
Proof. intros s. reflexivity. Qed.

#[local] Hint Resolve trainingKept_addDoc trainingKept_getDocs trainingKept_fetchJson
  trainingKept_setMessages trainingKept_setIsLoading trainingKept_setNewMessage : steps.

Section TrainingKept.

Variable appId : string.
Variable c : App.

Lemma trainingKept_getBotResponse (userMessage : string) :
  stepwise trainingKept (getBotResponse appId c userMessage).
Proof.
  unfold getBotResponse, sendBotResponse, collection.
  stepwise_tac trainingKept_refl trainingKept_trans.
Qed.

(** Only a teach command that splits in two writes training data. *)
Lemma trainingKept_dispatch (t : string) :
  Js.startsWith teachPrefix t = false
  \/ List.length (Js.split teachSep (Js.substring (String.length teachPrefix) t)) <> 2 ->
  stepwise trainingKept (dispatch appId c t).
Proof.
  intros H. pose proof trainingKept_getBotResponse. unfold dispatch.
  destruct (Js.startsWith teachPrefix t).
  - destruct H as [H | H]; [discriminate H |].
    destruct (Js.split teachSep _) as [|p0 [|p1 [|p2 ps]]];
      try (now contradiction H);
      unfold sendBotResponse, collection;
      stepwise_tac trainingKept_refl trainingKept_trans.
  - unfold sendBotResponse, collection.
    stepwise_tac trainingKept_refl trainingKept_trans.
Qed.

(** So does the whole handler. *)
Lemma trainingKept_handleSendMessage :
  Js.startsWith teachPrefix (Js.trim (newMessage c)) = false
  \/ List.length (Js.split teachSep (Js.substring (String.length teachPrefix)
                                                  (Js.trim (newMessage c)))) <> 2 ->
  stepwise trainingKept (handleSendMessage appId c).
Proof.
  intros H. pose proof (trainingKept_dispatch _ H) as Hd.
  unfold handleSendMessage, sendAndProcess, sendBotResponse, collection.
  stepwise_tac trainingKept_refl trainingKept_trans.
Qed.

End TrainingKept.

(** ** The user message is added first *)

Section Submit.

Variable appId : string.

(** Whatever the store and the endpoint do, what follows the addition of
    the user message is made of bot messages. *)
Lemma submit_after_user_add (s : Sys) :
  Js.nonEmpty (Js.trim (newMessage (ui s))) = true ->
  hasDb (db (ui s)) = true ->
  hasUserId (userId (ui s)) = true ->
  botOnly
    (afterCall (CallAddDoc (chatPath appId (ui s)) "user" (VStr (Js.trim (newMessage (ui s)))))
               (if hd false (faults s) then fs s
                else appendChat (chatPath appId (ui s)) "user"
                                (VStr (Js.trim (newMessage (ui s)))) (fs s))
               (started s))
    (snd (submit appId s)).
Proof.
  intros Ht Hdb Hu. unfold submit.
  rewrite (handleSendMessage_guarded appId (ui s) Hdb Hu s Ht).
  assert (Hfin : stepwise botOnly (setIsLoading false)) by auto with steps.
  unfold tryFinally, tryCatch.
  destruct (hd false (faults s)) eqn:E.
  - rewrite (sendAndProcess_rejected appId (ui s) Hdb _ (started s)) by exact E.
    match goal with |- context [sendBotResponse ?a ?b ?c ?d ?st] =>
      pose proof (botOnly_sendBotResponse a b c st) as Hh;
      destruct (sendBotResponse a b c d st) as [r s1] end.
    cbn in Hh. specialize (Hfin s1).
    destruct (setIsLoading false s1) as [[u|e] s2]; cbn in Hfin |- *;
      exact (botOnly_trans _ _ _ Hh Hfin).
  - rewrite (sendAndProcess_accepted appId (ui s) Hdb _ (started s)) by exact E.
    match goal with |- context [dispatch ?a ?b ?c ?st] =>
      pose proof (botOnly_dispatch a b c st) as Hd;
      destruct (dispatch a b c st) as [[u|e] s1] end; cbn in Hd.
    + specialize (Hfin s1).
      destruct (setIsLoading false s1) as [[u'|e] s2]; cbn in Hfin |- *;
        exact (botOnly_trans _ _ _ Hd Hfin).
    + match goal with |- context [sendBotResponse ?a ?b ?c ?d ?st] =>
        pose proof (botOnly_sendBotResponse a b c st) as Hh;
        destruct (sendBotResponse a b c d st) as [r s2] end.
      cbn in Hh. specialize (Hfin s2).
      destruct (setIsLoading false s2) as [[u|e'] s3]; cbn in Hfin |- *;
        exact (botOnly_trans _ _ _ Hd (botOnly_trans _ _ _ Hh Hfin)).
Qed.

(** C1. When the trimmed input is not empty and the store handle and the
    identity are there, the first call [submit] makes adds the message
    of sender [user] whose text is the trimmed input, before any branch
    of the classification runs, and no other call adds a user message;
    when the store accepts that call, the conversation gains exactly that
    user message, and after it bot messages only.  When the trimmed input
    is empty or the handle or the identity is missing, [submit] changes
    nothing. *)
Theorem submit_appends_user_message_first (s : Sys) :
  let c := ui s in
  let t := Js.trim (newMessage c) in
  let path := chatPath appId c in
  (Js.nonEmpty t = true -> hasDb (db c) = true -> hasUserId (userId c) = true ->
   let s' := snd (submit appId s) in
   (exists later,
       calls s' = calls s ++ CallAddDoc path "user" (VStr t) :: later
       /\ Forall (fun k => isUserAdd k = false) later)
   /\ (hd false (faults s) = false ->
       exists bots,
         chatAt path (fs s')
         = chatAt path (fs s) ++ mkChatMessage (clock (fs s)) "user" (VStr t) (Some (clock (fs s))) :: bots
         /\ Forall (fun m => sender m = "bot") bots))
  /\ (Js.nonEmpty t = false \/ hasDb (db c) = false \/ hasUserId (userId c) = false ->
      submit appId s = (Ok tt, s)).
Proof.
  cbn zeta. split.
  - intros Ht Hdb Hu.
    destruct (submit_after_user_add s Ht Hdb Hu) as [[later [Hcalls Hlater]] Hchat].
    split.
    + exists later. split; [| exact Hlater].
      rewrite Hcalls. cbn. now rewrite <- app_assoc.
    + intros Hacc. destruct (Hchat (chatPath appId (ui s))) as [bots [Hb Hbots]].
      exists bots. split; [| exact Hbots].
      rewrite Hb, Hacc. cbn [afterCall fs]. rewrite chatAt_appendChat.
      now rewrite <- app_assoc.
  - intros H. unfold submit, handleSendMessage.
    destruct H as [H | [H | H]]; rewrite H; cbn; rewrite ?orb_true_r; reflexivity.
Qed.

End Submit.

(** ** The commands, when the store accepts every call *)

Section Commands.

Variable appId : string.
Variable s : Sys.
Hypothesis s_text : Js.nonEmpty (Js.trim (newMessage (ui s))) = true.
Hypothesis s_db : hasDb (db (ui s)) = true.
Hypothesis s_user : hasUserId (userId (ui s)) = true.
Hypothesis s_store : accepting (faults s) = true.

Local Abbreviation c := (ui s).
Local Abbreviation t := (Js.trim (newMessage (ui s))).

Lemma accepting_1 : hd false (faults s) = false.
Proof. now apply accepting_hd. Qed.

Lemma accepting_2 : hd false (tl (faults s)) = false.
Proof. now apply accepting_hd, accepting_tl. Qed.

Lemma accepting_3 : hd false (tl (tl (faults s))) = false.
Proof. now apply accepting_hd, accepting_tl, accepting_tl. Qed.

(** A teach command that splits in two, the lower-cased question naming
    a document. *)
Lemma submit_teach_accepted (part0 part1 : string) (ref : DocumentReference) :
  Js.startsWith teachPrefix t = true ->
  Js.split teachSep (Js.substring (String.length teachPrefix) t) = [part0; part1] ->
  docRef (trainingPath appId c) (Js.toLowerCase (Js.removeQuotes part0)) = Some ref ->
  submit appId s
  = (Ok tt,
     settled appId t
       (Some (CallSetDoc (refPath ref) (refId ref)
                         (Js.removeQuotes part0) (Js.removeQuotes part1),
              upsertTraining (refPath ref) (refId ref)
                             (Js.removeQuotes part0) (Js.removeQuotes part1)))
       (VStr ackText) s).
Proof.
  intros Hp Hs Href. unfold submit.
  rewrite (handleSendMessage_guarded appId c s_db s_user s s_text).
  unfold tryFinally, tryCatch.
  rewrite (sendAndProcess_accepted appId c s_db _ (started s)) by exact accepting_1.
  unfold dispatch. rewrite Hp, Hs. unfold bind.
  rewrite (saveTrainingData_run appId c s_db s_user _ _ ref) by exact Href. unfold setDoc.
  rewrite storeCall_accepted by exact accepting_2.
  rewrite (sendBotResponse_accepted appId c s_db s_user) by exact accepting_3.
  reflexivity.
Qed.

(** A teach command that splits in two, the lower-cased question naming
    no document: nothing is written, and the failure is reported. *)
Lemma submit_teach_unreferenced (part0 part1 : string) :
  Js.startsWith teachPrefix t = true ->
  Js.split teachSep (Js.substring (String.length teachPrefix) t) = [part0; part1] ->
  docRef (trainingPath appId c) (Js.toLowerCase (Js.removeQuotes part0)) = None ->
  submit appId s = (Ok tt, settled appId t None (VStr oopsText) s).
Proof.
  intros Hp Hs Href. unfold submit.
  rewrite (handleSendMessage_guarded appId c s_db s_user s s_text).
  unfold tryFinally, tryCatch.
  rewrite (sendAndProcess_accepted appId c s_db _ (started s)) by exact accepting_1.
  unfold dispatch. rewrite Hp, Hs. unfold bind.
  rewrite (saveTrainingData_refused appId c s_db s_user) by exact Href.
  rewrite (sendBotResponse_accepted appId c s_db s_user) by exact accepting_2.
  reflexivity.
Qed.

(** A teach command that does not split in two. *)
Lemma submit_teach_refused :
  Js.startsWith teachPrefix t = true ->
  List.length (Js.split teachSep (Js.substring (String.length teachPrefix) t)) <> 2 ->
  submit appId s = (Ok tt, settled appId t None (VStr usageText) s).
Proof.
  intros Hp Hs. unfold submit.
  rewrite (handleSendMessage_guarded appId c s_db s_user s s_text).
  unfold tryFinally, tryCatch.
  rewrite (sendAndProcess_accepted appId c s_db _ (started s)) by exact accepting_1.
  unfold dispatch. rewrite Hp.
  destruct (Js.split teachSep (Js.substring (String.length teachPrefix) t))
    as [|p0 [|p1 [|p2 ps]]]; cbn in Hs; try (now contradiction Hs);
    rewrite (sendBotResponse_accepted appId c s_db s_user) by exact accepting_2;
    reflexivity.
Qed.

(** A clear command. *)
Lemma submit_clear_accepted :
  Js.startsWith clearPrefix t = true ->
  submit appId s
  = (Ok tt,
     withUi (mkApp (db c) (userId c) [] "" false)
            (settled appId t None (VStr clearedText) s)).
Proof.
  intros Hp. unfold submit.
  rewrite (handleSendMessage_guarded appId c s_db s_user s s_text).
  unfold tryFinally, tryCatch.
  rewrite (sendAndProcess_accepted appId c s_db _ (started s)) by exact accepting_1.
  unfold dispatch. rewrite (clear_not_teach t Hp), Hp. unfold bind.
  cbn [setMessages].
  rewrite (sendBotResponse_accepted appId c s_db s_user) by exact accepting_2.
  reflexivity.
Qed.

End Commands.

(** ** Teaching *)

Section Teach.

Variable appId : string.



End Teach.

Section TeachRefused.

Variable appId : string.

(** C3, amended. When the trimmed input starts with the teach prefix and
    what follows does not split at the separator into exactly two pieces,
    [submit] writes no training pair, whatever the store does; and with
    the store handle and the identity at hand and a store that accepts
    the calls, it answers with the bot message that holds the usage
    guidance, right after the user message, the two calls made being the
    two additions to the conversation. *)
Theorem malformed_teach_gets_usage (s : Sys) :
  let c := ui s in
  let t := Js.trim (newMessage c) in
  let cp := chatPath appId c in
  let now := clock (fs s) in
  Js.startsWith teachPrefix t = true ->
  List.length (Js.split teachSep (Js.substring (String.length teachPrefix) t)) <> 2 ->
  let s' := snd (submit appId s) in
  training_data (fs s') = training_data (fs s)
  /\ (hasDb (db c) = true -> hasUserId (userId c) = true -> accepting (faults s) = true ->
      fst (submit appId s) = Ok tt
      /\ chatAt cp (fs s')
         = chatAt cp (fs s)
           ++ [mkChatMessage now "user" (VStr t) (Some now);
               mkChatMessage (S now) "bot" (VStr usageText) (Some (S now))]
      /\ calls s'
         = calls s ++ [CallAddDoc cp "user" (VStr t); CallAddDoc cp "bot" (VStr usageText)])
  /\ Js.includes usageGuidance usageText = true.
Proof.
  cbn zeta. intros Hp Hs. split; [| split; [| reflexivity]].
  - apply (trainingKept_handleSendMessage appId (ui s) (or_intror Hs) s).
  - intros Hdb Hu Hst.
    assert (Ht : Js.nonEmpty (Js.trim (newMessage (ui s))) = true)
      by (destruct (Js.trim (newMessage (ui s))); [discriminate Hp | reflexivity]).
    rewrite (submit_teach_refused appId s Ht Hdb Hu Hst Hp Hs).
    settle. repeat split.
    + rewrite !chatAt_appendChat. settle. now rewrite <- app_assoc.
    + now rewrite <- app_assoc.
Qed.

End TeachRefused.

(** C3, as stated, fails: what follows the prefix in [unquotedTeach] is
    not made of two double-quoted segments, yet the command is accepted:
    a training pair is written and the bot acknowledges. *)
Lemma unquoted_teach_is_accepted :
  let s := sys0 unquotedTeach (answering helloResponse) [] in
  let s' := snd (submit "app" s) in
  Js.startsWith teachPrefix (Js.trim (newMessage (ui s))) = true
  /\ ~ TwoQuoted (Js.substring (String.length teachPrefix) (Js.trim (newMessage (ui s))))
  /\ trainingAt training0 (fs s') !! "a" = Some (mkTrainingPair "a" "b" 1)
  /\ chatAt chat0 (fs s')
     = [mkChatMessage 0 "user" (VStr unquotedTeach) (Some 0);
        mkChatMessage 2 "bot" (VStr ackText) (Some 2)].
Proof.
  cbn zeta. split; [reflexivity |]. split; [| split].
  - intros [A [B H]]. vm_compute in H. discriminate H.
  - vm_compute. reflexivity.
  - vm_compute. reflexivity.
Qed.

Section Clear.

Variable appId : string.

(** C6, amended. When the trimmed input starts with the clear prefix,
    [submit], with the store handle and the identity at hand and the store
    accepting the calls, empties the transcript of the component, deletes
    nothing from the store, and adds exactly one bot message, the
    confirmation, after the user message. *)
Theorem clear_empties_view_only (s : Sys) :
  let c := ui s in
  let t := Js.trim (newMessage c) in
  let cp := chatPath appId c in
  let now := clock (fs s) in
  Js.nonEmpty t = true -> hasDb (db c) = true -> hasUserId (userId c) = true ->
  accepting (faults s) = true ->
  Js.startsWith clearPrefix t = true ->
  let s' := snd (submit appId s) in
  fst (submit appId s) = Ok tt
  /\ messages (ui s') = []
  /\ chatAt cp (fs s')
     = chatAt cp (fs s)
       ++ [mkChatMessage now "user" (VStr t) (Some now);
           mkChatMessage (S now) "bot" (VStr clearedText) (Some (S now))]
  /\ (forall path, path <> cp -> chatAt path (fs s') = chatAt path (fs s))
  /\ training_data (fs s') = training_data (fs s).
Proof.
  cbn zeta. intros Ht Hdb Hu Hst Hp.
  rewrite (submit_clear_accepted appId s Ht Hdb Hu Hst Hp).
  settle. repeat split.
  - rewrite !chatAt_appendChat. settle. now rewrite <- app_assoc.
  - intros path Hne. rewrite !chatAt_appendChat_ne by congruence. reflexivity.
Qed.

(** The store having kept everything, the transcript is whole again as
    soon as the snapshot listener is called with the stored
    conversation. *)
Lemma snapshot_refills_view (s : Sys) :
  messages (ui (snd (onSnapshot (settledSnapshot appId s) s)))
  = chatAt (chatPath appId (ui s)) (fs s).
Proof. reflexivity. Qed.

End Clear.

(** C6, as stated, fails: when the store rejects the user message, the
    transcript is not emptied and no confirmation is added; the bot
    message written is the generic error text. *)
Lemma clear_rejected_keeps_view :
  let s := sysOld "/clear" (answering helloResponse) [true] in
  let s' := snd (submit "app" s) in
  Js.startsWith clearPrefix (Js.trim (newMessage (ui s))) = true
  /\ messages (ui s') = oldMessages
  /\ oldMessages <> []
  /\ chatAt chat0 (fs s') = oldMessages ++ [mkChatMessage 3 "bot" (VStr oopsText) (Some 3)]
  /\ oopsText <> clearedText.
Proof. cbn zeta. repeat split; try discriminate; vm_compute; reflexivity. Qed.

(** ** No double quote in a training pair *)

Lemma keepsQuoteFree_refl (s : Sys) : keepsQuoteFree s s.
Proof. intros H. exact H. Qed.

Lemma keepsQuoteFree_trans (s1 s2 s3 : Sys) :
  keepsQuoteFree s1 s2 -> keepsQuoteFree s2 s3 -> keepsQuoteFree s1 s3.
Proof. unfold keepsQuoteFree. auto. Qed.

Lemma keepsQuoteFree_storeCall {A} (k : call) (accept : Firestore -> A * Firestore) :
  (forall f, quoteFree f -> quoteFree (snd (accept f))) ->
  stepwise keepsQuoteFree (storeCall k accept).
Proof.
  intros Hacc s Hq. unfold storeCall.
  destruct (hd false (faults s)); [exact Hq |].
  specialize (Hacc (fs s) Hq). now destruct (accept (fs s)).
Qed.

Lemma quoteFree_upsertTraining (path key qu an : string) (f : Firestore) :
  Js.occurs Js.dquote qu = false ->
  Js.occurs Js.dquote an = false ->
  quoteFree f ->
  quoteFree (upsertTraining path key qu an f).
Proof.
  intros Hqu Han Hf path' key' data.
  destruct (decide (path = path')) as [<-|Hne].
  - rewrite trainingAt_upsertTraining.
    destruct (decide (key = key')) as [<-|Hk].
    + rewrite lookup_insert_eq. intros [= <-]. now split.
    + rewrite lookup_insert_ne by exact Hk. apply Hf.
  - rewrite trainingAt_upsertTraining_ne by exact Hne. apply Hf.
Qed.

Lemma keepsQuoteFree_addDoc (path sndr : string) (txt : value) :
  stepwise keepsQuoteFree (addDoc path sndr txt).
Proof.
  addDoc_step keepsQuoteFree_refl.
  apply keepsQuoteFree_storeCall. intros f Hf. exact Hf.
Qed.

Lemma keepsQuoteFree_getDocs (path : string) : stepwise keepsQuoteFree (getDocs path).
Proof. apply keepsQuoteFree_storeCall. intros f Hf. exact Hf. Qed.

Lemma keepsQuoteFree_setDoc (path key part0 part1 : string) :
  stepwise keepsQuoteFree
    (setDoc path key (Js.removeQuotes part0) (Js.removeQuotes part1)).
Proof.
  apply keepsQuoteFree_storeCall. intros f Hf.
  apply quoteFree_upsertTraining; [apply occurs_removeQuotes .. | exact Hf].
Qed.

Lemma keepsQuoteFree_fetchJson (contents : list Turn) :
  stepwise keepsQuoteFree (fetchJson contents).
Proof. intros s Hq. unfold fetchJson. now destruct (endpoint s contents). Qed.

Lemma keepsQuoteFree_setMessages (l : list ChatMessage) :
  stepwise keepsQuoteFree (setMessages l).
Proof. intros s Hq. exact Hq. Qed.

Lemma keepsQuoteFree_setIsLoading (b : bool) : stepwise keepsQuoteFree (setIsLoading b).
Proof. intros s Hq. exact Hq. Qed.

Lemma keepsQuoteFree_setNewMessage (t : string) : stepwise keepsQuoteFree (setNewMessage t).
Proof. intros s Hq. exact Hq. Qed.

#[local] Hint Resolve keepsQuoteFree_addDoc keepsQuoteFree_getDocs keepsQuoteFree_setDoc
  keepsQuoteFree_fetchJson keepsQuoteFree_setMessages keepsQuoteFree_setIsLoading
  keepsQuoteFree_setNewMessage : steps.

Section QuoteFree.

Variable appId : string.

Lemma keepsQuoteFree_handleSendMessage (c : App) :
  stepwise keepsQuoteFree (handleSendMessage appId c).
Proof.
  unfold handleSendMessage, sendAndProcess, dispatch, getBotResponse, sendBotResponse,
    saveTrainingData, collection, doc.
  stepwise_tac keepsQuoteFree_refl keepsQuoteFree_trans.
Qed.

Lemma writesOnly_refl (qu an : string) (s : Sys) : writesOnly qu an s s.
Proof. intros path key data H. now left. Qed.

Lemma writesOnly_trans (qu an : string) (s1 s2 s3 : Sys) :
  writesOnly qu an s1 s2 -> writesOnly qu an s2 s3 -> writesOnly qu an s1 s3.
Proof.
  intros H1 H2 path key data H. destruct (H2 _ _ _ H) as [H' | H']; [| now right].
  now apply H1.
Qed.

Lemma writesOnly_addDoc (qu an path sndr : string) (txt : value) :
  stepwise (writesOnly qu an) (addDoc path sndr txt).
Proof.
  addDoc_step (writesOnly_refl qu an).
  intros s p key data. unfold storeCall. destruct (hd false (faults s)); cbn; now left.
Qed.

Lemma writesOnly_setDoc (qu an path key : string) :
  stepwise (writesOnly qu an) (setDoc path key qu an).
Proof.
  intros s p k data. unfold setDoc, storeCall.
  destruct (hd false (faults s)); cbn [snd fs]; [now left |].
  destruct (decide (path = p)) as [<-|Hne].
  - rewrite trainingAt_upsertTraining.
    destruct (decide (key = k)) as [<-|Hk].
    + rewrite lookup_insert_eq. intros [= <-]. now right.
    + rewrite lookup_insert_ne by exact Hk. now left.
  - rewrite trainingAt_upsertTraining_ne by exact Hne. now left.
Qed.

Lemma writesOnly_withUi (qu an : string) (a : App) (s : Sys) : writesOnly qu an s (withUi a s).
Proof. intros path key data H. now left. Qed.

(** What a submission that takes an accepted teach command writes. *)
Lemma writesOnly_teach (c : App) (part0 part1 : string) :
  Js.startsWith teachPrefix (Js.trim (newMessage c)) = true ->
  Js.split teachSep (Js.substring (String.length teachPrefix) (Js.trim (newMessage c)))
  = [part0; part1] ->
  stepwise (writesOnly (Js.removeQuotes part0) (Js.removeQuotes part1))
           (handleSendMessage appId c).
Proof.
  intros Hp Hs.
  pose proof (writesOnly_refl (Js.removeQuotes part0) (Js.removeQuotes part1)) as Hrefl.
  pose proof (writesOnly_trans (Js.removeQuotes part0) (Js.removeQuotes part1)) as Htrans.
  pose proof (writesOnly_addDoc (Js.removeQuotes part0) (Js.removeQuotes part1)) as Hadd.
  pose proof (writesOnly_setDoc (Js.removeQuotes part0) (Js.removeQuotes part1)) as Hset.
  assert (Hui : forall b, stepwise (writesOnly (Js.removeQuotes part0) (Js.removeQuotes part1))
                            (setIsLoading b))
    by (intros b s; apply (writesOnly_withUi _ _ _ s)).
  assert (Hbox : forall b, stepwise (writesOnly (Js.removeQuotes part0) (Js.removeQuotes part1))
                             (setNewMessage b))
    by (intros b s; apply (writesOnly_withUi _ _ _ s)).
  unfold handleSendMessage, sendAndProcess, dispatch. rewrite Hp, Hs.
  unfold sendBotResponse, saveTrainingData, collection, doc.
  stepwise_tac Hrefl Htrans.
Qed.

(** C9. Whatever is submitted and whatever the store and the endpoint do,
    a store whose training pairs hold no double quote stays so.  When a
    teach command is accepted by the parser, every training pair the
    submission writes holds the two pieces with every double quote
    removed, not only the enclosing ones; and when the lower-cased
    question names a document and the store accepts the calls, that pair
    is the one the reference then holds. *)
Theorem taught_pair_holds_no_double_quote (s : Sys) :
  let c := ui s in
  let t := Js.trim (newMessage c) in
  let s' := snd (submit appId s) in
  (quoteFree (fs s) -> quoteFree (fs s'))
  /\ forall part0 part1,
       Js.startsWith teachPrefix t = true ->
       Js.split teachSep (Js.substring (String.length teachPrefix) t) = [part0; part1] ->
       (forall path key data,
           trainingAt path (fs s') !! key = Some data ->
           trainingAt path (fs s) !! key = Some data
           \/ (question data = Js.removeQuotes part0
               /\ answer data = Js.removeQuotes part1
               /\ Js.occurs Js.dquote (question data) = false
               /\ Js.occurs Js.dquote (answer data) = false))
       /\ forall ref,
            hasDb (db c) = true -> hasUserId (userId c) = true ->
            accepting (faults s) = true ->
            docRef (trainingPath appId c) (Js.toLowerCase (Js.removeQuotes part0)) = Some ref ->
            exists data,
              trainingAt (refPath ref) (fs s') !! refId ref = Some data
              /\ question data = Js.removeQuotes part0
              /\ answer data = Js.removeQuotes part1.
Proof.
  cbn zeta. split.
  - apply (keepsQuoteFree_handleSendMessage (ui s) s).
  - intros part0 part1 Hp Hs. split.
    + intros path key data H.
      destruct (writesOnly_teach (ui s) part0 part1 Hp Hs s path key data H) as [H' | [Hq Ha]];
        [now left | right].
      rewrite Hq, Ha. repeat split; apply occurs_removeQuotes.
    + intros ref Hdb Hu Hst Href.
      assert (Ht : Js.nonEmpty (Js.trim (newMessage (ui s))) = true)
        by (destruct (Js.trim (newMessage (ui s))); [discriminate Hp | reflexivity]).
      rewrite (submit_teach_accepted appId s Ht Hdb Hu Hst part0 part1 ref Hp Hs Href).
      settle. rewrite trainingAt_appendChat, trainingAt_upsertTraining.
      rewrite lookup_insert_eq. eexists. split; [reflexivity |]. now split.
Qed.

End QuoteFree.

(** ** The inference turn *)

Section Inference.

Variable appId : string.
Variable c : App.
Hypothesis c_db : hasDb (db c) = true.
Hypothesis c_user : hasUserId (userId c) = true.

(** With a store that accepts the calls, [getBotResponse] returns, having
    read the training pairs, sent the turns and added one bot message. *)
Lemma getBotResponse_accepted (userMessage : string) (s : Sys) :
  accepting (faults s) = true ->
  getBotResponse appId c userMessage s = (Ok tt, inferred appId c userMessage s).
Proof.
  intros Hst.
  pose proof (accepting_hd _ Hst) as H1.
  pose proof (accepting_hd _ (accepting_tl _ Hst)) as H2.
  unfold getBotResponse, tryCatch, bind, collection, getDocs. rewrite c_db.
  cbn [ret]. rewrite storeCall_accepted by exact H1. cbn [fst snd].
  unfold fetchJson, inferred, replyTo, contentsSent, docsRead.
  cbn [afterCall ui fs faults endpoint calls].
  destruct (endpoint s _) as [| |result]; unfold liftRes.
  - now rewrite (sendBotResponse_accepted appId c c_db c_user) by exact H2.
  - now rewrite (sendBotResponse_accepted appId c c_db c_user) by exact H2.
  - destruct (hasCandidateText result) as [[|]|e].
    + unfold candidateText. destruct (getPath result _) as [botText|e];
        [destruct (storable botText) eqn:Hv |].
      * now rewrite (sendBotResponse_stored appId c c_db c_user) by assumption.
      * rewrite (sendBotResponse_refused appId c c_db c_user) by exact Hv.
        now rewrite (sendBotResponse_accepted appId c c_db c_user) by exact H2.
      * now rewrite (sendBotResponse_accepted appId c c_db c_user) by exact H2.
    + now rewrite (sendBotResponse_accepted appId c c_db c_user) by exact H2.
    + now rewrite (sendBotResponse_accepted appId c c_db c_user) by exact H2.
Qed.

End Inference.

(** Reading members of well-shaped responses. *)
Lemma getProp_length (items : list value) :
  getProp (VArr items) "length" = Ok (VNum (Z.of_nat (List.length items))).
Proof. reflexivity. Qed.

Lemma getProp_object (fields : list (string * value)) (k : string) :
  getProp (VObj fields) k = Ok (field k fields).
Proof. reflexivity. Qed.

Lemma getProp_first (x : value) (items : list value) :
  getProp (VArr (x :: items)) "0" = Ok x.
Proof. reflexivity. Qed.

Lemma gtZero_length_cons (x : value) (items : list value) :
  gtZero (VNum (Z.of_nat (List.length (x :: items)))) = Ok true.
Proof.
  unfold gtZero. cbn [toPrimitiveThrows positive List.length].
  now rewrite (proj2 (Z.ltb_lt 0 (Z.of_nat (S (List.length items))))) by lia.
Qed.

(** A value with a member that is not [undefined] is an object. *)
Lemma getProp_member_object (v : value) (k : string) (w : value) :
  k <> "length" -> Num.arrayIndex k = None ->
  getProp v k = Ok w -> w <> VUndefined ->
  exists fields, v = VObj fields /\ field k fields = w.
Proof.
  intros Hk Hi H Hw. destruct v; cbn in H; try discriminate; try (now injection H as <-).
  - apply String.eqb_neq in Hk. rewrite Hk, Hi in H. now injection H as <-.
  - apply String.eqb_neq in Hk. rewrite Hk, Hi in H. now injection H as <-.
  - injection H as <-. eauto.
Qed.

(** The condition holds and the text is read for a response of the
    expected shape. *)
Lemma replyTo_candidate_text (result first content part : value)
    (candidates partsRest : list value) (txt : string) :
  getProp result "candidates" = Ok (VArr (first :: candidates)) ->
  getProp first "content" = Ok content ->
  getProp content "parts" = Ok (VArr (part :: partsRest)) ->
  getProp part "text" = Ok (VStr txt) ->
  replyTo (Body result) = VStr txt.
Proof.
  intros Hc Hcontent Hparts Htext.
  assert (Htruthy : truthy content = true).
  { destruct (getProp_member_object content "parts" _ ltac:(discriminate) eq_refl Hparts
                ltac:(discriminate)) as [fields [-> _]]. reflexivity. }
  unfold replyTo, hasCandidateText, operand, candidateText, isTruthy.
  cbn [getPath]. rewrite Hc. cbn [getPath truthy andAlso].
  rewrite getProp_length, gtZero_length_cons. cbn [andAlso].
  rewrite getProp_first, Hcontent. cbn [getPath]. rewrite Htruthy. cbn [andAlso].
  rewrite Hparts. cbn [getPath truthy andAlso].
  rewrite getProp_length, gtZero_length_cons, getProp_first, Htext. reflexivity.
Qed.

(** The condition fails, without throwing, on a soft miss. *)
Lemma replyTo_soft_miss (result : value) :
  SoftMiss result -> replyTo (Body result) = VStr rephraseText.
Proof.
  intros H. unfold replyTo, hasCandidateText, operand, isTruthy.
  destruct H as [fields H | fields H | fields first rest H H' | fields first rest content H H' H''
                | fields first rest content H H' H''];
    repeat (cbn [getPath andAlso];
            rewrite ?getProp_object, ?H, ?H', ?H'', ?getProp_first;
            try rewrite getProp_length, gtZero_length_cons);
    reflexivity.
Qed.

Section Infer.

Variable appId : string.

(** C4, amended. When [candidates] and the [parts] of the content of its
    first element are lists that are not empty and the first part holds a
    string as its [text], [infer], with the store handle and the identity
    at hand and the store accepting the calls, returns and writes exactly
    one bot message, whose text is that string. *)
Theorem infer_writes_candidate_text (s : Sys) (userMessage : string)
    (result first content part : value) (candidates partsRest : list value) (txt : string) :
  let c := ui s in
  let cp := chatPath appId c in
  let now := clock (fs s) in
  hasDb (db c) = true -> hasUserId (userId c) = true ->
  accepting (faults s) = true ->
  endpoint s (contentsSent appId c userMessage s) = Body result ->
  getProp result "candidates" = Ok (VArr (first :: candidates)) ->
  getProp first "content" = Ok content ->
  getProp content "parts" = Ok (VArr (part :: partsRest)) ->
  getProp part "text" = Ok (VStr txt) ->
  let s' := snd (infer appId userMessage s) in
  fst (infer appId userMessage s) = Ok tt
  /\ chatAt cp (fs s') = chatAt cp (fs s) ++ [mkChatMessage now "bot" (VStr txt) (Some now)]
  /\ calls s'
     = calls s ++ [CallGetDocs (trainingPath appId c);
                   CallFetch (contentsSent appId c userMessage s);
                   CallAddDoc cp "bot" (VStr txt)].
Proof.
  cbn zeta. intros Hdb Hu Hst Hep Hc Hcontent Hparts Htext. unfold infer.
  rewrite (getBotResponse_accepted appId (ui s) Hdb Hu userMessage s Hst).
  unfold inferred. rewrite Hep.
  rewrite (replyTo_candidate_text _ _ _ _ _ _ _ Hc Hcontent Hparts Htext).
  settle. repeat split.
  - now rewrite chatAt_appendChat.
  - now rewrite <- !app_assoc.
Qed.

(** C5, amended. With a store that accepts the calls, [infer] returns
    without an exception and writes exactly one bot message, whatever the
    endpoint does; the message carries the rephrase text when the
    response is an object that misses the expected shape at a member that
    is absent, falsy or an empty list, and the trouble-connecting text
    when the call fails in transport or the body is not JSON. *)
Theorem infer_answers_once (s : Sys) (userMessage : string) :
  let c := ui s in
  let cp := chatPath appId c in
  let now := clock (fs s) in
  let outcome := endpoint s (contentsSent appId c userMessage s) in
  hasDb (db c) = true -> hasUserId (userId c) = true ->
  accepting (faults s) = true ->
  let s' := snd (infer appId userMessage s) in
  fst (infer appId userMessage s) = Ok tt
  /\ (exists reply,
        chatAt cp (fs s') = chatAt cp (fs s) ++ [mkChatMessage now "bot" reply (Some now)]
        /\ calls s'
           = calls s ++ [CallGetDocs (trainingPath appId c);
                         CallFetch (contentsSent appId c userMessage s);
                         CallAddDoc cp "bot" reply]
        /\ (forall result, outcome = Body result -> SoftMiss result ->
            reply = VStr rephraseText)
        /\ (outcome = FetchRejected \/ outcome = BodyNotJson -> reply = VStr troubleText))
  /\ Js.includes "rephrase" rephraseText = true
  /\ Js.includes "trouble connecting" troubleText = true.
Proof.
  cbn zeta. intros Hdb Hu Hst. unfold infer.
  rewrite (getBotResponse_accepted appId (ui s) Hdb Hu userMessage s Hst).
  unfold inferred. settle. split; [reflexivity |]. split; [| split; reflexivity].
  eexists. split; [now rewrite chatAt_appendChat |].
  split; [now rewrite <- !app_assoc |]. split.
  - intros result Hr Hmiss. rewrite Hr. now apply replyTo_soft_miss.
  - intros [Hr | Hr]; now rewrite Hr.
Qed.

End Infer.

(** C4, as stated, fails: when the store rejects the bot message that
    carries the text of the response, the one bot message written is the
    trouble-connecting text. *)
Lemma infer_candidate_text_rejected_write :
  let s := sys0 "" (answering helloResponse) [false; true] in
  getPath helloResponse candidateText = Ok (VStr "hello")
  /\ fst (infer "app" "hi" s) = Ok tt
  /\ chatAt chat0 (fs (snd (infer "app" "hi" s)))
     = [mkChatMessage 0 "bot" (VStr troubleText) (Some 0)]
  /\ troubleText <> "hello".
Proof. cbn zeta. repeat split; try discriminate; vm_compute; reflexivity. Qed.

(** C5, as stated, fails in two ways.  A response whose first candidate
    is [null] misses the expected shape, yet the message carries the
    trouble-connecting text, not the rephrase text.  And when the store
    rejects the bot message, no bot message is written and the exception
    leaves [infer]. *)
Lemma infer_null_candidate_and_rejected_write :
  let s := sys0 "" (answering nullCandidate) [] in
  let r := sys0 "" (fun _ => FetchRejected) [false; true] in
  (chatAt chat0 (fs (snd (infer "app" "hi" s))) = [mkChatMessage 0 "bot" (VStr troubleText) (Some 0)]
   /\ Js.includes "rephrase" troubleText = false)
  /\ (fst (infer "app" "hi" r) = Throw StoreError
      /\ chatAt chat0 (fs (snd (infer "app" "hi" r))) = []).
Proof. cbn zeta. repeat split; vm_compute; reflexivity. Qed.

(** ** What is sent to the endpoint *)



Section Sent.

Variable appId : string.



End Sent.

(** ** Plain chat text *)

Section PlainChat.

Variable appId : string.



End PlainChat.


(** ** Failures *)

Section Failures.

Variable appId : string.

Lemma tryFinally_setIsLoading {A} (m : M A) (b : bool) (s : Sys) :
  isLoading (ui (snd (tryFinally m (setIsLoading b) s))) = b.
Proof. unfold tryFinally. now destruct (m s) as [r s1]. Qed.

(** C8, amended. Once the input is taken, the busy flag is cleared in
    every outcome, whether [submit] returns or throws.  When the [try]
    block returns, [submit] returns.  When the [try] block fails and the
    store accepts the message written in answer, [submit] returns without
    passing the failure on and has added exactly one bot message, the
    generic error text, which says that something went wrong. *)
Theorem failure_is_reported_and_flag_cleared (s : Sys) :
  let c := ui s in
  let t := Js.trim (newMessage c) in
  let cp := chatPath appId c in
  Js.nonEmpty t = true -> hasDb (db c) = true -> hasUserId (userId c) = true ->
  let s' := snd (submit appId s) in
  isLoading (ui s') = false
  /\ (forall s1, sendAndProcess appId c t (started s) = (Ok tt, s1) ->
        fst (submit appId s) = Ok tt)
  /\ (forall e s1,
        sendAndProcess appId c t (started s) = (Throw e, s1) ->
        hd false (faults s1) = false ->
        fst (submit appId s) = Ok tt
        /\ chatAt cp (fs s')
           = chatAt cp (fs s1)
             ++ [mkChatMessage (clock (fs s1)) "bot" (VStr oopsText) (Some (clock (fs s1)))]
        /\ calls s' = calls s1 ++ [CallAddDoc cp "bot" (VStr oopsText)])
  /\ Js.includes "something went wrong" (Js.toLowerCase oopsText) = true.
Proof.
  cbn zeta. intros Ht Hdb Hu. unfold submit.
  rewrite (handleSendMessage_guarded appId (ui s) Hdb Hu s Ht).
  split; [apply tryFinally_setIsLoading |]. split; [| split; [| reflexivity]].
  - intros s1 Hrun. unfold tryFinally, tryCatch. now rewrite Hrun.
  - intros e s1 Hrun Hacc. unfold tryFinally, tryCatch. rewrite Hrun.
    rewrite (sendBotResponse_accepted appId (ui s) Hdb Hu) by exact Hacc.
    settle. repeat split. now rewrite chatAt_appendChat.
Qed.

End Failures.

(** C8, as stated, fails: when the store rejects the user message and
    then the error message, the failure leaves [submit] and no bot
    message has been added. *)
Lemma submit_rejected_twice_throws :
  let s := sys0 "hello" (answering helloResponse) [true; true] in
  fst (submit "app" s) = Throw StoreError
  /\ chatAt chat0 (fs (snd (submit "app" s))) = []
  /\ isLoading (ui (snd (submit "app" s))) = false.
Proof. cbn zeta. repeat split; vm_compute; reflexivity. Qed.

(** ** The properties on concrete systems *)

(** C1 on a plain message with blanks around it. *)
Lemma submit_appends_user_message_first_witness :
  let s := sys0 "  hi there " (answering helloResponse) [] in
  exists bots,
    chatAt chat0 (fs (snd (submit "app" s)))
    = chatAt chat0 (fs s) ++ mkChatMessage 0 "user" (VStr "hi there") (Some 0) :: bots
    /\ Forall (fun m => sender m = "bot") bots.
Proof.
  cbn zeta.
  destruct (submit_appends_user_message_first "app"
              (sys0 "  hi there " (answering helloResponse) [])) as [H _].
  destruct (H eq_refl eq_refl eq_refl) as [_ H2].
  exact (H2 eq_refl).
Defined.



(** C3, amended, on a teach command without a separator. *)
Lemma malformed_teach_gets_usage_witness :
  let s := sys0 "/teach bad input" (answering helloResponse) [] in
  chatAt chat0 (fs (snd (submit "app" s)))
  = [mkChatMessage 0 "user" (VStr "/teach bad input") (Some 0);
     mkChatMessage 1 "bot" (VStr usageText) (Some 1)]
  /\ training_data (fs (snd (submit "app" s))) = training_data (fs s).
Proof.
  cbn zeta.
  destruct (malformed_teach_gets_usage "app"
              (sys0 "/teach bad input" (answering helloResponse) [])
              eq_refl ltac:(discriminate))
    as (Hkept & Husage & _).
  destruct (Husage eq_refl eq_refl eq_refl) as (_ & Hchat & _).
  split; [exact Hchat | exact Hkept].
Defined.

(** C4 on the response that says hello. *)
Lemma infer_writes_candidate_text_witness :
  let s := sys0 "" (answering helloResponse) [] in
  chatAt chat0 (fs (snd (infer "app" "hi" s))) = [mkChatMessage 0 "bot" (VStr "hello") (Some 0)].
Proof.
  cbn zeta.
  destruct (infer_writes_candidate_text "app" (sys0 "" (answering helloResponse) []) "hi"
              helloResponse
              (VObj [("content", VObj [("parts", VArr [VObj [("text", VStr "hello")]])])])
              (VObj [("parts", VArr [VObj [("text", VStr "hello")]])])
              (VObj [("text", VStr "hello")]) [] [] "hello"
              eq_refl eq_refl eq_refl eq_refl eq_refl eq_refl eq_refl eq_refl)
    as (_ & H & _).
  exact H.
Defined.

(** C5, amended, on a response without candidates. *)
Lemma infer_answers_once_witness :
  let s := sys0 "" (answering (VObj [])) [] in
  fst (infer "app" "hi" s) = Ok tt
  /\ exists reply,
       chatAt chat0 (fs (snd (infer "app" "hi" s))) = [mkChatMessage 0 "bot" reply (Some 0)]
       /\ reply = VStr rephraseText.
Proof.
  cbn zeta.
  destruct (infer_answers_once "app" (sys0 "" (answering (VObj [])) []) "hi"
              eq_refl eq_refl eq_refl)
    as (H1 & (reply & H2 & _ & H3 & _) & _).
  split; [exact H1 |]. exists reply. split; [exact H2 |].
  apply (H3 (VObj [])); [reflexivity | now apply miss_candidates].
Defined.

(** C6 on a transcript of two messages. *)
Lemma clear_empties_view_only_witness :
  let s := sysOld "/clear" (answering helloResponse) [] in
  messages (ui s) = oldMessages
  /\ messages (ui (snd (submit "app" s))) = []
  /\ chatAt chat0 (fs (snd (submit "app" s)))
     = oldMessages ++ [mkChatMessage 3 "user" (VStr "/clear") (Some 3);
                       mkChatMessage 4 "bot" (VStr clearedText) (Some 4)].
Proof.
  cbn zeta.
  destruct (clear_empties_view_only "app" (sysOld "/clear" (answering helloResponse) [])
              eq_refl eq_refl eq_refl eq_refl eq_refl)
    as (_ & H2 & H3 & _).
  split; [reflexivity |]. split; [exact H2 | exact H3].
Defined.


(** C8, amended, on a confirmation the store rejects. *)
Lemma failure_is_reported_and_flag_cleared_witness :
  let s := sys0 "/clear" (answering helloResponse) [false; true] in
  fst (submit "app" s) = Ok tt
  /\ chatAt chat0 (fs (snd (submit "app" s)))
     = [mkChatMessage 0 "user" (VStr "/clear") (Some 0); mkChatMessage 1 "bot" (VStr oopsText) (Some 1)]
  /\ isLoading (ui (snd (submit "app" s))) = false.
Proof.
  cbn zeta.
  destruct (failure_is_reported_and_flag_cleared "app"
              (sys0 "/clear" (answering helloResponse) [false; true])
              eq_refl eq_refl eq_refl)
    as (H1 & _ & H3 & _).
  destruct (H3 StoreError
              (snd (sendAndProcess "app" (app0 "/clear") "/clear"
                      (started (sys0 "/clear" (answering helloResponse) [false; true]))))
              eq_refl eq_refl)
    as (H4 & H5 & _).
  split; [exact H4 |]. split; [exact H5 | exact H1].
Defined.

(** C9 on a question that holds double quotes. *)
Lemma taught_pair_holds_no_double_quote_witness :
  let s := sys0 (teachCommand quotedQuestion "ok") (answering helloResponse) [] in
  exists data,
    trainingAt training0 (fs (snd (submit "app" s))) !! "say hi" = Some data
    /\ question data = "say hi"
    /\ answer data = "ok"
    /\ Js.occurs Js.dquote (question data) = false
    /\ Js.occurs Js.dquote (answer data) = false.
Proof.
  cbn zeta.
  destruct (taught_pair_holds_no_double_quote "app"
              (sys0 (teachCommand quotedQuestion "ok") (answering helloResponse) []))
    as [_ H].
  destruct (H (dq +:+ quotedQuestion) ("ok" +:+ dq) eq_refl eq_refl) as [Hwritten Hheld].
  destruct (Hheld (mkDocumentReference training0 "say hi") eq_refl eq_refl eq_refl eq_refl)
    as (data & Hdata & Hq & Ha).
  exists data. split; [exact Hdata |]. split; [exact Hq |]. split; [exact Ha |].
  destruct (Hwritten training0 "say hi" data Hdata) as [Hold | (_ & _ & Hqf & Haf)].
  - discriminate Hold.
  - split; assumption.
Defined.


(** * Further properties of the component *)

(** ** Trimming *)

Lemma trimStart_empty (s : string) :
  Js.nonEmpty (Js.trimStart s) = negb (allWhiteSpace s).
Proof.
  induction s as [|c s IH]; cbn; [reflexivity |].
  destruct (Js.isWhiteSpace c); cbn; [exact IH | reflexivity].
Qed.

Lemma trimStart_head (s : string) : startsWithSpace (Js.trimStart s) = false.
Proof.
  induction s as [|c s IH]; cbn; [reflexivity |].
  destruct (Js.isWhiteSpace c) eqn:E; [exact IH | cbn; exact E].
Qed.

Lemma trimEnd_head (c : ascii) (s : string) :
  Js.isWhiteSpace c = false ->
  exists r, Js.trimEnd (String c s) = String c r.
Proof.
  intros Hc. cbn [Js.trimEnd]. destruct (Js.trimEnd s); rewrite ?Hc; eauto.
Qed.

Lemma trimEnd_last (s : string) : endsWithSpace (Js.trimEnd s) = false.
Proof.
  induction s as [|c s IH]; cbn [Js.trimEnd]; [reflexivity |].
  destruct (Js.trimEnd s) as [|d r].
  - destruct (Js.isWhiteSpace c) eqn:E; cbn; [reflexivity | exact E].
  - exact IH.
Qed.

Lemma trim_nonEmpty (s : string) : Js.nonEmpty (Js.trim s) = negb (allWhiteSpace s).
Proof.
  unfold Js.trim. rewrite <- trimStart_empty.
  pose proof (trimStart_head s) as Hh.
  destruct (Js.trimStart s) as [|c r]; [reflexivity |].
  cbn in Hh. destruct (trimEnd_head c r Hh) as [r' ->]. reflexivity.
Qed.

Lemma trim_head (s : string) : startsWithSpace (Js.trim s) = false.
Proof.
  unfold Js.trim. pose proof (trimStart_head s) as Hh.
  destruct (Js.trimStart s) as [|c r]; [reflexivity |].
  cbn in Hh. destruct (trimEnd_head c r Hh) as [r' ->]. exact Hh.
Qed.

Lemma trim_last (s : string) : endsWithSpace (Js.trim s) = false.
Proof. apply trimEnd_last. Qed.

Section Ignored.

Variable appId : string.

Lemma submit_ignored (s : Sys) :
  allWhiteSpace (newMessage (ui s)) = true \/ hasDb (db (ui s)) = false
  \/ hasUserId (userId (ui s)) = false ->
  submit appId s = (Ok tt, s).
Proof.
  intros H. unfold submit, handleSendMessage. rewrite trim_nonEmpty.
  destruct H as [H | [H | H]]; rewrite H; cbn; rewrite ?orb_true_r; reflexivity.
Qed.

Lemma submit_taken_calls (s : Sys) :
  allWhiteSpace (newMessage (ui s)) = false ->
  hasDb (db (ui s)) = true ->
  hasUserId (userId (ui s)) = true ->
  exists later,
    calls (snd (submit appId s))
    = calls s ++ CallAddDoc (chatPath appId (ui s)) "user" (VStr (Js.trim (newMessage (ui s))))
              :: later
    /\ Forall (fun k => isUserAdd k = false) later.
Proof.
  intros Hw Hdb Hu.
  assert (Ht : Js.nonEmpty (Js.trim (newMessage (ui s))) = true)
    by now rewrite trim_nonEmpty, Hw.
  destruct (submit_after_user_add appId s Ht Hdb Hu) as [[later [Hc Hl]] _].
  exists later. split; [| exact Hl]. rewrite Hc. cbn. now rewrite <- app_assoc.
Qed.

(** X1. [submit] leaves the whole system as it was, and makes no call,
    exactly when the input holds nothing but white space, or the store
    handle is missing, or the user id is missing or empty. *)
Theorem submit_ignored_iff (s : Sys) :
  submit appId s = (Ok tt, s)
  <-> (allWhiteSpace (newMessage (ui s)) = true \/ hasDb (db (ui s)) = false
       \/ hasUserId (userId (ui s)) = false).
Proof.
  split; [| apply submit_ignored].
  intros Hsame.
  destruct (allWhiteSpace (newMessage (ui s))) eqn:Hw; [now left |].
  destruct (hasDb (db (ui s))) eqn:Hdb; [| now right; left].
  destruct (hasUserId (userId (ui s))) eqn:Hu; [| now right; right].
  exfalso. destruct (submit_taken_calls s Hw Hdb Hu) as [later [Hc _]].
  rewrite Hsame in Hc. cbn [snd] in Hc.
  apply (f_equal (@List.length call)) in Hc.
  rewrite length_app in Hc. cbn in Hc. lia.
Qed.

(** X2. Whatever the store and the endpoint do, every user message
    [submit] sends to the store has a text that is not empty and neither
    starts nor ends with white space. *)
Theorem user_text_is_trimmed (s : Sys) :
  exists sent,
    calls (snd (submit appId s)) = calls s ++ sent
    /\ Forall (fun k => userTextTrimmed k = true) sent.
Proof.
  destruct (allWhiteSpace (newMessage (ui s))) eqn:Hw;
    [| destruct (hasDb (db (ui s))) eqn:Hdb;
       [destruct (hasUserId (userId (ui s))) eqn:Hu |]].
  - exists []. rewrite submit_ignored by now left. split; [now rewrite app_nil_r | constructor].
  - destruct (submit_taken_calls s Hw Hdb Hu) as [later [Hc Hl]].
    eexists. split; [exact Hc |]. constructor.
    + cbn. rewrite trim_nonEmpty, Hw, trim_head, trim_last. reflexivity.
    + eapply Forall_impl; [exact Hl |]. intros k Hk.
      destruct k as [path sndr txt| | |]; try reflexivity.
      cbn in Hk |- *. now rewrite Hk.
  - exists []. rewrite submit_ignored by (right; now right).
    split; [now rewrite app_nil_r | constructor].
  - exists []. rewrite submit_ignored by (right; now left).
    split; [now rewrite app_nil_r | constructor].
Qed.

End Ignored.

(** ** Splitting and joining *)

Lemma split_go_nonempty (sep : string) (skip : nat) (s : string) :
  Js.split_go sep skip s <> [].
Proof.
  revert skip. induction s as [|c s IH]; intros skip; [discriminate |].
  cbn [Js.split_go]. destruct skip as [|k]; [| apply IH].
  destruct (Js.startsWith sep (String c s)); [discriminate |].
  destruct (Js.split_go sep 0 s); discriminate.
Qed.

Lemma split_go_skip (sep u s : string) :
  Js.split_go sep (String.length u) (u +:+ s) = Js.split_go sep 0 s.
Proof. induction u as [|c u IH]; [reflexivity | exact IH]. Qed.

Lemma startsWith_append (p s : string) :
  Js.startsWith p s = true -> s = p +:+ Js.substring (String.length p) s.
Proof.
  revert s. induction p as [|a p IH]; intros s H; [reflexivity |].
  destruct s as [|b s]; [discriminate H |]. cbn in H.
  destruct (Ascii.eqb a b) eqn:E; [| discriminate H].
  apply Ascii.eqb_eq in E. subst b. cbn. f_equal. now apply IH.
Qed.

Lemma join_cons_char (sep : string) (c : ascii) (piece : string) (rest : list string) :
  Js.join sep (String c piece :: rest) = String c (Js.join sep (piece :: rest)).
Proof. now destruct rest. Qed.

Lemma join_cons_more (sep x y : string) (rest : list string) :
  Js.join sep (x :: y :: rest) = x +:+ sep +:+ Js.join sep (y :: rest).
Proof. reflexivity. Qed.

Lemma length_substring (n : nat) (s : string) :
  String.length (Js.substring n s) <= String.length s.
Proof.
  revert s. induction n as [|n IH]; intros s; [cbn; destruct s; lia |].
  destruct s as [|c s]; [cbn; lia |]. cbn. specialize (IH s). lia.
Qed.

(** Joining the pieces with the separator gives the string back. *)
Lemma join_split (sep s : string) :
  sep <> "" -> Js.join sep (Js.split sep s) = s.
Proof.
  intros Hsep. unfold Js.split.
  remember (String.length s) as n eqn:Hn.
  assert (Hle : String.length s <= n) by lia. clear Hn.
  revert s Hle. induction n as [|n IH]; intros s Hle.
  - destruct s; [reflexivity | cbn in Hle; lia].
  - destruct s as [|c s]; [reflexivity |]. cbn in Hle.
    cbn [Js.split_go].
    destruct (Js.startsWith sep (String c s)) eqn:Hm.
    + destruct sep as [|a sep']; [now contradiction Hsep |].
      pose proof (startsWith_append _ _ Hm) as Hs.
      cbn in Hs. injection Hs as Ha Hs.
      cbn [String.length]. rewrite Nat.sub_succ, Nat.sub_0_r.
      rewrite Hs at 1. rewrite split_go_skip.
      pose proof (length_substring (String.length sep') s) as Hlen.
      specialize (IH (Js.substring (String.length sep') s) ltac:(lia)).
      pose proof (split_go_nonempty (String a sep') 0 (Js.substring (String.length sep') s)) as Hne.
      destruct (Js.split_go (String a sep') 0 (Js.substring (String.length sep') s))
        as [|piece rest]; [now contradiction Hne |].
      rewrite join_cons_more, IH. cbn. rewrite Ha. now rewrite <- Hs.
    + specialize (IH s ltac:(lia)).
      pose proof (split_go_nonempty sep 0 s) as Hne.
      destruct (Js.split_go sep 0 s) as [|piece rest]; [now contradiction Hne |].
      rewrite join_cons_char. now rewrite IH.
Qed.

Section TeachPieces.

Variable appId : string.

(** X3. When a teach command is accepted, the text typed is the prefix,
    the piece taken for the question, the separator and the piece taken
    for the answer, in this order and with nothing else: the command is
    read back from its two pieces. *)
Theorem accepted_teach_reads_back (t part0 part1 : string) :
  Js.startsWith teachPrefix t = true ->
  Js.split teachSep (Js.substring (String.length teachPrefix) t) = [part0; part1] ->
  t = teachPrefix +:+ part0 +:+ teachSep +:+ part1.
Proof.
  intros Hp Hs. rewrite (startsWith_append _ _ Hp) at 1. f_equal.
  rewrite <- (join_split teachSep (Js.substring (String.length teachPrefix) t))
    by discriminate.
  now rewrite Hs.
Qed.

(** X4. A teach command with no double quote after the prefix is never
    accepted: in every state it is handled as the answer with the usage
    message, and nothing else. *)
Theorem teach_without_quote_is_refused (c : App) (t : string) :
  Js.startsWith teachPrefix t = true ->
  Js.occurs Js.dquote (Js.substring (String.length teachPrefix) t) = false ->
  dispatch appId c t = sendBotResponse appId c (VStr usageText) "bot".
Proof.
  intros Hp Hq. unfold dispatch. rewrite Hp.
  pose proof (split_go_quoteless _ "" "" [] Hq eq_refl) as Hs.
  rewrite !append_empty_r in Hs. unfold Js.split. now rewrite Hs.
Qed.

End TeachPieces.

(** ** At most one answer *)

Lemma chatKept_refl (s : Sys) : chatKept s s.
Proof. intros path. reflexivity. Qed.

Lemma chatKept_trans (s1 s2 s3 : Sys) : chatKept s1 s2 -> chatKept s2 s3 -> chatKept s1 s3.
Proof. intros H1 H2 path. now rewrite H2, H1. Qed.

Lemma chatKept_storeCall {A} (k : call) (accept : Firestore -> A * Firestore) :
  (forall f path, chatAt path (snd (accept f)) = chatAt path f) ->
  stepwise chatKept (storeCall k accept).
Proof.
  intros Hacc s path. unfold storeCall.
  destruct (hd false (faults s)); [reflexivity |].
  specialize (Hacc (fs s) path). now destruct (accept (fs s)).
Qed.

Lemma chatKept_setDoc (path key qu an : string) : stepwise chatKept (setDoc path key qu an).
Proof. apply chatKept_storeCall. reflexivity. Qed.

Lemma chatKept_getDocs (path : string) : stepwise chatKept (getDocs path).
Proof. apply chatKept_storeCall. reflexivity. Qed.

Lemma chatKept_fetchJson (contents : list Turn) : stepwise chatKept (fetchJson contents).
Proof. intros s path. unfold fetchJson. now destruct (endpoint s contents). Qed.

Lemma chatKept_setMessages (l : list ChatMessage) : stepwise chatKept (setMessages l).
Proof. intros s path. reflexivity. Qed.

Lemma chatKept_setIsLoading (b : bool) : stepwise chatKept (setIsLoading b).
Proof. intros s path. reflexivity. Qed.

Lemma chatKept_setNewMessage (t : string) : stepwise chatKept (setNewMessage t).
Proof. intros s path. reflexivity. Qed.

#[local] Hint Resolve chatKept_setDoc chatKept_getDocs chatKept_fetchJson chatKept_setMessages
  chatKept_setIsLoading chatKept_setNewMessage : steps.

Lemma answersOnce_kept {A} (path : string) (m : M A) :
  stepwise chatKept m -> answersOnce path m.
Proof. intros H s. left. apply H. Qed.

Lemma addedTo_after_kept (path : string) (added : list ChatMessage) (s1 s2 s3 : Sys) :
  chatKept s1 s2 -> addedTo path added s2 s3 -> addedTo path added s1 s3.
Proof.
  intros Hk [Ha Ho]. split.
  - now rewrite Ha, Hk.
  - intros other Hne. now rewrite Ho, Hk.
Qed.

Lemma answersOnce_bind {A B} (path : string) (m : M A) (k : A -> M B) :
  stepwise chatKept m -> (forall a, answersOnce path (k a)) -> answersOnce path (bind m k).
Proof.
  intros Hm Hk s. unfold bind. specialize (Hm s).
  destruct (m s) as [[a|e] s1]; cbn in Hm; [| now left].
  destruct (Hk a s1) as [Hkept | (b & msg & Hr & Hs & Hadd)].
  - left. exact (chatKept_trans _ _ _ Hm Hkept).
  - right. exists b, msg. repeat split; try assumption;
      apply (addedTo_after_kept _ _ _ _ _ Hm Hadd).
Qed.

Lemma answersOnce_tryCatch {A} (path : string) (m : M A) (h : exn -> M A) :
  answersOnce path m -> (forall e, answersOnce path (h e)) -> answersOnce path (tryCatch m h).
Proof.
  intros Hm Hh s. unfold tryCatch. specialize (Hm s).
  destruct (m s) as [[a|e] s1]; cbn in Hm; [exact Hm |].
  destruct Hm as [Hkept | (b & msg & Hr & _)]; [| discriminate Hr].
  destruct (Hh e s1) as [Hkept' | (b & msg & Hr & Hs & Hadd)].
  - left. exact (chatKept_trans _ _ _ Hkept Hkept').
  - right. exists b, msg. repeat split; try assumption;
      apply (addedTo_after_kept _ _ _ _ _ Hkept Hadd).
Qed.

Section AnswersOnce.

Variable appId : string.
Variable c : App.

Lemma chatKept_collection (path : string) : stepwise chatKept (collection c path).
Proof. unfold collection. stepwise_tac chatKept_refl chatKept_trans. Qed.

Lemma chatKept_saveTrainingData (qu an : string) :
  stepwise chatKept (saveTrainingData appId c qu an).
Proof. unfold saveTrainingData, doc. stepwise_tac chatKept_refl chatKept_trans. Qed.

Lemma answersOnce_sendBotResponse (txt : value) :
  answersOnce (chatPath appId c) (sendBotResponse appId c txt "bot").
Proof.
  unfold sendBotResponse, collection.
  destruct (negb (hasDb (db c)) || negb (hasUserId (userId c)))%bool eqn:G.
  - apply answersOnce_kept, stepwise_ret, chatKept_refl.
  - apply orb_false_elim in G as [G _]. apply negb_false_iff in G. rewrite G.
    intros s. unfold bind, ret, addDoc, storeCall.
    destruct (storable txt); [| left; intros path; reflexivity].
    destruct (hd false (faults s)); [left; intros path; reflexivity |].
    right. exists tt, (mkChatMessage (clock (fs s)) "bot" txt (Some (clock (fs s)))).
    split; [reflexivity |]. split; [reflexivity |]. split.
    + apply chatAt_appendChat.
    + intros other Hne. now apply chatAt_appendChat_ne.
Qed.

(** Closes a goal [answersOnce] by the steps of the computation. *)
Ltac answers_tac :=
  repeat first
    [ apply answersOnce_sendBotResponse
    | apply answersOnce_tryCatch
    | apply answersOnce_bind;
      [ first [ apply chatKept_collection | apply chatKept_saveTrainingData
              | stepwise_tac chatKept_refl chatKept_trans ] | ]
    | match goal with
      | |- forall _, answersOnce _ _ => intros ?
      | |- answersOnce _ (if ?b then _ else _) => destruct b
      | |- answersOnce _ (match ?l with _ => _ end) => destruct l
      end ].

Lemma answersOnce_getBotResponse (userMessage : string) :
  answersOnce (chatPath appId c) (getBotResponse appId c userMessage).
Proof. unfold getBotResponse. answers_tac. Qed.

Lemma answersOnce_dispatch (userMessage : string) :
  answersOnce (chatPath appId c) (dispatch appId c userMessage).
Proof.
  pose proof answersOnce_getBotResponse.
  unfold dispatch. answers_tac; auto.
Qed.

End AnswersOnce.

Lemma addedTo_nil (path : string) (s s' : Sys) : chatKept s s' -> addedTo path [] s s'.
Proof. intros H. split; [now rewrite app_nil_r | intros other _; apply H]. Qed.

Lemma addedTo_trans (path : string) (a b : list ChatMessage) (s1 s2 s3 : Sys) :
  addedTo path a s1 s2 -> addedTo path b s2 s3 -> addedTo path (a ++ b) s1 s3.
Proof.
  intros [Ha Hao] [Hb Hbo]. split.
  - now rewrite Hb, Ha, app_assoc.
  - intros other Hne. now rewrite Hbo, Hao.
Qed.

Section AtMostTwo.

Variable appId : string.

(** What the handler of a failed [try] block and the [finally] block add
    to the conversation: at most one bot message, and then [submit]
    returns. *)
Lemma report_then_finally {A} (s1 : Sys) (c : App) (r : res A) :
  let run := match sendBotResponse appId c (VStr oopsText) "bot" s1 with
             | (r', s2) =>
                 match setIsLoading false s2 with
                 | (Ok _, s3) => (r', s3)
                 | (Throw e, s3) => (Throw e, s3)
                 end
             end in
  exists bots,
    addedTo (chatPath appId c) bots s1 (snd run)
    /\ (bots = [] \/ exists msg, bots = [msg] /\ sender msg = "bot" /\ fst run = Ok tt).
Proof.
  cbn zeta.
  destruct (answersOnce_sendBotResponse appId c (VStr oopsText) s1)
    as [Hkept | (a & msg & Hr & Hs & Hadd)];
    destruct (sendBotResponse appId c (VStr oopsText) "bot" s1) as [r' s2];
    cbn [fst snd setIsLoading] in *.
  - exists []. split; [apply addedTo_nil; exact Hkept | now left].
  - exists [msg]. split; [exact Hadd |]. right. exists msg. destruct a. auto.
Qed.

Lemma submit_adds (s : Sys) :
  let c := ui s in
  let cp := chatPath appId c in
  let now := clock (fs s) in
  let s' := snd (submit appId s) in
  exists users bots,
    addedTo cp (users ++ bots) s s'
    /\ (users = [] \/ users = [mkChatMessage now "user" (VStr (Js.trim (newMessage c))) (Some now)])
    /\ (bots = [] \/ exists msg, bots = [msg] /\ sender msg = "bot"
                                 /\ fst (submit appId s) = Ok tt).
Proof.
  cbn zeta.
  destruct (Js.nonEmpty (Js.trim (newMessage (ui s)))) eqn:Ht;
    [destruct (hasDb (db (ui s))) eqn:Hdb; [destruct (hasUserId (userId (ui s))) eqn:Hu |] |].
  2-4: exists [], []; rewrite submit_ignored
         by (rewrite trim_nonEmpty in Ht; apply negb_false_iff in Ht || idtac; tauto);
       split; [apply addedTo_nil, chatKept_refl | split; now left].
  unfold submit. rewrite (handleSendMessage_guarded appId (ui s) Hdb Hu s Ht).
  unfold tryFinally, tryCatch.
  destruct (hd false (faults s)) eqn:E.
  - rewrite (sendAndProcess_rejected appId (ui s) Hdb _ (started s)) by exact E.
    match goal with |- context [sendBotResponse _ _ _ _ ?st] =>
      destruct (report_then_finally st (ui s) (Throw StoreError : res unit))
        as (bots & Hadd & Hbots) end.
    exists [], bots. split; [exact Hadd |]. split; [now left | exact Hbots].
  - rewrite (sendAndProcess_accepted appId (ui s) Hdb _ (started s)) by exact E.
    set (t := Js.trim (newMessage (ui s))).
    set (s1 := afterCall _ _ (started s)).
    assert (Huser : addedTo (chatPath appId (ui s))
                      [mkChatMessage (clock (fs s)) "user" (VStr t) (Some (clock (fs s)))] s s1).
    { split; [apply chatAt_appendChat |].
      intros other Hne. now apply chatAt_appendChat_ne. }
    destruct (answersOnce_dispatch appId (ui s) t s1) as [Hkept | (a & msg & Hr & Hs & Hadd)];
      destruct (dispatch appId (ui s) t s1) as [[u|e] s2]; cbn [fst snd] in *.
    + eexists _, []. split; [| split; [now right | now left]].
      cbn [setIsLoading]. rewrite app_nil_r.
      rewrite <- (app_nil_r [_]). exact (addedTo_trans _ _ _ _ _ _ Huser (addedTo_nil _ _ _ Hkept)).
    + destruct (report_then_finally s2 (ui s) (Throw e : res unit)) as (bots & Hadd & Hbots).
      eexists _, bots. split; [| split; [now right | exact Hbots]].
      rewrite <- (app_nil_l bots).
      exact (addedTo_trans _ _ _ _ _ _ Huser
               (addedTo_trans _ _ _ _ _ _ (addedTo_nil _ _ _ Hkept) Hadd)).
    + eexists _, [msg]. split; [| split; [now right |]].
      * cbn [setIsLoading snd]. exact (addedTo_trans _ _ _ _ _ _ Huser Hadd).
      * right. exists msg. destruct u. auto.
    + discriminate Hr.
Qed.

(** X5. Whatever the store and the endpoint do, one submission adds to
    the user's conversation at most the user message and, after it, at
    most one bot message; it removes and changes nothing, and leaves every
    other conversation as it was.  When a bot message was added, [submit]
    has returned without an exception. *)
Theorem submit_adds_at_most_two (s : Sys) :
  let c := ui s in
  let cp := chatPath appId c in
  let now := clock (fs s) in
  let s' := snd (submit appId s) in
  exists users bots,
    addedTo cp (users ++ bots) s s'
    /\ (users = [] \/ users = [mkChatMessage now "user" (VStr (Js.trim (newMessage c))) (Some now)])
    /\ (bots = [] \/ exists msg, bots = [msg] /\ sender msg = "bot"
                                 /\ fst (submit appId s) = Ok tt).
Proof. exact (submit_adds s). Qed.

End AtMostTwo.

(** ** What a submission leaves alone *)

Lemma shellKept_refl (s : Sys) : shellKept s s.
Proof. now repeat split. Qed.

Lemma shellKept_trans (s1 s2 s3 : Sys) : shellKept s1 s2 -> shellKept s2 s3 -> shellKept s1 s3.
Proof. unfold shellKept. intros (A1 & B1 & C1) (A2 & B2 & C2). repeat split; congruence. Qed.

Lemma shellKept_storeCall {A} (k : call) (accept : Firestore -> A * Firestore) :
  stepwise shellKept (storeCall k accept).
Proof.
  intros s. unfold storeCall. destruct (hd false (faults s)); [now repeat split |].
  destruct (accept (fs s)). now repeat split.
Qed.

Lemma shellKept_addDoc (path sndr : string) (txt : value) :
  stepwise shellKept (addDoc path sndr txt).
Proof. addDoc_step shellKept_refl. apply shellKept_storeCall. Qed.

Lemma shellKept_setDoc (path key qu an : string) : stepwise shellKept (setDoc path key qu an).
Proof. apply shellKept_storeCall. Qed.

Lemma shellKept_getDocs (path : string) : stepwise shellKept (getDocs path).
Proof. apply shellKept_storeCall. Qed.

Lemma shellKept_fetchJson (contents : list Turn) : stepwise shellKept (fetchJson contents).
Proof. intros s. unfold fetchJson. destruct (endpoint s contents); now repeat split. Qed.

Lemma shellKept_setMessages (l : list ChatMessage) : stepwise shellKept (setMessages l).
Proof. intros s. now repeat split. Qed.

Lemma shellKept_setIsLoading (b : bool) : stepwise shellKept (setIsLoading b).
Proof. intros s. now repeat split. Qed.

#[local] Hint Resolve shellKept_addDoc shellKept_setDoc shellKept_getDocs shellKept_fetchJson
  shellKept_setMessages shellKept_setIsLoading : steps.

Lemma viewKept_refl (s : Sys) : viewKept s s.
Proof. reflexivity. Qed.

Lemma viewKept_trans (s1 s2 s3 : Sys) : viewKept s1 s2 -> viewKept s2 s3 -> viewKept s1 s3.
Proof. unfold viewKept. congruence. Qed.

Lemma viewKept_storeCall {A} (k : call) (accept : Firestore -> A * Firestore) :
  stepwise viewKept (storeCall k accept).
Proof.
  intros s. unfold storeCall. destruct (hd false (faults s)); [reflexivity |].
  now destruct (accept (fs s)).
Qed.

Lemma viewKept_addDoc (path sndr : string) (txt : value) :
  stepwise viewKept (addDoc path sndr txt).
Proof. addDoc_step viewKept_refl. apply viewKept_storeCall. Qed.

Lemma viewKept_setDoc (path key qu an : string) : stepwise viewKept (setDoc path key qu an).
Proof. apply viewKept_storeCall. Qed.

Lemma viewKept_getDocs (path : string) : stepwise viewKept (getDocs path).
Proof. apply viewKept_storeCall. Qed.

Lemma viewKept_fetchJson (contents : list Turn) : stepwise viewKept (fetchJson contents).
Proof. intros s. unfold fetchJson. now destruct (endpoint s contents). Qed.

Lemma viewKept_setIsLoading (b : bool) : stepwise viewKept (setIsLoading b).
Proof. intros s. reflexivity. Qed.

Lemma viewKept_setNewMessage (t : string) : stepwise viewKept (setNewMessage t).
Proof. intros s. reflexivity. Qed.

#[local] Hint Resolve viewKept_addDoc viewKept_setDoc viewKept_getDocs viewKept_fetchJson
  viewKept_setIsLoading viewKept_setNewMessage : steps.

Lemma viewKeptOrEmptied_refl (s : Sys) : viewKeptOrEmptied s s.
Proof. now left. Qed.

Lemma viewKeptOrEmptied_trans (s1 s2 s3 : Sys) :
  viewKeptOrEmptied s1 s2 -> viewKeptOrEmptied s2 s3 -> viewKeptOrEmptied s1 s3.
Proof.
  unfold viewKeptOrEmptied. intros [H1 | H1] [H2 | H2]; rewrite ?H2, ?H1; auto.
Qed.

Lemma viewKeptOrEmptied_kept {A} (m : M A) :
  stepwise viewKept m -> stepwise viewKeptOrEmptied m.
Proof. intros H s. left. apply H. Qed.

Lemma viewKeptOrEmptied_setMessages : stepwise viewKeptOrEmptied (setMessages []).
Proof. intros s. now right. Qed.

Section LeftAlone.

Variable appId : string.
Variable c : App.

Lemma shellKept_dispatch (t : string) : stepwise shellKept (dispatch appId c t).
Proof.
  unfold dispatch, getBotResponse, sendBotResponse, saveTrainingData, collection, doc.
  stepwise_tac shellKept_refl shellKept_trans.
Qed.

Lemma shellKept_sendBotResponse (txt : value) (sndr : string) :
  stepwise shellKept (sendBotResponse appId c txt sndr).
Proof. unfold sendBotResponse, collection. stepwise_tac shellKept_refl shellKept_trans. Qed.

Lemma viewKept_sendBotResponse (txt : value) (sndr : string) :
  stepwise viewKept (sendBotResponse appId c txt sndr).
Proof. unfold sendBotResponse, collection. stepwise_tac viewKept_refl viewKept_trans. Qed.

Lemma viewKept_getBotResponse (userMessage : string) :
  stepwise viewKept (getBotResponse appId c userMessage).
Proof.
  unfold getBotResponse, sendBotResponse, collection.
  stepwise_tac viewKept_refl viewKept_trans.
Qed.

(** Only a clear command touches the transcript. *)
Lemma viewKept_dispatch (t : string) :
  Js.startsWith teachPrefix t = true \/ Js.startsWith clearPrefix t = false ->
  stepwise viewKept (dispatch appId c t).
Proof.
  intros H. pose proof viewKept_getBotResponse. unfold dispatch.
  destruct (Js.startsWith teachPrefix t).
  - unfold sendBotResponse, saveTrainingData, collection, doc.
    stepwise_tac viewKept_refl viewKept_trans.
  - destruct H as [H | H]; [discriminate H |]. rewrite H. auto.
Qed.

Lemma viewKeptOrEmptied_dispatch (t : string) :
  stepwise viewKeptOrEmptied (dispatch appId c t).
Proof.
  destruct (Js.startsWith teachPrefix t) eqn:Hteach;
    [apply viewKeptOrEmptied_kept, viewKept_dispatch; now left |].
  destruct (Js.startsWith clearPrefix t) eqn:Hclear;
    [| apply viewKeptOrEmptied_kept, viewKept_dispatch; now right].
  unfold dispatch. rewrite Hteach, Hclear.
  apply stepwise_bind.
  - exact viewKeptOrEmptied_trans.
  - exact viewKeptOrEmptied_setMessages.
  - intros _. apply viewKeptOrEmptied_kept, viewKept_sendBotResponse.
Qed.

End LeftAlone.

Section Untouched.

Variable appId : string.

(** The part of [handleSendMessage] that follows the two state updates. *)
Lemma handleSendMessage_taken (s : Sys) :
  (negb (Js.nonEmpty (Js.trim (newMessage (ui s)))) || negb (hasDb (db (ui s)))
   || negb (hasUserId (userId (ui s))))%bool = false ->
  submit appId s
  = tryFinally
      (tryCatch (sendAndProcess appId (ui s) (Js.trim (newMessage (ui s))))
                (fun _ => sendBotResponse appId (ui s) (VStr oopsText) "bot"))
      (setIsLoading false) (started s).
Proof. intros G. unfold submit, handleSendMessage. now rewrite G. Qed.

(** X6. Whatever the store and the endpoint do, [submit] leaves the
    training data of every user as they were, unless the input is a teach
    command whose text after the prefix splits at the separator into
    exactly two pieces. *)
Theorem training_changes_only_by_teach (s : Sys) :
  let t := Js.trim (newMessage (ui s)) in
  Js.startsWith teachPrefix t = false
  \/ List.length (Js.split teachSep (Js.substring (String.length teachPrefix) t)) <> 2 ->
  training_data (fs (snd (submit appId s))) = training_data (fs s).
Proof.
  cbn zeta. intros H.
  destruct (negb (Js.nonEmpty (Js.trim (newMessage (ui s)))) || negb (hasDb (db (ui s)))
            || negb (hasUserId (userId (ui s))))%bool eqn:G.
  - unfold submit, handleSendMessage. now rewrite G.
  - rewrite (handleSendMessage_taken s G).
    pose proof (trainingKept_dispatch appId (ui s) _ H) as Hd.
    match goal with |- context [snd (?m (started s))] =>
      assert (Hm : stepwise trainingKept m) end.
    { unfold sendAndProcess, sendBotResponse, collection.
      stepwise_tac trainingKept_refl trainingKept_trans. }
    apply (Hm (started s)).
Qed.

Lemma taken_viewKept (s : Sys) :
  Js.startsWith teachPrefix (Js.trim (newMessage (ui s))) = true
  \/ Js.startsWith clearPrefix (Js.trim (newMessage (ui s))) = false ->
  viewKept (started s)
    (snd (tryFinally
            (tryCatch (sendAndProcess appId (ui s) (Js.trim (newMessage (ui s))))
                      (fun _ => sendBotResponse appId (ui s) (VStr oopsText) "bot"))
            (setIsLoading false) (started s))).
Proof.
  intros H.
  pose proof (viewKept_dispatch appId (ui s) _ H) as Hv.
  pose proof (viewKept_sendBotResponse appId (ui s)) as Hvb.
  match goal with |- context [snd (?m (started s))] =>
    assert (Hkept : stepwise viewKept m) end.
  { unfold sendAndProcess, collection. stepwise_tac viewKept_refl viewKept_trans. }
  apply (Hkept (started s)).
Qed.

Lemma submit_component (s : Sys) :
  let c := ui s in
  let t := Js.trim (newMessage c) in
  let s' := snd (submit appId s) in
  db (ui s') = db c
  /\ userId (ui s') = userId c
  /\ (messages (ui s') = messages c
      \/ (messages (ui s') = []
          /\ Js.startsWith teachPrefix t = false /\ Js.startsWith clearPrefix t = true))
  /\ newMessage (ui s')
     = if (Js.nonEmpty t && hasDb (db c) && hasUserId (userId c))%bool
       then "" else newMessage c.
Proof.
  cbn zeta.
  destruct (negb (Js.nonEmpty (Js.trim (newMessage (ui s)))) || negb (hasDb (db (ui s)))
            || negb (hasUserId (userId (ui s))))%bool eqn:G.
  - unfold submit, handleSendMessage. rewrite G. cbn [snd ret].
    repeat split; [now left |].
    destruct (Js.nonEmpty _), (hasDb _), (hasUserId _); cbn in G |- *;
      try discriminate G; reflexivity.
  - rewrite (handleSendMessage_taken s G).
    pose proof (shellKept_dispatch appId (ui s)) as Hd.
    pose proof (shellKept_sendBotResponse appId (ui s)) as Hb.
    match goal with |- context [snd (?m (started s))] =>
      assert (Hshell : stepwise shellKept m);
      [| assert (Hview : stepwise viewKeptOrEmptied m) ] end.
    { unfold sendAndProcess, collection.
      stepwise_tac shellKept_refl shellKept_trans. }
    { pose proof (viewKeptOrEmptied_dispatch appId (ui s)) as Hv.
      pose proof (fun t => viewKeptOrEmptied_kept _
                    (viewKept_sendBotResponse appId (ui s) t "bot")) as Hvb.
      assert (Hadd : forall p sd tx, stepwise viewKeptOrEmptied (addDoc p sd tx))
        by (intros; apply viewKeptOrEmptied_kept; auto with steps).
      assert (Hfin : stepwise viewKeptOrEmptied (setIsLoading false))
        by (apply viewKeptOrEmptied_kept; auto with steps).
      unfold sendAndProcess, collection.
      stepwise_tac viewKeptOrEmptied_refl viewKeptOrEmptied_trans. }
    destruct (Hshell (started s)) as (Hdb & Hu & Hbox).
    split; [exact Hdb |]. split; [exact Hu |]. split.
    + destruct (Js.startsWith teachPrefix (Js.trim (newMessage (ui s)))) eqn:Hteach;
        [| destruct (Js.startsWith clearPrefix (Js.trim (newMessage (ui s)))) eqn:Hclear].
      * left. apply (taken_viewKept s). now left.
      * destruct (Hview (started s)) as [Hk | He]; [now left | right; auto].
      * left. apply (taken_viewKept s). now right.
    + rewrite Hbox.
      destruct (Js.nonEmpty _), (hasDb _), (hasUserId _); cbn in G |- *;
        try discriminate G; reflexivity.
Qed.

(** X7. Whatever the store and the endpoint do, [submit] never changes
    the store handle or the user id; it changes the transcript only by
    emptying it, and only for a clear command; and it empties the message
    box exactly when it takes the input. *)
Theorem submit_touches_component_little (s : Sys) :
  let c := ui s in
  let t := Js.trim (newMessage c) in
  let s' := snd (submit appId s) in
  db (ui s') = db c
  /\ userId (ui s') = userId c
  /\ (messages (ui s') = messages c
      \/ (messages (ui s') = []
          /\ Js.startsWith teachPrefix t = false /\ Js.startsWith clearPrefix t = true))
  /\ newMessage (ui s')
     = if (Js.nonEmpty t && hasDb (db c) && hasUserId (userId c))%bool
       then "" else newMessage c.
Proof. exact (submit_component s). Qed.

End Untouched.

(** ** Requests to the endpoint *)

Lemma fetches_app (a b : list call) : fetches (a ++ b) = fetches a + fetches b.
Proof. unfold fetches. now rewrite List.filter_app, length_app. Qed.

Lemma fetchesWithin_refl (n : nat) (s : Sys) : fetchesWithin n s s.
Proof. exists []. split; [now rewrite app_nil_r | cbn; lia]. Qed.

Lemma fetchesWithin_add (a b : nat) (s1 s2 s3 : Sys) :
  fetchesWithin a s1 s2 -> fetchesWithin b s2 s3 -> fetchesWithin (a + b) s1 s3.
Proof.
  intros (l1 & E1 & F1) (l2 & E2 & F2). exists (l1 ++ l2). split.
  - rewrite E2, E1. now rewrite <- app_assoc.
  - rewrite fetches_app. lia.
Qed.

Lemma fetchesWithin_zero_trans (s1 s2 s3 : Sys) :
  fetchesWithin 0 s1 s2 -> fetchesWithin 0 s2 s3 -> fetchesWithin 0 s1 s3.
Proof. apply (fetchesWithin_add 0 0). Qed.

Lemma fetchesWithin_bind {A B} (a b : nat) (m : M A) (k : A -> M B) :
  stepwise (fetchesWithin a) m -> (forall x, stepwise (fetchesWithin b) (k x)) ->
  stepwise (fetchesWithin (a + b)) (bind m k).
Proof.
  intros Hm Hk s. unfold bind. specialize (Hm s).
  destruct (m s) as [[x|e] s1]; cbn in Hm.
  - apply (fetchesWithin_add _ _ _ _ _ Hm). apply Hk.
  - apply (fetchesWithin_add _ _ _ _ _ Hm). apply fetchesWithin_refl.
Qed.

Lemma fetchesWithin_tryCatch {A} (a b : nat) (m : M A) (h : exn -> M A) :
  stepwise (fetchesWithin a) m -> (forall e, stepwise (fetchesWithin b) (h e)) ->
  stepwise (fetchesWithin (a + b)) (tryCatch m h).
Proof.
  intros Hm Hh s. unfold tryCatch. specialize (Hm s).
  destruct (m s) as [[x|e] s1]; cbn in Hm.
  - apply (fetchesWithin_add _ _ _ _ _ Hm). apply fetchesWithin_refl.
  - apply (fetchesWithin_add _ _ _ _ _ Hm). apply Hh.
Qed.

Lemma fetchesWithin_storeCall {A} (k : call) (accept : Firestore -> A * Firestore) :
  isFetch k = false -> stepwise (fetchesWithin 0) (storeCall k accept).
Proof.
  intros Hk s. exists [k]. unfold storeCall.
  destruct (hd false (faults s)); [| destruct (accept (fs s))];
    (split; [reflexivity | unfold fetches; cbn; rewrite Hk; cbn; lia]).
Qed.

Lemma fetchesWithin_addDoc (path sndr : string) (txt : value) :
  stepwise (fetchesWithin 0) (addDoc path sndr txt).
Proof. addDoc_step (fetchesWithin_refl 0). now apply fetchesWithin_storeCall. Qed.

Lemma fetchesWithin_setDoc (path key qu an : string) :
  stepwise (fetchesWithin 0) (setDoc path key qu an).
Proof. now apply fetchesWithin_storeCall. Qed.

Lemma fetchesWithin_getDocs (path : string) : stepwise (fetchesWithin 0) (getDocs path).
Proof. now apply fetchesWithin_storeCall. Qed.

Lemma fetchesWithin_fetchJson (contents : list Turn) :
  stepwise (fetchesWithin 1) (fetchJson contents).
Proof.
  intros s. exists [CallFetch contents]. unfold fetchJson.
  destruct (endpoint s contents); (split; [reflexivity | cbn; lia]).
Qed.

Lemma fetchesWithin_setMessages (l : list ChatMessage) :
  stepwise (fetchesWithin 0) (setMessages l).
Proof. intros s. apply (fetchesWithin_refl 0 (snd (setMessages l s))). Qed.

Lemma fetchesWithin_setIsLoading (b : bool) : stepwise (fetchesWithin 0) (setIsLoading b).
Proof. intros s. apply (fetchesWithin_refl 0 (snd (setIsLoading b s))). Qed.

Lemma fetchesWithin_setNewMessage (t : string) : stepwise (fetchesWithin 0) (setNewMessage t).
Proof. intros s. apply (fetchesWithin_refl 0 (snd (setNewMessage t s))). Qed.

#[local] Hint Resolve fetchesWithin_addDoc fetchesWithin_setDoc fetchesWithin_getDocs
  fetchesWithin_setMessages fetchesWithin_setIsLoading fetchesWithin_setNewMessage : steps.

Section Requests.

Variable appId : string.
Variable c : App.

Lemma fetchesWithin_sendBotResponse (txt : value) (sndr : string) :
  stepwise (fetchesWithin 0) (sendBotResponse appId c txt sndr).
Proof.
  unfold sendBotResponse, collection.
  stepwise_tac (fetchesWithin_refl 0) fetchesWithin_zero_trans.
Qed.

Lemma fetchesWithin_saveTrainingData (qu an : string) :
  stepwise (fetchesWithin 0) (saveTrainingData appId c qu an).
Proof.
  unfold saveTrainingData, doc.
  stepwise_tac (fetchesWithin_refl 0) fetchesWithin_zero_trans.
Qed.

(** One inference turn makes at most one request. *)
Lemma fetchesWithin_getBotResponse (userMessage : string) :
  stepwise (fetchesWithin 1) (getBotResponse appId c userMessage).
Proof.
  pose proof fetchesWithin_sendBotResponse as Hb.
  unfold getBotResponse.
  apply (fetchesWithin_tryCatch 1 0); [| intros e; apply Hb].
  apply (fetchesWithin_bind 0 1);
    [unfold collection; stepwise_tac (fetchesWithin_refl 0) fetchesWithin_zero_trans |].
  intros path. apply (fetchesWithin_bind 0 1); [auto with steps |].
  intros trainingData. apply (fetchesWithin_bind 1 0); [apply fetchesWithin_fetchJson |].
  intros result. stepwise_tac (fetchesWithin_refl 0) fetchesWithin_zero_trans.
Qed.

(** The commands make none. *)
Lemma fetchesWithin_dispatch_command (t : string) :
  Js.startsWith teachPrefix t = true \/ Js.startsWith clearPrefix t = true ->
  stepwise (fetchesWithin 0) (dispatch appId c t).
Proof.
  intros H. pose proof fetchesWithin_sendBotResponse as Hb.
  pose proof fetchesWithin_saveTrainingData as Hs.
  unfold dispatch. destruct (Js.startsWith teachPrefix t).
  - stepwise_tac (fetchesWithin_refl 0) fetchesWithin_zero_trans.
  - destruct H as [H | H]; [discriminate H |]. rewrite H.
    stepwise_tac (fetchesWithin_refl 0) fetchesWithin_zero_trans.
Qed.

Lemma fetchesWithin_dispatch (t : string) :
  stepwise (fetchesWithin 1) (dispatch appId c t).
Proof.
  destruct (Js.startsWith teachPrefix t) eqn:Hteach;
    [| destruct (Js.startsWith clearPrefix t) eqn:Hclear].
  1-2: intros s; destruct (fetchesWithin_dispatch_command t ltac:(tauto) s) as (l & E & F);
       exists l; split; [exact E | lia].
  unfold dispatch. rewrite Hteach, Hclear. apply fetchesWithin_getBotResponse.
Qed.

(** The whole handler, by what its dispatch makes. *)
Lemma fetchesWithin_handleSendMessage (n : nat) :
  stepwise (fetchesWithin n) (dispatch appId c (Js.trim (newMessage c))) ->
  stepwise (fetchesWithin n) (handleSendMessage appId c).
Proof.
  intros Hd. pose proof fetchesWithin_sendBotResponse as Hb.
  unfold handleSendMessage.
  destruct (negb _ || negb _ || negb _)%bool; [intros s; apply fetchesWithin_refl |].
  apply (fetchesWithin_bind 0 n); [auto with steps |]. intros _.
  apply (fetchesWithin_bind 0 n); [auto with steps |]. intros _.
  intros s. unfold tryFinally.
  match goal with |- context [tryCatch ?m ?h s] =>
    assert (Hm : stepwise (fetchesWithin n) (tryCatch m h)) end.
  { replace n with (n + 0) by lia. apply fetchesWithin_tryCatch; [| intros e; apply Hb].
    unfold sendAndProcess.
    apply (fetchesWithin_bind 0 n);
      [unfold collection; stepwise_tac (fetchesWithin_refl 0) fetchesWithin_zero_trans |].
    intros path. apply (fetchesWithin_bind 0 n); [auto with steps | intros _; exact Hd]. }
  specialize (Hm s). destruct (tryCatch _ _ s) as [r s1]. exact Hm.
Qed.

End Requests.

Section RequestsPerSubmission.

Variable appId : string.

(** X8. Whatever the store and the endpoint do, one submission makes at
    most one request to the endpoint, so no request is ever repeated; and
    it makes none when the input is a teach command or a clear command. *)
Theorem submit_requests_at_most_once (s : Sys) :
  let t := Js.trim (newMessage (ui s)) in
  exists made,
    calls (snd (submit appId s)) = calls s ++ made
    /\ fetches made <= 1
    /\ (Js.startsWith teachPrefix t = true \/ Js.startsWith clearPrefix t = true ->
        fetches made = 0).
Proof.
  cbn zeta. unfold submit.
  destruct (fetchesWithin_handleSendMessage appId (ui s) 1
              (fetchesWithin_dispatch appId (ui s) _) s) as (made & E & F).
  exists made. split; [exact E |]. split; [exact F |].
  intros H.
  destruct (fetchesWithin_handleSendMessage appId (ui s) 0
              (fetchesWithin_dispatch_command appId (ui s) _ H) s) as (made' & E' & F').
  rewrite E in E'. apply app_inv_head in E'. subst made'. lia.
Qed.

End RequestsPerSubmission.

(** ** The key of a training pair *)

Lemma keepsKeyed_refl (s : Sys) : keepsKeyed s s.
Proof. intros H. exact H. Qed.

Lemma keepsKeyed_trans (s1 s2 s3 : Sys) :
  keepsKeyed s1 s2 -> keepsKeyed s2 s3 -> keepsKeyed s1 s3.
Proof. unfold keepsKeyed. auto. Qed.

Lemma keepsKeyed_storeCall {A} (k : call) (accept : Firestore -> A * Firestore) :
  (forall f, keyedByQuestion f -> keyedByQuestion (snd (accept f))) ->
  stepwise keepsKeyed (storeCall k accept).
Proof.
  intros Hacc s Hq. unfold storeCall.
  destruct (hd false (faults s)); [exact Hq |].
  specialize (Hacc (fs s) Hq). now destruct (accept (fs s)).
Qed.

Lemma keepsKeyed_addDoc (path sndr : string) (txt : value) :
  stepwise keepsKeyed (addDoc path sndr txt).
Proof.
  addDoc_step keepsKeyed_refl.
  apply keepsKeyed_storeCall. intros f Hf. exact Hf.
Qed.

Lemma keepsKeyed_getDocs (path : string) : stepwise keepsKeyed (getDocs path).
Proof. apply keepsKeyed_storeCall. intros f Hf. exact Hf. Qed.

Lemma keepsKeyed_setDoc (base qu an : string) (ref : DocumentReference) :
  docRef base (Js.toLowerCase qu) = Some ref ->
  stepwise keepsKeyed (setDoc (refPath ref) (refId ref) qu an).
Proof.
  intros Href. destruct ref as [path key]. cbn [refPath refId].
  apply keepsKeyed_storeCall. intros f Hf path' key' data. cbn [snd].
  destruct (decide (path = path')) as [<-|Hne].
  - rewrite trainingAt_upsertTraining.
    destruct (decide (key = key')) as [<-|Hk].
    + rewrite lookup_insert_eq. intros [= <-]. now exists base.
    + rewrite lookup_insert_ne by exact Hk. apply Hf.
  - rewrite trainingAt_upsertTraining_ne by exact Hne. apply Hf.
Qed.

Lemma keepsKeyed_fetchJson (contents : list Turn) : stepwise keepsKeyed (fetchJson contents).
Proof. intros s Hq. unfold fetchJson. now destruct (endpoint s contents). Qed.

Lemma keepsKeyed_setMessages (l : list ChatMessage) : stepwise keepsKeyed (setMessages l).
Proof. intros s Hq. exact Hq. Qed.

Lemma keepsKeyed_setIsLoading (b : bool) : stepwise keepsKeyed (setIsLoading b).
Proof. intros s Hq. exact Hq. Qed.

Lemma keepsKeyed_setNewMessage (t : string) : stepwise keepsKeyed (setNewMessage t).
Proof. intros s Hq. exact Hq. Qed.

#[local] Hint Resolve keepsKeyed_addDoc keepsKeyed_getDocs
  keepsKeyed_fetchJson keepsKeyed_setMessages keepsKeyed_setIsLoading
  keepsKeyed_setNewMessage : steps.

Section Keys.

Variable appId : string.

Lemma keepsKeyed_saveTrainingData (c : App) (qu an : string) :
  stepwise keepsKeyed (saveTrainingData appId c qu an).
Proof.
  intros s. unfold saveTrainingData, doc, bind, ret, liftRes.
  destruct (negb _ || negb _)%bool; [apply keepsKeyed_refl |].
  destruct (hasDb (db c)); [| apply keepsKeyed_refl].
  destruct (docRef _ _) as [ref|] eqn:E; [| apply keepsKeyed_refl].
  apply (keepsKeyed_setDoc _ _ _ _ E).
Qed.

(** X9. Whatever is submitted and whatever the store and the endpoint do,
    a store in which every training pair lies where [doc] points for its
    lower-cased question stays so: [submit] never writes a pair
    elsewhere.  In such a store a pair whose question holds no slash lies
    under its lower-cased question; a slash in the question makes the id
    differ from it. *)
Theorem submit_keeps_pairs_under_their_question (s : Sys) :
  keyedByQuestion (fs s) ->
  keyedByQuestion (fs (snd (submit appId s)))
  /\ forall path key data,
       trainingAt path (fs (snd (submit appId s))) !! key = Some data ->
       Js.occurs "/" (question data) = false ->
       key = Js.toLowerCase (question data).
Proof.
  intros Hk.
  assert (H : stepwise keepsKeyed (handleSendMessage appId (ui s))).
  { pose proof (keepsKeyed_saveTrainingData (ui s)) as Hsave.
    unfold handleSendMessage, sendAndProcess, dispatch, getBotResponse, sendBotResponse,
      collection.
    stepwise_tac keepsKeyed_refl keepsKeyed_trans. }
  pose proof (H s Hk) as Hk'. split; [exact Hk' |].
  intros path key data Hdata Hslash.
  destruct (Hk' path key data Hdata) as [base Href].
  apply docRef_slashless in Href; [| now rewrite occurs_toLowerCase_slash].
  now injection Href as _ ->.
Qed.

End Keys.

(** ** The exceptions that leave the handlers *)

Section Escapes.

Variable appId : string.

(** What running a report, the last resort of a handler, comes to. *)
Lemma report_outcome (c : App) (txt : string) (s : Sys) :
  (fst (sendBotResponse appId c (VStr txt) "bot" s) = Ok tt)
  \/ (sendBotResponse appId c (VStr txt) "bot" s
      = (Throw StoreError, afterCall (CallAddDoc (chatPath appId c) "bot" (VStr txt)) (fs s) s)
      /\ hd false (faults s) = true).
Proof.
  unfold sendBotResponse, collection.
  destruct (negb (hasDb (db c)) || negb (hasUserId (userId c)))%bool eqn:G; [now left |].
  apply orb_false_elim in G as [G _]. apply negb_false_iff in G. rewrite G.
  unfold bind, ret, addDoc, storeCall. cbn [storable].
  destruct (hd false (faults s)); [now right | now left].
Qed.

(** X10. The only exception that can leave [submit] is the store's
    rejection of the generic error message: a failure of the endpoint, of
    the parsing of its answer or of the reading of its shape never
    reaches the caller.  When [submit] throws, its last call is the
    addition of that message, nothing of it is in the store, and the busy
    flag is cleared. *)
Theorem submit_throws_only_a_rejected_report (s : Sys) (e : exn) :
  fst (submit appId s) = Throw e ->
  e = StoreError
  /\ last (calls (snd (submit appId s)))
     = Some (CallAddDoc (chatPath appId (ui s)) "bot" (VStr oopsText))
  /\ isLoading (ui (snd (submit appId s))) = false.
Proof.
  destruct (negb (Js.nonEmpty (Js.trim (newMessage (ui s)))) || negb (hasDb (db (ui s)))
            || negb (hasUserId (userId (ui s))))%bool eqn:G.
  - unfold submit, handleSendMessage. rewrite G. discriminate.
  - rewrite (handleSendMessage_taken appId s G). unfold tryFinally, tryCatch.
    destruct (sendAndProcess appId (ui s) _ (started s)) as [[u|e0] s1]; [discriminate |].
    destruct (report_outcome (ui s) oopsText s1) as [Hok | [Hthrow _]].
    + destruct (sendBotResponse appId (ui s) (VStr oopsText) "bot" s1) as [r s2].
      cbn in Hok. subst r. discriminate.
    + rewrite Hthrow. cbn. intros [= <-]. split; [reflexivity |].
      split; [apply last_snoc | reflexivity].
Qed.

(** X11. The only exception that can leave [getBotResponse] is the
    store's rejection of the trouble-connecting message, its last call. *)
Theorem infer_throws_only_a_rejected_report (c : App) (userMessage : string) (s : Sys)
    (e : exn) :
  fst (getBotResponse appId c userMessage s) = Throw e ->
  e = StoreError
  /\ last (calls (snd (getBotResponse appId c userMessage s)))
     = Some (CallAddDoc (chatPath appId c) "bot" (VStr troubleText)).
Proof.
  unfold getBotResponse, tryCatch.
  match goal with |- context [match ?m s with _ => _ end] =>
    destruct (m s) as [[u|e0] s1] end; [discriminate |].
  destruct (report_outcome c troubleText s1) as [Hok | [Hthrow _]].
  - destruct (sendBotResponse appId c (VStr troubleText) "bot" s1) as [r s2].
    cbn in Hok. subst r. discriminate.
  - rewrite Hthrow. cbn. intros [= <-]. split; [reflexivity | apply last_snoc].
Qed.

(** X12. Without a store handle [getBotResponse] makes no call and
    changes nothing; without a user id it may read the training data and
    ask the endpoint, but it writes no message.  In both cases it returns
    without an exception. *)
Theorem infer_without_identity_writes_nothing (c : App) (userMessage : string) (s : Sys) :
  (hasDb (db c) = false -> getBotResponse appId c userMessage s = (Ok tt, s))
  /\ (hasUserId (userId c) = false ->
      fst (getBotResponse appId c userMessage s) = Ok tt
      /\ chat_history (fs (snd (getBotResponse appId c userMessage s))) = chat_history (fs s)
      /\ training_data (fs (snd (getBotResponse appId c userMessage s)))
         = training_data (fs s)).
Proof.
  split.
  - intros Hdb. unfold getBotResponse, tryCatch, bind, collection, sendBotResponse.
    now rewrite Hdb.
  - intros Hu.
    assert (Hsend : forall txt, sendBotResponse appId c txt "bot" = ret tt).
    { intros txt. unfold sendBotResponse. now rewrite Hu, orb_true_r. }
    split; [| split].
    + unfold getBotResponse, tryCatch.
      match goal with |- context [match ?m s with _ => _ end] =>
        destruct (m s) as [[[]|e0] s1] end; [reflexivity | now rewrite Hsend].
    + unfold getBotResponse.
      set (R := fun a b : Sys => chat_history (fs b) = chat_history (fs a)).
      assert (Hrefl : forall a, R a a) by reflexivity.
      assert (Hquiet : forall txt, stepwise R (sendBotResponse appId c txt "bot"))
        by (intros txt; rewrite Hsend; now apply stepwise_ret).
      assert (Htrans : forall a b d, R a b -> R b d -> R a d) by (unfold R; congruence).
      assert (Hget : forall p, stepwise R (getDocs p)).
      { intros p a. unfold R, getDocs, storeCall. now destruct (hd false (faults a)). }
      assert (Hfetch : forall l, stepwise R (fetchJson l)).
      { intros l a. unfold R, fetchJson. now destruct (endpoint a l). }
      match goal with |- context [snd (?m s)] => assert (Hm : stepwise R m) end.
      { unfold collection. stepwise_tac Hrefl Htrans. }
      apply (Hm s).
    + apply (trainingKept_getBotResponse appId c userMessage s).
Qed.

End Escapes.

(** ** When reading the response throws *)

Lemma getProp_nullish (v : value) (k : string) :
  isNullish v = true -> getProp v k = Throw TypeError.
Proof. now destruct v. Qed.

Lemma getProp_defined (v : value) (k : string) :
  isNullish v = false -> exists w, getProp v k = Ok w.
Proof.
  destruct v; cbn; try discriminate; intros _; eauto.
  - destruct (String.eqb k "length"); [eauto |].
    destruct (Num.arrayIndex k) as [i|]; [| eauto]. destruct (String.get i s); eauto.
  - destruct (String.eqb k "length"); [eauto |].
    destruct (Num.arrayIndex k); eauto.
Qed.

Lemma truthy_defined (v : value) : truthy v = true -> isNullish v = false.
Proof. now destruct v. Qed.

Lemma getPath_app (v : value) (ks more : list string) :
  getPath v (ks ++ more)
  = match getPath v ks with
    | Ok w => getPath w more
    | Throw e => Throw e
    end.
Proof.
  revert v. induction ks as [|k ks IH]; intros v; [reflexivity |].
  cbn [getPath app]. destruct (getProp v k); [apply IH | reflexivity].
Qed.

(** Reduces the condition after an access has been rewritten. *)
Ltac shape_step := cbv beta iota; cbn [andAlso].

(** The condition either yields a truth value, on a response that is
    none of those on which it throws, or throws a TypeError, on one of
    them. *)
Lemma shape_cases (result : value) :
  (exists b, hasCandidateText result = Ok b /\ ~ ShapeThrows result)
  \/ (hasCandidateText result = Throw TypeError /\ ShapeThrows result).
Proof.
  unfold hasCandidateText, operand, isTruthy, gtZero. cbn [getPath].
  destruct (isNullish result) eqn:N0.
  { right. rewrite (getProp_nullish result _ N0). now split; [| apply throws_result]. }
  destruct (getProp_defined result "candidates" N0) as [cands Hc]. rewrite Hc. shape_step.
  destruct (truthy cands) eqn:T1; shape_step.
  2: { left. eexists. split; [reflexivity |]. intros H. destruct H; congruence. }
  destruct (getProp_defined cands "length" (truthy_defined _ T1)) as [len Hl].
  rewrite Hl. shape_step.
  destruct (toPrimitiveThrows len) eqn:P1; shape_step.
  { right. split; [reflexivity |]. now apply (throws_length result cands len). }
  destruct (positive len) eqn:G1; shape_step.
  2: { left. eexists. split; [reflexivity |]. intros H. destruct H; congruence. }
  destruct (getProp_defined cands "0" (truthy_defined _ T1)) as [first Hf].
  rewrite Hf. shape_step.
  destruct (isNullish first) eqn:N1.
  { right. rewrite (getProp_nullish first _ N1). shape_step.
    split; [reflexivity |]. now apply (throws_candidate result cands len first). }
  destruct (getProp_defined first "content" N1) as [content Hco]. rewrite Hco. shape_step.
  destruct (truthy content) eqn:T2; shape_step.
  2: { left. eexists. split; [reflexivity |]. intros H. destruct H; congruence. }
  destruct (getProp_defined content "parts" (truthy_defined _ T2)) as [prts Hp].
  rewrite Hp. shape_step.
  destruct (truthy prts) eqn:T3; shape_step.
  2: { left. eexists. split; [reflexivity |]. intros H. destruct H; congruence. }
  destruct (getProp_defined prts "length" (truthy_defined _ T3)) as [plen Hpl].
  rewrite Hpl. shape_step.
  destruct (toPrimitiveThrows plen) eqn:P2; shape_step.
  { right. split; [reflexivity |].
    now apply (throws_parts_length result cands len first content prts plen). }
  left. eexists. split; [reflexivity |]. intros H. destruct H; congruence.
Qed.

(** X13. The condition on the response throws exactly when the response
    is [null] or [undefined]; or [candidates] is truthy and its [length]
    does not convert to a primitive; or that length is positive and the
    element 0 of [candidates] is [null] or [undefined]; or the condition
    reaches the length of [parts] and that length does not convert to a
    primitive.  What it throws is a TypeError.  In every other case it
    yields true or false: the accesses to [content] and [parts] never
    throw. *)
Theorem shape_test_throws_iff (result : value) :
  (forall e, hasCandidateText result = Throw e -> e = TypeError)
  /\ ((exists e, hasCandidateText result = Throw e) <-> ShapeThrows result).
Proof.
  destruct (shape_cases result) as [(b & Hb & Hnot) | [Ht Hthrows]].
  - rewrite Hb. split; [discriminate |]. split.
    + intros [e He]. discriminate He.
    + intros H. now contradiction Hnot.
  - rewrite Ht. split; [now intros e [= <-] |]. split; [intros _; exact Hthrows | eauto].
Qed.

(** X14. When the condition holds, the first part of the first candidate
    can be read; the text read from it is then [undefined] or a value,
    unless that part is [null] or [undefined], in which case reading its
    text throws a TypeError. *)
Theorem text_read_throws_iff (result : value) :
  hasCandidateText result = Ok true ->
  exists part,
    getPath result firstPart = Ok part
    /\ (isNullish part = true -> getPath result candidateText = Throw TypeError)
    /\ (isNullish part = false -> exists botText, getPath result candidateText = Ok botText).
Proof.
  unfold hasCandidateText, operand, isTruthy, firstPart.
  change candidateText with (["candidates"; "0"; "content"; "parts"; "0"] ++ ["text"]).
  rewrite getPath_app.
  change ["candidates"; "0"; "content"; "parts"; "0"]
    with (["candidates"; "0"; "content"; "parts"] ++ ["0"]).
  rewrite getPath_app.
  change ["candidates"; "0"; "content"; "parts"; "length"]
    with (["candidates"; "0"; "content"; "parts"] ++ ["length"]).
  rewrite getPath_app.
  destruct (getPath result ["candidates"]) as [cands|e]; [| discriminate]. shape_step.
  destruct (truthy cands); [| discriminate]. shape_step.
  destruct (getPath result ["candidates"; "length"]) as [len|e]; [| discriminate]. shape_step.
  destruct (gtZero len) as [[|]|e]; try discriminate. shape_step.
  destruct (getPath result ["candidates"; "0"; "content"]) as [content|e]; [| discriminate].
  shape_step. destruct (truthy content); [| discriminate]. shape_step.
  destruct (getPath result ["candidates"; "0"; "content"; "parts"]) as [prts|e];
    [| discriminate].
  shape_step. destruct (truthy prts) eqn:T; [| discriminate]. shape_step.
  intros _. cbn [getPath].
  destruct (getProp_defined prts "0" (truthy_defined _ T)) as [part Hpart].
  rewrite Hpart. exists part. split; [reflexivity |]. split.
  - intros N. now rewrite (getProp_nullish part _ N).
  - intros N. destruct (getProp_defined part "text" N) as [v Hv]. rewrite Hv. eauto.
Qed.

(** ** The next snapshot after a clear command *)

Section ClearUndone.

Variable appId : string.

(** X15. A clear command does not last: the store having accepted the
    calls, the first snapshot after it, which holds the conversation as
    the store has it, fills the transcript with the whole stored
    conversation again, the messages from before the command included,
    followed by the command itself and the confirmation. *)
Theorem clear_is_undone_by_next_snapshot (s : Sys) :
  let c := ui s in
  let t := Js.trim (newMessage c) in
  let now := clock (fs s) in
  Js.nonEmpty t = true -> hasDb (db c) = true -> hasUserId (userId c) = true ->
  accepting (faults s) = true ->
  Js.startsWith clearPrefix t = true ->
  let s' := snd (submit appId s) in
  messages (ui (snd (onSnapshot (settledSnapshot appId s') s')))
  = chatAt (chatPath appId c) (fs s)
    ++ [mkChatMessage now "user" (VStr t) (Some now);
        mkChatMessage (S now) "bot" (VStr clearedText) (Some (S now))].
Proof.
  cbn zeta. intros Ht Hdb Hu Hst Hp.
  rewrite (submit_clear_accepted appId s Ht Hdb Hu Hst Hp).
  unfold onSnapshot, settledSnapshot. settle.
  change (chatPath appId _) with (chatPath appId (ui s)).
  rewrite !chatAt_appendChat. settle. now rewrite <- app_assoc.
Qed.

End ClearUndone.

(** ** The life of the component *)

Lemma fold_left_invariant {A B} (P : A -> Prop) (f : A -> B -> A) (l : list B) (a : A) :
  P a -> (forall x b, P x -> P (f x b)) -> P (fold_left f l a).
Proof.
  intros Ha Hstep. revert a Ha. induction l as [|b l IH]; intros a Ha; [exact Ha |].
  cbn. apply IH. now apply Hstep.
Qed.

Section LifeFacts.

Variable appId : string.
Variable initialAuthToken : option string.

Local Abbreviation react' := (react appId initialAuthToken).
Local Abbreviation run' := (run appId initialAuthToken).

(** The busy flag is clear after a submission started with a clear
    flag. *)
Lemma submit_clears_flag (s : Sys) :
  isLoading (ui s) = false -> isLoading (ui (snd (submit appId s))) = false.
Proof.
  intros H.
  destruct (negb (Js.nonEmpty (Js.trim (newMessage (ui s)))) || negb (hasDb (db (ui s)))
            || negb (hasUserId (userId (ui s))))%bool eqn:G.
  - unfold submit, handleSendMessage. now rewrite G.
  - rewrite (handleSendMessage_taken appId s G). apply tryFinally_setIsLoading.
Qed.

Lemma sound_initialize (o : setup) (f : Firestore) (fl : list bool)
    (ep : list Turn -> fetched) :
  sound (initialize o (mounted f fl ep)).
Proof.
  destruct o; unfold sound; cbn; repeat split; try reflexivity; try discriminate;
    now contradiction H.
Qed.

Lemma sound_step (p : Page) (e : event) : sound p -> sound (react' e p).
Proof.
  intros Hp. pose proof Hp as (Hl & Hu & Hb).
  destruct e as [user fails|docs|t| |]; cbn [react].
  - destruct (listening p) eqn:L; [| exact Hp].
    destruct user as [uid|]; [| destruct fails].
    + split; [intros _; now apply Hl | split; [intros _; split; [reflexivity | exact L] | exact Hb]].
    + split; [intros _; now apply Hl | split; [intros _; split; [reflexivity | exact L] | exact Hb]].
    + exact Hp.
  - destruct (subscribed p); exact Hp.
  - destruct (formEnabled p); exact Hp.
  - destruct (formEnabled p); [| exact Hp].
    destruct (submit_component appId (sys p)) as (Hdb & Hid & _).
    split; [| split].
    + intros L. cbn [withSys sys]. rewrite Hdb. now apply Hl.
    + cbn [withSys sys]. rewrite Hid. exact Hu.
    + cbn [withSys sys]. now apply submit_clears_flag.
  - destruct (isAuthReady p); exact Hp.
Qed.

Lemma sound_run (o : setup) (evs : list event) (f : Firestore) (fl : list bool)
    (ep : list Turn -> fetched) :
  sound (run' o evs (mounted f fl ep)).
Proof.
  unfold run. apply fold_left_invariant; [apply sound_initialize |].
  intros p e Hp. now apply sound_step.
Qed.

(** X16. In every state the component reaches from its mounting, by any
    outcome of the first effect and any events, a user id is only known
    together with readiness and a store handle: of the three things
    [handleSendMessage] and the subscription check, the user id implies
    the other two. *)
Theorem user_id_implies_ready_and_handle (o : setup) (evs : list event) (f : Firestore)
    (fl : list bool) (ep : list Turn -> fetched) :
  let p := run' o evs (mounted f fl ep) in
  userId (ui (sys p)) <> None ->
  isAuthReady p = true /\ hasDb (db (ui (sys p))) = true.
Proof.
  cbn zeta. intros Hu.
  destruct (sound_run o evs f fl ep) as (Hl & Hid & _).
  destruct (Hid Hu) as [Hr L]. split; [exact Hr |]. now rewrite (Hl L).
Qed.

(** X17. In every state the component reaches, each submission having
    run to its end, the busy flag is clear: no outcome of a submission
    leaves the form disabled, which is enabled whenever it is shown. *)
Theorem busy_flag_is_clear_at_rest (o : setup) (evs : list event) (f : Firestore)
    (fl : list bool) (ep : list Turn -> fetched) :
  let p := run' o evs (mounted f fl ep) in
  isLoading (ui (sys p)) = false
  /\ formEnabled p = isAuthReady p.
Proof.
  cbn zeta. destruct (sound_run o evs f fl ep) as (_ & _ & Hb).
  split; [exact Hb |]. unfold formEnabled. rewrite Hb. apply andb_true_r.
Qed.

(** No event but a snapshot puts messages into the transcript. *)
Lemma shown_step (seen : list event) (p : Page) (e : event) :
  delivered seen (messages (ui (sys p))) ->
  delivered (seen ++ [e]) (messages (ui (sys (react' e p)))).
Proof.
  intros H.
  assert (Hkept : delivered (seen ++ [e]) (messages (ui (sys p)))).
  { destruct H as [H | H]; [now left | right]. apply in_or_app. now left. }
  destruct e as [user fails|docs|t| |]; cbn [react].
  - destruct (listening p); [| exact Hkept]. destruct user; [| destruct fails]; exact Hkept.
  - destruct (subscribed p); [| exact Hkept].
    right. apply in_or_app. right. now left.
  - destruct (formEnabled p); exact Hkept.
  - destruct (formEnabled p); [| exact Hkept]. cbn [withSys sys].
    destruct (submit_component appId (sys p)) as (_ & _ & [Hsame | [Hempty _]] & _).
    + now rewrite Hsame.
    + rewrite Hempty. now left.
  - destruct (isAuthReady p); exact Hkept.
Qed.

Lemma shown_fold (evs seen : list event) (p : Page) :
  delivered seen (messages (ui (sys p))) ->
  delivered (seen ++ evs) (messages (ui (sys (fold_left (fun q e => react' e q) evs p)))).
Proof.
  revert seen p. induction evs as [|e evs IH]; intros seen p H.
  - now rewrite app_nil_r.
  - cbn [fold_left]. replace (seen ++ e :: evs) with ((seen ++ [e]) ++ evs)
      by now rewrite <- app_assoc.
    apply IH. now apply shown_step.
Qed.

(** X18. In every state the component reaches, the transcript shown is
    empty or is, whole and in its order, what one of the snapshots
    delivered: the component itself never puts a message into the
    transcript, not even the one it has just sent. *)
Theorem transcript_is_empty_or_a_snapshot (o : setup) (evs : list event)
    (f : Firestore) (fl : list bool) (ep : list Turn -> fetched) :
  delivered evs (messages (ui (sys (run' o evs (mounted f fl ep))))).
Proof.
  unfold run. apply (shown_fold evs []). left. now destruct o.
Qed.

(** Until the listener is called with a user, nothing leaves the
    component. *)
Lemma quiet_step (p : Page) (e : event) :
  userId (ui (sys p)) = None -> bringsUser e = false ->
  userId (ui (sys (react' e p))) = None
  /\ calls (sys (react' e p)) = calls (sys p)
  /\ fs (sys (react' e p)) = fs (sys p).
Proof.
  intros Hu He. destruct e as [user fails|docs|t| |]; cbn [react].
  - destruct (listening p); [| auto]. destruct user; [discriminate He |].
    destruct fails; auto.
  - unfold subscribed. rewrite Hu. cbn. rewrite andb_false_r. auto.
  - destruct (formEnabled p); auto.
  - destruct (formEnabled p); [| auto]. cbn [withSys sys].
    rewrite submit_ignored by (right; right; now rewrite Hu). auto.
  - destruct (isAuthReady p); auto.
Qed.

(** X19. As long as the listener of the authentication state has not
    been called with a user, whatever is typed and submitted, the
    component makes no call to the store or the endpoint and the store
    is as it was. *)
Theorem no_call_before_a_user_is_known (o : setup) (evs : list event) (f : Firestore)
    (fl : list bool) (ep : list Turn -> fetched) :
  let p := run' o evs (mounted f fl ep) in
  existsb bringsUser evs = false ->
  calls (sys p) = [] /\ fs (sys p) = f /\ userId (ui (sys p)) = None.
Proof.
  cbn zeta. unfold run.
  assert (H0 : userId (ui (sys (initialize o (mounted f fl ep)))) = None
               /\ calls (sys (initialize o (mounted f fl ep))) = []
               /\ fs (sys (initialize o (mounted f fl ep))) = f)
    by (destruct o; auto).
  revert H0. generalize (initialize o (mounted f fl ep)) as p.
  induction evs as [|e evs IH]; intros p (Hu & Hc & Hf) Hev; [auto |].
  cbn in Hev. apply orb_false_elim in Hev as [He Hev].
  destruct (quiet_step p e Hu He) as (Hu' & Hc' & Hf').
  cbn [fold_left]. apply IH; [| exact Hev].
  rewrite Hc', Hf'. auto.
Qed.

Lemma ready_step (p : Page) (e : event) :
  listening (react' e p) = listening p
  /\ isAuthReady (react' e p) = (isAuthReady p || (listening p && settlesAuth e))%bool.
Proof.
  destruct e as [user fails|docs|t| |]; cbn [react settlesAuth];
    rewrite ?andb_false_r, ?orb_false_r.
  - destruct (listening p) eqn:L; [| now rewrite orb_false_r].
    destruct user; [cbn; now rewrite L, orb_true_r |].
    destruct fails; cbn; rewrite L, ?orb_true_r, ?orb_false_r; auto.
  - destruct (subscribed p); auto.
  - destruct (formEnabled p); auto.
  - destruct (formEnabled p); auto.
  - destruct (isAuthReady p) eqn:R; cbn; auto.
Qed.

Lemma ready_fold (evs : list event) (p : Page) :
  isAuthReady (fold_left (fun q e => react' e q) evs p)
  = (isAuthReady p || (listening p && existsb settlesAuth evs))%bool.
Proof.
  revert p. induction evs as [|e evs IH]; intros p.
  - cbn. now rewrite andb_false_r, orb_false_r.
  - cbn [fold_left existsb]. rewrite IH.
    destruct (ready_step p e) as [-> ->].
    destruct (isAuthReady p), (listening p), (settlesAuth e), (existsb settlesAuth evs);
      reflexivity.
Qed.

(** X20. The component leaves its loading screen exactly when the first
    effect threw, or the listener of the authentication state was called
    with a user, or a sign-in it attempted failed; and once ready it
    stays ready.  A sign-in that succeeds does not by itself make the
    component ready. *)
Theorem ready_exactly_when_auth_settles (o : setup) (evs more : list event) (f : Firestore)
    (fl : list bool) (ep : list Turn -> fetched) :
  isAuthReady (run' o evs (mounted f fl ep))
  = match o with
    | SetupDone => existsb settlesAuth evs
    | SetupThrows | ListenerThrows => true
    end
  /\ (isAuthReady (run' o evs (mounted f fl ep)) = true ->
      isAuthReady (run' o (evs ++ more) (mounted f fl ep)) = true).
Proof.
  unfold run. split.
  - rewrite ready_fold. destruct o; reflexivity.
  - rewrite fold_left_app, (ready_fold more). intros ->. reflexivity.
Qed.

End LifeFacts.

(** ** Failures of single calls *)

Section SingleFailures.

Variable appId : string.

(** X21. The acknowledgement of a teach command is only sent once the
    store has accepted the training pair: whatever the store does, if
    the calls of the submission include the acknowledgement, the
    lower-cased question names a document and the pair is in the store
    at that reference. *)
Theorem acknowledged_only_when_stored (s : Sys) (part0 part1 : string) :
  let c := ui s in
  let t := Js.trim (newMessage c) in
  let s' := snd (submit appId s) in
  Js.nonEmpty t = true -> hasDb (db c) = true -> hasUserId (userId c) = true ->
  Js.startsWith teachPrefix t = true ->
  Js.split teachSep (Js.substring (String.length teachPrefix) t) = [part0; part1] ->
  exists made,
    calls s' = calls s ++ made
    /\ (In (CallAddDoc (chatPath appId c) "bot" (VStr ackText)) made ->
        exists ref data,
          docRef (trainingPath appId c) (Js.toLowerCase (Js.removeQuotes part0)) = Some ref
          /\ trainingAt (refPath ref) (fs s') !! refId ref = Some data
          /\ question data = Js.removeQuotes part0 /\ answer data = Js.removeQuotes part1).
Proof.
  cbn zeta. intros Ht Hdb Hu Hp Hs. unfold submit.
  rewrite (handleSendMessage_guarded appId (ui s) Hdb Hu s Ht).
  unfold tryFinally, tryCatch.
  pose proof (sendBotResponse_run appId (ui s) Hdb Hu) as Hsend.
  destruct (hd false (faults s)) eqn:E1.
  - rewrite (sendAndProcess_rejected appId (ui s) Hdb _ (started s)) by exact E1.
    rewrite Hsend. unfold addDoc, storeCall. cbn [storable]. settle.
    destruct (hd false (tl (faults s))); cbn;
      (eexists; split; [rewrite <- app_assoc; reflexivity |]);
      intros [H | [H | []]]; discriminate H.
  - rewrite (sendAndProcess_accepted appId (ui s) Hdb _ (started s)) by exact E1.
    unfold dispatch. rewrite Hp, Hs. unfold bind.
    destruct (docRef (trainingPath appId (ui s)) (Js.toLowerCase (Js.removeQuotes part0)))
      as [ref|] eqn:Href.
    2: { rewrite (saveTrainingData_refused appId (ui s) Hdb Hu) by exact Href.
         rewrite Hsend. unfold addDoc, storeCall. cbn [storable]. settle.
         destruct (hd false (tl (faults s))); cbn;
           (eexists; split; [rewrite <- app_assoc; reflexivity |]);
           intros [H | [H | []]]; discriminate H. }
    rewrite (saveTrainingData_run appId (ui s) Hdb Hu _ _ ref) by exact Href. unfold setDoc.
    destruct (hd false (tl (faults s))) eqn:E2.
    + rewrite storeCall_rejected by exact E2. rewrite Hsend.
      unfold addDoc, storeCall. cbn [storable]. settle.
      destruct (hd false (tl (tl (faults s)))); cbn;
        (eexists; split; [rewrite <- !app_assoc; reflexivity |]);
        intros [H | [H | [H | []]]]; discriminate H.
    + rewrite storeCall_accepted by exact E2. cbn [fst snd]. rewrite Hsend.
      unfold addDoc, storeCall. cbn [storable]. settle.
      assert (Hstored : forall f',
                 trainingAt (refPath ref) f'
                 = trainingAt (refPath ref)
                     (upsertTraining (refPath ref) (refId ref)
                        (Js.removeQuotes part0) (Js.removeQuotes part1)
                        (appendChat (chatPath appId (ui s)) "user"
                           (VStr (Js.trim (newMessage (ui s)))) (fs s))) ->
                 exists ref' data,
                   Some ref = Some ref'
                   /\ trainingAt (refPath ref') f' !! refId ref' = Some data
                   /\ question data = Js.removeQuotes part0
                   /\ answer data = Js.removeQuotes part1).
      { intros f' Hf'. exists ref. rewrite Hf', trainingAt_upsertTraining, lookup_insert_eq.
        eauto. }
      destruct (hd false (tl (tl (faults s)))) eqn:E3.
      * rewrite Hsend. unfold addDoc, storeCall. cbn [storable]. settle.
        destruct (hd false (tl (tl (tl (faults s))))); cbn;
          (eexists; split; [rewrite <- !app_assoc; reflexivity |]);
          intros _; apply Hstored; reflexivity.
      * cbn. eexists. split; [rewrite <- !app_assoc; reflexivity |].
        intros _. apply Hstored. reflexivity.
Qed.

(** X23. A teach command whose lower-cased question names no document
    teaches nothing.  With the store handle and the identity at hand and
    the store accepting the calls, such a command makes no call that
    writes a training pair: the calls are the two additions to the
    conversation, and the bot answers with the generic error text, not
    with the acknowledgement.  Such a question holds two slashes in a
    row, or the number of its segments is even, as for the empty
    question. *)
Theorem teach_naming_no_document_is_reported (s : Sys) (part0 part1 : string) :
  let c := ui s in
  let t := Js.trim (newMessage c) in
  let cp := chatPath appId c in
  let now := clock (fs s) in
  let id := Js.toLowerCase (Js.removeQuotes part0) in
  hasDb (db c) = true -> hasUserId (userId c) = true -> accepting (faults s) = true ->
  Js.startsWith teachPrefix t = true ->
  Js.split teachSep (Js.substring (String.length teachPrefix) t) = [part0; part1] ->
  (Js.includes "//" id = true \/ Nat.even (List.length (segments id)) = true) ->
  let s' := snd (submit appId s) in
  fst (submit appId s) = Ok tt
  /\ training_data (fs s') = training_data (fs s)
  /\ calls s' = calls s ++ [CallAddDoc cp "user" (VStr t); CallAddDoc cp "bot" (VStr oopsText)]
  /\ chatAt cp (fs s')
     = chatAt cp (fs s)
       ++ [mkChatMessage now "user" (VStr t) (Some now);
           mkChatMessage (S now) "bot" (VStr oopsText) (Some (S now))].
Proof.
  cbn zeta. intros Hdb Hu Hst Hp Hs Hid.
  assert (Ht : Js.nonEmpty (Js.trim (newMessage (ui s))) = true)
    by (destruct (Js.trim (newMessage (ui s))); [discriminate Hp | reflexivity]).
  assert (Href : docRef (trainingPath appId (ui s)) (Js.toLowerCase (Js.removeQuotes part0))
                 = None).
  { unfold docRef. destruct Hid as [Hid | Hid]; [now rewrite Hid |].
    destruct (Js.includes "//" _); [reflexivity |].
    now rewrite <- Nat.negb_even, Hid. }
  rewrite (submit_teach_unreferenced appId s Ht Hdb Hu Hst part0 part1 Hp Hs Href).
  settle. repeat split.
  - now rewrite <- app_assoc.
  - rewrite !chatAt_appendChat. settle. now rewrite <- app_assoc.
Qed.

(** X24. When the condition on the response holds and the text read from
    the first part is one the store client cannot encode, as when the
    part holds no text at all, the failed addition is caught: with the
    store handle and the identity at hand and the store accepting the
    calls, [infer] returns and the one bot message is the
    trouble-connecting text. *)
Theorem text_that_cannot_be_stored_gives_trouble (s : Sys) (userMessage : string)
    (result botText : value) :
  let c := ui s in
  let cp := chatPath appId c in
  let now := clock (fs s) in
  hasDb (db c) = true -> hasUserId (userId c) = true -> accepting (faults s) = true ->
  endpoint s (contentsSent appId c userMessage s) = Body result ->
  hasCandidateText result = Ok true ->
  getPath result candidateText = Ok botText ->
  storable botText = false ->
  let s' := snd (infer appId userMessage s) in
  fst (infer appId userMessage s) = Ok tt
  /\ chatAt cp (fs s')
     = chatAt cp (fs s) ++ [mkChatMessage now "bot" (VStr troubleText) (Some now)]
  /\ calls s'
     = calls s ++ [CallGetDocs (trainingPath appId c);
                   CallFetch (contentsSent appId c userMessage s);
                   CallAddDoc cp "bot" (VStr troubleText)].
Proof.
  cbn zeta. intros Hdb Hu Hst Hep Hshape Htext Hv. unfold infer.
  rewrite (getBotResponse_accepted appId (ui s) Hdb Hu userMessage s Hst).
  unfold inferred, replyTo. rewrite Hep, Hshape, Htext, Hv.
  settle. repeat split.
  - now rewrite chatAt_appendChat.
  - now rewrite <- !app_assoc.
Qed.

(** X22. When the training data cannot be read, [getBotResponse] makes
    no request to the endpoint; the store accepting the next call, it
    returns and the one message added is the trouble-connecting text. *)
Theorem infer_without_training_data (c : App) (userMessage : string) (s : Sys) :
  hasDb (db c) = true -> hasUserId (userId c) = true ->
  hd false (faults s) = true ->
  hd false (tl (faults s)) = false ->
  let s' := snd (getBotResponse appId c userMessage s) in
  fst (getBotResponse appId c userMessage s) = Ok tt
  /\ calls s'
     = calls s ++ [CallGetDocs (trainingPath appId c);
                   CallAddDoc (chatPath appId c) "bot" (VStr troubleText)]
  /\ chatAt (chatPath appId c) (fs s')
     = chatAt (chatPath appId c) (fs s)
       ++ [mkChatMessage (clock (fs s)) "bot" (VStr troubleText) (Some (clock (fs s)))].
Proof.
  cbn zeta. intros Hdb Hu E1 E2.
  unfold getBotResponse, tryCatch, bind, collection, getDocs. rewrite Hdb. cbn [ret].
  rewrite storeCall_rejected by exact E1.
  rewrite (sendBotResponse_accepted appId c Hdb Hu) by exact E2.
  cbn [fst snd afterCall calls fs]. repeat split.
  - now rewrite <- app_assoc.
  - apply chatAt_appendChat.
Qed.

End SingleFailures.

(** ** The further properties on concrete systems *)

Lemma keyedByQuestion_empty (n : nat) : keyedByQuestion (mkFirestore ∅ ∅ n).
Proof.
  intros path key data H. unfold trainingAt in H. cbn in H.
  rewrite lookup_empty in H. cbn in H. rewrite lookup_empty in H. discriminate H.
Qed.

(** X1 on an input of blanks. *)
Lemma submit_ignored_iff_witness :
  let s := sys0 "   " (answering helloResponse) [] in
  submit "app" s = (Ok tt, s).
Proof.
  cbn zeta.
  apply (proj2 (submit_ignored_iff "app" (sys0 "   " (answering helloResponse) []))).
  left. reflexivity.
Defined.

(** X3 on a well-formed teach command. *)
Lemma accepted_teach_reads_back_witness :
  teachCommand "Sky" "blue" = teachPrefix +:+ (dq +:+ "Sky") +:+ teachSep +:+ ("blue" +:+ dq).
Proof.
  exact (accepted_teach_reads_back (teachCommand "Sky" "blue") (dq +:+ "Sky") ("blue" +:+ dq)
           eq_refl eq_refl).
Defined.

(** X4 on a teach command without quotes. *)
Lemma teach_without_quote_is_refused_witness :
  dispatch "app" (app0 "") "/teach hello world"
  = sendBotResponse "app" (app0 "") (VStr usageText) "bot".
Proof.
  exact (teach_without_quote_is_refused "app" (app0 "") "/teach hello world" eq_refl eq_refl).
Defined.

(** X6 on a clear command. *)
Lemma training_changes_only_by_teach_witness :
  let s := sysOld "/clear" (answering helloResponse) [] in
  training_data (fs (snd (submit "app" s))) = training_data (fs s).
Proof.
  cbn zeta.
  apply (training_changes_only_by_teach "app" (sysOld "/clear" (answering helloResponse) [])).
  left. reflexivity.
Defined.

(** X8 on a teach command. *)
Lemma submit_requests_at_most_once_witness :
  let s := sys0 (teachCommand "Sky" "blue") (answering helloResponse) [] in
  exists made, calls (snd (submit "app" s)) = calls s ++ made /\ fetches made = 0.
Proof.
  cbn zeta.
  destruct (submit_requests_at_most_once "app"
              (sys0 (teachCommand "Sky" "blue") (answering helloResponse) []))
    as (made & E & _ & H).
  exists made. split; [exact E |]. apply H. left. reflexivity.
Defined.

(** X9 on a first teach command. *)
Lemma submit_keeps_pairs_under_their_question_witness :
  let s' := snd (submit "app" (sys0 (teachCommand "Sky" "blue") (answering helloResponse) [])) in
  keyedByQuestion (fs s')
  /\ forall path key data,
       trainingAt path (fs s') !! key = Some data ->
       Js.occurs "/" (question data) = false ->
       key = Js.toLowerCase (question data).
Proof.
  cbn zeta.
  apply (submit_keeps_pairs_under_their_question "app"
           (sys0 (teachCommand "Sky" "blue") (answering helloResponse) [])).
  apply keyedByQuestion_empty.
Defined.

(** X10 on a store that rejects the user message and the error message. *)
Lemma submit_throws_only_a_rejected_report_witness :
  let s := sys0 "hello" (answering helloResponse) [true; true] in
  last (calls (snd (submit "app" s)))
  = Some (CallAddDoc (chatPath "app" (ui s)) "bot" (VStr oopsText)).
Proof.
  cbn zeta.
  destruct (submit_throws_only_a_rejected_report "app"
              (sys0 "hello" (answering helloResponse) [true; true]) StoreError eq_refl)
    as (_ & H & _).
  exact H.
Defined.

(** X11 on a failed request followed by a rejected message. *)
Lemma infer_throws_only_a_rejected_report_witness :
  let s := sys0 "" (fun _ => FetchRejected) [false; true] in
  last (calls (snd (getBotResponse "app" (app0 "") "hi" s)))
  = Some (CallAddDoc (chatPath "app" (app0 "")) "bot" (VStr troubleText)).
Proof.
  cbn zeta.
  destruct (infer_throws_only_a_rejected_report "app" (app0 "") "hi"
              (sys0 "" (fun _ => FetchRejected) [false; true]) StoreError eq_refl)
    as (_ & H).
  exact H.
Defined.

(** X12 on a component without a store handle. *)
Lemma infer_without_identity_writes_nothing_witness :
  let s := sys0 "" (answering helloResponse) [] in
  getBotResponse "app" (mkApp None None [] "" false) "hi" s = (Ok tt, s).
Proof.
  cbn zeta.
  apply (proj1 (infer_without_identity_writes_nothing "app" (mkApp None None [] "" false)
                  "hi" (sys0 "" (answering helloResponse) []))).
  reflexivity.
Defined.

(** X13 on the response whose first candidate is null, and on one whose
    list of candidates has a length that does not convert. *)
Lemma shape_test_throws_iff_witness :
  (exists e, hasCandidateText nullCandidate = Throw e)
  /\ (exists e, hasCandidateText oddLength = Throw e).
Proof.
  split.
  - apply (proj2 (proj2 (shape_test_throws_iff nullCandidate))).
    now apply (throws_candidate nullCandidate (VArr [VNull]) (VNum 1) VNull).
  - apply (proj2 (proj2 (shape_test_throws_iff oddLength))).
    now apply (throws_length oddLength (VObj [("length", VObj [("toString", VNum 0)])])
                 (VObj [("toString", VNum 0)])).
Defined.

(** X14 on the response that says hello. *)
Lemma text_read_throws_iff_witness :
  exists part,
    getPath helloResponse firstPart = Ok part
    /\ (isNullish part = true -> getPath helloResponse candidateText = Throw TypeError)
    /\ (isNullish part = false -> exists botText, getPath helloResponse candidateText = Ok botText).
Proof. exact (text_read_throws_iff helloResponse eq_refl). Defined.

(** X15 on a transcript of two messages. *)
Lemma clear_is_undone_by_next_snapshot_witness :
  let s := sysOld "/clear" (answering helloResponse) [] in
  let s' := snd (submit "app" s) in
  messages (ui (snd (onSnapshot (settledSnapshot "app" s') s')))
  = oldMessages ++ [mkChatMessage 3 "user" (VStr "/clear") (Some 3);
                    mkChatMessage 4 "bot" (VStr clearedText) (Some 4)].
Proof.
  cbn zeta.
  exact (clear_is_undone_by_next_snapshot "app" (sysOld "/clear" (answering helloResponse) [])
           eq_refl eq_refl eq_refl eq_refl eq_refl).
Defined.

(** X16 on a listener called with a user. *)
Lemma user_id_implies_ready_and_handle_witness :
  let p := run "app" None SetupDone [AuthStateChanged (Some "u1") false]
               (mounted (mkFirestore ∅ ∅ 0) [] (answering helloResponse)) in
  isAuthReady p = true /\ hasDb (db (ui (sys p))) = true.
Proof.
  cbn zeta.
  apply (user_id_implies_ready_and_handle "app" None SetupDone
           [AuthStateChanged (Some "u1") false] (mkFirestore ∅ ∅ 0) [] (answering helloResponse)).
  discriminate.
Defined.

(** X19 on a failed sign-in followed by a submission. *)
Lemma no_call_before_a_user_is_known_witness :
  let p := run "app" None SetupDone [AuthStateChanged None true; Change "hi"; SubmitForm]
               (mounted (mkFirestore ∅ ∅ 0) [] (answering helloResponse)) in
  calls (sys p) = [] /\ fs (sys p) = mkFirestore ∅ ∅ 0 /\ userId (ui (sys p)) = None.
Proof.
  cbn zeta.
  apply (no_call_before_a_user_is_known "app" None SetupDone
           [AuthStateChanged None true; Change "hi"; SubmitForm]
           (mkFirestore ∅ ∅ 0) [] (answering helloResponse)).
  reflexivity.
Defined.

(** X20 on a failed sign-in followed by a submission. *)
Lemma ready_exactly_when_auth_settles_witness :
  isAuthReady (run "app" None SetupDone ([AuthStateChanged None true] ++ [SubmitForm])
                   (mounted (mkFirestore ∅ ∅ 0) [] (answering helloResponse))) = true.
Proof.
  apply (proj2 (ready_exactly_when_auth_settles "app" None SetupDone
                  [AuthStateChanged None true] [SubmitForm]
                  (mkFirestore ∅ ∅ 0) [] (answering helloResponse))).
  reflexivity.
Defined.

(** X21 on a teach command that is acknowledged. *)
Lemma acknowledged_only_when_stored_witness :
  let s := sys0 (teachCommand "Sky" "blue") (answering helloResponse) [] in
  exists ref data,
    docRef training0 "sky" = Some ref
    /\ trainingAt (refPath ref) (fs (snd (submit "app" s))) !! refId ref = Some data
    /\ question data = "Sky" /\ answer data = "blue".
Proof.
  cbn zeta.
  destruct (acknowledged_only_when_stored "app"
              (sys0 (teachCommand "Sky" "blue") (answering helloResponse) [])
              (dq +:+ "Sky") ("blue" +:+ dq) eq_refl eq_refl eq_refl eq_refl eq_refl)
    as (made & Hcalls & H).
  apply H. vm_compute in Hcalls. rewrite <- Hcalls. right. right. left. reflexivity.
Defined.

(** X23 on a question of two segments. *)
Lemma teach_naming_no_document_is_reported_witness :
  let s := sys0 (teachCommand "a/b" "ok") (answering helloResponse) [] in
  training_data (fs (snd (submit "app" s))) = training_data (fs s)
  /\ chatAt chat0 (fs (snd (submit "app" s)))
     = [mkChatMessage 0 "user" (VStr (teachCommand "a/b" "ok")) (Some 0);
        mkChatMessage 1 "bot" (VStr oopsText) (Some 1)].
Proof.
  cbn zeta.
  destruct (teach_naming_no_document_is_reported "app"
              (sys0 (teachCommand "a/b" "ok") (answering helloResponse) [])
              (dq +:+ "a/b") ("ok" +:+ dq)
              eq_refl eq_refl eq_refl eq_refl eq_refl (or_intror eq_refl))
    as (_ & Hkept & _ & Hchat).
  split; [exact Hkept | exact Hchat].
Defined.

(** X24 on a response whose first part holds no text. *)
Lemma text_that_cannot_be_stored_gives_trouble_witness :
  let s := sys0 "" (answering textlessResponse) [] in
  chatAt chat0 (fs (snd (infer "app" "hi" s)))
  = [mkChatMessage 0 "bot" (VStr troubleText) (Some 0)].
Proof.
  cbn zeta.
  destruct (text_that_cannot_be_stored_gives_trouble "app"
              (sys0 "" (answering textlessResponse) []) "hi" textlessResponse VUndefined
              eq_refl eq_refl eq_refl eq_refl eq_refl eq_refl eq_refl)
    as (_ & Hchat & _).
  exact Hchat.
Defined.

(** X22 on a store that rejects the read. *)
Lemma infer_without_training_data_witness :
  let s := sys0 "" (answering helloResponse) [true] in
  calls (snd (getBotResponse "app" (app0 "") "hi" s))
  = [CallGetDocs training0; CallAddDoc chat0 "bot" (VStr troubleText)].
Proof.
  cbn zeta.
  destruct (infer_without_training_data "app" (app0 "") "hi"
              (sys0 "" (answering helloResponse) [true]) eq_refl eq_refl eq_refl eq_refl)
    as (_ & H & _).
  exact H.
Defined.
